(** * Grocery lists and recipe matching of the cooking backend

    A shallow embedding of [GroceryService] (services/groceryService.js),
    of the matching and search functions of [RecipeService]
    (services/recipeService.js) with the error path of [getRecipeById], of
    [validateIngredients] (utils/validators.js) and of the handlers
    [GroceryController.getGroceryList] and
    [RecipeController.getRecipesByIngredients], written from the JavaScript
    source.

    Modelling conventions.
    - Strings are byte strings; [toLowerCase] lowers the ASCII letters and
      leaves every other byte alone.
    - Quantities are binary64 values ([spec_float], module [Binary64]): the
      serving multiplier is the binary64 quotient, the amount [Math.ceil] of
      the binary64 product; an integer stands for the binary64 value nearest
      to it.  Costs are exact rationals ([Q], kept in reduced form) with
      [NaN] as a value of its own: every constant of the price table is a
      multiple of 0.5, so the additions of [estimateTotalCost] are exact in
      binary64 as well.
    - An object literal is an insertion-ordered list of own properties whose
      reads also see the properties inherited from [Object.prototype], as
      [obj[key]] does in JavaScript.
    - [String.prototype.localeCompare] is the host's collation and the AI
      call inside [getRecipeById] is external: both are section variables.
      The module [Collation] gives the order of the host's collation on
      ASCII names.
    - [calculateMatchData] computes its percentage in binary64 (module
      [Double]).
    - [trim] strips the ASCII white space.
    - The model's answers, [String(x)] on a number, [parseInt],
      [encodeURIComponent] and the clock are section variables as well; a
      query parameter is a string given once, or absent. *)

From Stdlib Require Import Bool List String Ascii ZArith QArith Qround Lia.
From Stdlib Require Import Permutation Sorted DecimalString SpecFloat.
Import ListNotations.

Local Open Scope string_scope.
Local Open Scope Z_scope.

(** ** Strings *)

Module Str.

(** [c.toLowerCase()] on one ASCII character. *)
Definition lower_ascii (c : ascii) : ascii :=
  let n := nat_of_ascii c in
  if (65 <=? n)%nat && (n <=? 90)%nat then ascii_of_nat (n + 32) else c.

(** [s.toLowerCase()] *)
Fixpoint toLowerCase (s : string) : string :=
  match s with
  | EmptyString => EmptyString
  | String c s' => String (lower_ascii c) (toLowerCase s')
  end.

(** [s.includes(sub)]: [sub] occurs in [s] as a contiguous substring. *)
Fixpoint includes (s sub : string) : bool :=
  if String.prefix sub s then true
  else match s with
       | EmptyString => false
       | String _ s' => includes s' sub
       end.

(** What [includes] decides. *)
Definition substring_of (sub s : string) : Prop :=
  exists p q, s = p ++ sub ++ q.

(** [arr.includes(x)] on an array of strings. *)
Definition mem (x : string) (arr : list string) : bool :=
  existsb (String.eqb x) arr.

End Str.

(** ** JavaScript numbers and objects *)

Module JS.

Inductive number : Type :=
| NaN
| Num (q : Q).

Definition of_Z (z : Z) : number := Num (inject_Z z).

Definition mul (a b : number) : number :=
  match a, b with
  | Num x, Num y => Num (Qred (x * y))
  | _, _ => NaN
  end.

Definition add (a b : number) : number :=
  match a, b with
  | Num x, Num y => Num (Qred (x + y))
  | _, _ => NaN
  end.

(** [a / d] for a positive integer divisor. *)
Definition div (a : number) (d : positive) : number :=
  match a with
  | Num x => Num (Qred (x / inject_Z (Zpos d)))
  | NaN => NaN
  end.

(** [Math.round]: the nearest integer, halves towards plus infinity. *)
Definition round (a : number) : number :=
  match a with
  | Num x => of_Z (Qfloor (x + (1 # 2)))
  | NaN => NaN
  end.

(** The own property names of [Object.prototype]; every object literal
    inherits them, and each of them holds a function or an object, hence a
    truthy value without fields of the application. *)
Definition Object_prototype : list string :=
  [ "constructor"; "__defineGetter__"; "__defineSetter__"; "hasOwnProperty";
    "__lookupGetter__"; "__lookupSetter__"; "isPrototypeOf";
    "propertyIsEnumerable"; "toString"; "valueOf"; "__proto__";
    "toLocaleString" ].

Definition inherited (key : string) : bool := Str.mem key Object_prototype.

(** An object used as a dictionary: own properties in insertion order. *)
Definition object (V : Type) : Type := list (string * V).

(** Outcome of the read [obj[key]]. *)
Inductive property (V : Type) : Type :=
| Own (v : V)
| Inherited
| Undefined.
Arguments Own {V} v.
Arguments Inherited {V}.
Arguments Undefined {V}.

Section Objects.
Context {V : Type}.

Fixpoint own (o : object V) (key : string) : option V :=
  match o with
  | [] => None
  | (k, v) :: o' => if String.eqb key k then Some v else own o' key
  end.

(** [obj[key]] *)
Definition get (o : object V) (key : string) : property V :=
  match own o key with
  | Some v => Own v
  | None => if inherited key then Inherited else Undefined
  end.

(** [obj[key] = v]: overwrite in place, or append a new own property. *)
Fixpoint set (o : object V) (key : string) (v : V) : object V :=
  match o with
  | [] => [(key, v)]
  | (k, w) :: o' =>
      if String.eqb key k then (k, v) :: o' else (k, w) :: set o' key v
  end.

End Objects.

(** [Array.prototype.sort(compareFn)]: a stable sort; [a] stays in front of
    a later [b] unless [compareFn a b] is positive.  For a consistent
    comparator all stable sorts return the same array; insertion is the
    simplest of them. *)
Section ArraySort.
Context {A : Type} (compareFn : A -> A -> Z).

Fixpoint insert (a : A) (sorted : list A) : list A :=
  match sorted with
  | [] => [a]
  | b :: rest =>
      if compareFn a b <=? 0 then a :: sorted else b :: insert a rest
  end.

Definition sort (arr : list A) : list A := fold_right insert [] arr.

End ArraySort.

(** Array indices: the canonical decimal numerals of 0 .. 2^32 - 2.  Own
    properties named by an array index are enumerated first, in ascending
    numeric order; the other names follow in insertion order. *)
Definition digit (c : ascii) : option Z :=
  let n := Z.of_N (N_of_ascii c) in
  if (48 <=? n) && (n <=? 57) then Some (n - 48) else None.

Fixpoint numeral (s : string) (acc : Z) : option Z :=
  match s with
  | EmptyString => Some acc
  | String c s' =>
      match digit c with
      | Some d => numeral s' (10 * acc + d)
      | None => None
      end
  end.

Definition array_index (key : string) : option Z :=
  match key with
  | EmptyString => None
  | String "0" EmptyString => Some 0
  | String "0" _ => None
  | _ => match numeral key 0 with
         | Some n => if n <? 4294967295 then Some n else None
         | None => None
         end
  end.

Definition is_index (key : string) : bool :=
  match array_index key with Some _ => true | None => false end.

Definition index_of (key : string) : Z :=
  match array_index key with Some n => n | None => 0 end.

Section Enumeration.
Context {V : Type}.

(** [Object.entries(obj)] *)
Definition entries (o : object V) : list (string * V) :=
  sort (fun a b => index_of (fst a) - index_of (fst b))
       (filter (fun kv => is_index (fst kv)) o)
  ++ filter (fun kv => negb (is_index (fst kv))) o.

(** [Object.keys(obj)] *)
Definition keys (o : object V) : list string := map fst (entries o).

End Enumeration.

End JS.

(** ** Binary64 arithmetic *)

Module Binary64.

Definition t : Type := spec_float.

Definition NaN : t := S754_nan.

(** The binary64 value of an integer. *)
Definition of_Z (z : Z) : t := binary_normalize 53 1024 z 0 false.

(** [a * b] *)
Definition mul (a b : t) : t := SFmul 53 1024 a b.

(** [a / b] *)
Definition div (a b : t) : t := SFdiv 53 1024 a b.

(** [Math.ceil]: a value with no fractional part, an infinity, a zero and
    [NaN] are returned as they are; a negative fraction gives [-0]. *)
Definition ceil (x : t) : t :=
  match x with
  | S754_finite s m e =>
      if 0 <=? e then x
      else
        let v := if s then Z.neg m else Z.pos m in
        let z := - (- v / 2 ^ (- e)) in
        if z =? 0 then S754_zero s else of_Z z
  | _ => x
  end.

(** The integer a finite value stands for, when it has no fractional
    part. *)
Definition integer (x : t) : option Z :=
  match x with
  | S754_zero _ => Some 0
  | S754_finite s m e =>
      let v := if s then Z.neg m else Z.pos m in
      if 0 <=? e then Some (v * 2 ^ e)
      else if v mod 2 ^ (- e) =? 0 then Some (v / 2 ^ (- e)) else None
  | _ => None
  end.

End Binary64.

(** ** Errors *)

Inductive Error : Type :=
| AppError (message : string) (statusCode : Z)
| TypeError.

Definition result (A : Type) : Type := (Error + A)%type.

Definition ret {A} (a : A) : result A := inr a.
Definition throw {A} (e : Error) : result A := inl e.

Definition bind {A B} (c : result A) (k : A -> result B) : result B :=
  match c with
  | inl e => inl e
  | inr a => k a
  end.

Notation "x <- c ;; k" := (bind c (fun x => k))
  (at level 61, c at next level, right associativity).

(** A [for (const x of xs)] loop whose body may throw. *)
Fixpoint for_of {A S} (xs : list A) (body : S -> A -> result S) (s : S)
  : result S :=
  match xs with
  | [] => ret s
  | x :: xs' => s' <- body s x ;; for_of xs' body s'
  end.

(** ** Data model *)

(** The recipe record returned by the recipe service; fields as read by the
    grocery service.  [servings] is a positive integer, as the data model
    has it, so that [servings / recipe.servings] is a finite number. *)
Module Recipe.
Record t : Type := make
  { id : Z;
    name : string;
    servings : positive;
    cookingTime : Z;
    ingredients : list string }.
End Recipe.

(** Category tags: the keys of [ingredientCategories], and ['other']. *)
Inductive Category : Type :=
| produce | dairy | protein | pantry | bread | condiments | other.

Definition Category_eqb (a b : Category) : bool :=
  match a, b with
  | produce, produce | dairy, dairy | protein, protein | pantry, pantry
  | bread, bread | condiments, condiments | other, other => true
  | _, _ => false
  end.

(** One value of the [baseQuantities] table. *)
Module Base.
Record t : Type := make { amount : Z; unit : string; notes : string }.
End Base.

(** [{ amount, unit, notes }] as returned by [calculateIngredientQuantity];
    a missing field reads as [undefined] ([None]). *)
Module Quantity.
Record t : Type := make
  { amount : Binary64.t;
    unit : option string;
    notes : option string }.
End Quantity.

(** [{ recipeId, recipeName }] *)
Module RecipeRef.
Record t : Type := make
  { recipeId : Z;
    recipeName : string }.
End RecipeRef.

(** One value of [groceryList.ingredients]. *)
Module Entry.
Record t : Type := make
  { name : string;
    quantity : Binary64.t;
    unit : option string;
    category : Category;
    recipes : list RecipeRef.t;
    notes : option string }.

(** [entry.recipes.push(ref)] *)
Definition push (e : t) (ref : RecipeRef.t) : t :=
  make (name e) (quantity e) (unit e) (category e) (recipes e ++ [ref])
       (notes e).
End Entry.

(** [options]: [servings] is an integer or [null] ([None], the default);
    [excludeIngredients] is an array of strings ([[]] by default). *)
Module Options.
Record t : Type := make
  { servings : option Z;
    excludeIngredients : list string }.

Definition default : t := make None [].
End Options.

(** One element of [groceryList.recipes]. *)
Module Listed.
Record t : Type := make
  { id : Z;
    name : string;
    servings : Z;
    cookingTime : Z }.
End Listed.

Module Summary.
Record t : Type := make
  { totalRecipes : nat;
    totalIngredients : nat;
    estimatedCost : JS.number;
    estimatedTime : Z }.
End Summary.

Module GroceryList.
Record t : Type := make
  { recipes : list Listed.t;
    ingredients : JS.object Entry.t;
    categorizedIngredients : list (Category * list Entry.t);
    summary : Summary.t }.
End GroceryList.

(** [recipeIds]: an array, or a single identifier. *)
Inductive RecipeIds : Type :=
| Single (recipeId : Z)
| Array (recipeIds : list Z).

(** ** The services *)

Section Services.

(** The answer of the generative model for a recipe identifier, parsed
    ([this.model.generateContent], [response.text], [JSON.parse]); [None]
    when any of these steps throws. *)
Variable generateContent : Z -> option Recipe.t.

(** [a.localeCompare(b)]: negative, zero or positive. *)
Variable localeCompare : string -> string -> Z.

(** *** RecipeService.getRecipeById *)

Definition template_literal (z : Z) : string :=
  NilZero.string_of_int (Z.to_int z).

Definition getRecipeById (recipeId : Z) : result Recipe.t :=
  match generateContent recipeId with
  | Some recipe => ret recipe
  | None =>
      throw (AppError ("Recipe with ID " ++ template_literal recipeId
                       ++ " not found") 404)
  end.

(** *** GroceryService *)

Definition ingredientCategories : list (Category * list string) :=
  [ (produce, ["tomato"; "onion"; "garlic"; "basil"; "herbs"; "bell pepper";
               "lettuce"; "cucumber"]);
    (dairy, ["cheese"; "butter"; "milk"; "cream"; "yogurt"; "mozzarella";
             "parmesan"]);
    (protein, ["eggs"; "chicken"; "beef"; "fish"; "tofu"]);
    (pantry, ["salt"; "pepper"; "olive oil"; "flour"; "sugar"; "pasta";
              "rice"]);
    (bread, ["bread"; "tortilla"; "buns"; "rolls"]);
    (condiments, ["balsamic vinegar"; "soy sauce"; "hot sauce"; "mustard"]) ].

(** The callback of [ingredients.some] in [categorizeIngredient]. *)
Definition partial_match (lowerIngredient item : string) : bool :=
  Str.includes lowerIngredient item || Str.includes item lowerIngredient.

(** The loop over [Object.entries(this.ingredientCategories)]. *)
Fixpoint first_category (table : list (Category * list string))
    (lowerIngredient : string) : Category :=
  match table with
  | [] => other
  | (category, ingredients) :: rest =>
      if existsb (partial_match lowerIngredient) ingredients then category
      else first_category rest lowerIngredient
  end.

Definition categorizeIngredient (ingredient : string) : Category :=
  let lowerIngredient := Str.toLowerCase ingredient in
  first_category ingredientCategories lowerIngredient.

Definition baseQuantities : JS.object Base.t :=
  [ ("eggs", Base.make 6 "pieces" "Large eggs");
    ("tomato", Base.make 2 "pieces" "Medium tomatoes");
    ("cheese", Base.make 200 "g" "Block or grated");
    ("butter", Base.make 100 "g" "Unsalted preferred");
    ("bread", Base.make 1 "loaf" "Whole grain or white");
    ("olive oil", Base.make 250 "ml" "Extra virgin");
    ("onion", Base.make 1 "piece" "Medium yellow onion");
    ("garlic", Base.make 1 "head" "Fresh bulb");
    ("pasta", Base.make 500 "g" "Dried pasta");
    ("salt", Base.make 1 "container" "Sea salt or table salt");
    ("pepper", Base.make 1 "container" "Freshly ground") ].

Definition defaultQuantity : Base.t :=
  Base.make 1 "item" "Check recipe for specific amount".

(** [baseQuantities[key] || defaultQuantity].  An own record is truthy; so
    is an inherited value, which is a function or [Object.prototype] and
    has none of the fields [amount], [unit], [notes] ([None]). *)
Definition base_or_default (p : JS.property Base.t) : option Base.t :=
  match p with
  | JS.Own base => Some base
  | JS.Inherited => None
  | JS.Undefined => Some defaultQuantity
  end.

Definition calculateIngredientQuantity (ingredient : string)
    (multiplier : Binary64.t) : Quantity.t :=
  let base :=
    base_or_default (JS.get baseQuantities (Str.toLowerCase ingredient)) in
  let base_amount :=
    match base with
    | Some b => Binary64.of_Z (Base.amount b)
    | None => Binary64.NaN
    end in
  Quantity.make (Binary64.ceil (Binary64.mul base_amount multiplier))
                (option_map Base.unit base)
                (option_map Base.notes base).

Definition averagePrices : JS.object Q :=
  [ ("eggs", 7 # 2); ("tomato", 2 # 1); ("cheese", 5 # 1);
    ("butter", 4 # 1); ("bread", 5 # 2); ("olive oil", 6 # 1);
    ("onion", 3 # 2); ("garlic", 1 # 1); ("pasta", 3 # 2);
    ("salt", 1 # 1); ("pepper", 3 # 1) ].

(** [averagePrices[key] || 2.50].  An inherited value is truthy and not a
    number: adding it turns [totalCost] into a string that is not a
    numeral and stays one, which [Math.round(totalCost * 100)] reads as
    [NaN]; the addend is therefore [NaN]. *)
Definition price_or_default (p : JS.property Q) : JS.number :=
  match p with
  | JS.Own price => if Qeq_bool price 0 then JS.Num (5 # 2) else JS.Num price
  | JS.Inherited => JS.NaN
  | JS.Undefined => JS.Num (5 # 2)
  end.

Definition estimateTotalCost {V} (ingredients : JS.object V) : JS.number :=
  let totalCost :=
    fold_left
      (fun totalCost ingredient =>
         JS.add totalCost
           (price_or_default
              (JS.get averagePrices (Str.toLowerCase ingredient))))
      (JS.keys ingredients) (JS.of_Z 0) in
  JS.div (JS.round (JS.mul totalCost (JS.of_Z 100))) 100.

(** [servings ? servings / recipe.servings : 1] *)
Definition servingMultiplier (options : Options.t) (recipe : Recipe.t)
  : Binary64.t :=
  match Options.servings options with
  | Some servings =>
      if servings =? 0 then Binary64.of_Z 1
      else Binary64.div (Binary64.of_Z servings)
             (Binary64.of_Z (Zpos (Recipe.servings recipe)))
  | None => Binary64.of_Z 1
  end.

(** [servings || recipe.servings] *)
Definition listedServings (options : Options.t) (recipe : Recipe.t) : Z :=
  match Options.servings options with
  | Some servings =>
      if servings =? 0 then Zpos (Recipe.servings recipe) else servings
  | None => Zpos (Recipe.servings recipe)
  end.

Definition recipeRef (recipe : Recipe.t) : RecipeRef.t :=
  RecipeRef.make (Recipe.id recipe) (Recipe.name recipe).

(** Body of the loop over [recipe.ingredients].  The entry is created only
    when [groceryList.ingredients[ingredient]] is falsy; [.recipes.push]
    throws when what is found there is not an entry. *)
Definition addIngredient (options : Options.t) (recipe : Recipe.t)
    (ingredients : JS.object Entry.t) (ingredient : string)
  : result (JS.object Entry.t) :=
  if Str.mem (Str.toLowerCase ingredient) (Options.excludeIngredients options)
  then ret ingredients
  else
    let quantity :=
      calculateIngredientQuantity ingredient
        (servingMultiplier options recipe) in
    let ingredients :=
      match JS.get ingredients ingredient with
      | JS.Undefined =>
          JS.set ingredients ingredient
            (Entry.make ingredient (Quantity.amount quantity)
               (Quantity.unit quantity) (categorizeIngredient ingredient)
               [] (Quantity.notes quantity))
      | _ => ingredients
      end in
    match JS.get ingredients ingredient with
    | JS.Own entry =>
        ret (JS.set ingredients ingredient
               (Entry.push entry (recipeRef recipe)))
    | _ => throw TypeError
    end.

(** Body of the loop over [recipeIds]. *)
Definition processRecipe (options : Options.t)
    (groceryList : GroceryList.t) (recipeId : Z) : result GroceryList.t :=
  recipe <- getRecipeById recipeId ;;
  let recipes :=
    (GroceryList.recipes groceryList
     ++ [Listed.make (Recipe.id recipe) (Recipe.name recipe)
           (listedServings options recipe) (Recipe.cookingTime recipe)])%list
  in
  ingredients <- for_of (Recipe.ingredients recipe)
                   (addIngredient options recipe)
                   (GroceryList.ingredients groceryList) ;;
  let summary := GroceryList.summary groceryList in
  ret (GroceryList.make recipes ingredients
         (GroceryList.categorizedIngredients groceryList)
         (Summary.make (Summary.totalRecipes summary)
            (Summary.totalIngredients summary)
            (Summary.estimatedCost summary)
            (Summary.estimatedTime summary + Recipe.cookingTime recipe))).

(** [categorizedIngredients[category]] is defined. *)
Fixpoint has_category (categorized : list (Category * list Entry.t))
    (category : Category) : bool :=
  match categorized with
  | [] => false
  | (c, _) :: rest => Category_eqb category c || has_category rest category
  end.

(** [categorizedIngredients[category].push(ingredientData)]; the bucket
    exists when this is called. *)
Fixpoint push_category (categorized : list (Category * list Entry.t))
    (category : Category) (ingredientData : Entry.t)
  : list (Category * list Entry.t) :=
  match categorized with
  | [] => []
  | (c, bucket) :: rest =>
      if Category_eqb category c
      then (c, (bucket ++ [ingredientData])%list) :: rest
      else (c, bucket) :: push_category rest category ingredientData
  end.

(** Body of the loop "Organize ingredients by category". *)
Definition organizeEntry (categorized : list (Category * list Entry.t))
    (entry : string * Entry.t) : list (Category * list Entry.t) :=
  let ingredientData := snd entry in
  let category := Entry.category ingredientData in
  let categorized :=
    if has_category categorized category then categorized
    else (categorized ++ [(category, [])])%list in
  push_category categorized category ingredientData.

Definition organize (ingredients : JS.object Entry.t)
  : list (Category * list Entry.t) :=
  fold_left organizeEntry (JS.entries ingredients) [].

(** The comparator [(a, b) => a.name.localeCompare(b.name)]. *)
Definition byName (a b : Entry.t) : Z :=
  localeCompare (Entry.name a) (Entry.name b).

(** The loop "Sort ingredients within each category". *)
Definition sortCategories (categorized : list (Category * list Entry.t))
  : list (Category * list Entry.t) :=
  map (fun cb => (fst cb, JS.sort byName (snd cb))) categorized.

Definition normalize (recipeIds : RecipeIds) : list Z :=
  match recipeIds with
  | Array ids => ids
  | Single recipeId => [recipeId]
  end.

Definition emptyGroceryList (recipeIds : list Z) : GroceryList.t :=
  GroceryList.make [] [] []
    (Summary.make (List.length recipeIds) 0 (JS.of_Z 0) 0).

Definition generateGroceryList (recipeIds : RecipeIds) (options : Options.t)
  : result GroceryList.t :=
  let recipeIds := normalize recipeIds in
  groceryList <- for_of recipeIds (processRecipe options)
                   (emptyGroceryList recipeIds) ;;
  let ingredients := GroceryList.ingredients groceryList in
  let categorizedIngredients := sortCategories (organize ingredients) in
  let summary := GroceryList.summary groceryList in
  ret (GroceryList.make (GroceryList.recipes groceryList) ingredients
         categorizedIngredients
         (Summary.make (Summary.totalRecipes summary)
            (List.length (JS.keys ingredients))
            (estimateTotalCost ingredients)
            (Summary.estimatedTime summary))).

End Services.

(** ** The scenario of the specification, and a sample collation *)

Module Scenario.

Definition omelet : Recipe.t :=
  Recipe.make 1 "Omelet" 2 10 ["eggs"; "cheese"; "butter"].

Definition toast : Recipe.t :=
  Recipe.make 2 "Toast" 1 5 ["bread"; "butter"].

Definition generateContent (recipeId : Z) : option Recipe.t :=
  if recipeId =? 1 then Some omelet
  else if recipeId =? 2 then Some toast
  else None.

(** A collation that compares the lower-cased names byte by byte. *)
Definition localeCompare (a b : string) : Z :=
  match String.compare (Str.toLowerCase a) (Str.toLowerCase b) with
  | Lt => -1
  | Eq => 0
  | Gt => 1
  end.

Definition run (recipeIds : list Z) (options : Options.t)
  : result GroceryList.t :=
  generateGroceryList generateContent localeCompare (Array recipeIds) options.

End Scenario.

(** The collation [localeCompare] applies on ASCII names when it is given
    no locale and the host's locale is English: the root collation of the
    Unicode CLDR.  White space, punctuation and symbols come first, in the
    order of [symbols], then the digits, then the letters; letters that
    differ in case only are told apart last, the lower-case one first.
    The other control characters and the bytes outside ASCII are skipped. *)
Module Collation.

(** The character codes of the white space, the punctuation and the
    symbols, in the order of the collation: tab, line feed, vertical tab,
    form feed, carriage return, space, underscore, hyphen, comma, semicolon,
    colon, exclamation mark, question mark, full stop, apostrophe, quotation
    mark, brackets, at sign, asterisk, slash, backslash, ampersand, number
    sign, percent sign, grave accent, circumflex, plus, less-than, equals,
    greater-than, vertical bar, tilde, dollar sign. *)
Definition symbols : list nat :=
  [9; 10; 11; 12; 13; 32; 95; 45; 44; 59; 58; 33; 63; 46; 39; 34; 40; 41;
   91; 93; 123; 125; 64; 42; 47; 92; 38; 35; 37; 96; 94; 43; 60; 61; 62;
   124; 126; 36]%nat.

Fixpoint position (n : nat) (l : list nat) (start : nat) : option nat :=
  match l with
  | [] => None
  | m :: rest =>
      if (n =? m)%nat then Some start else position n rest (S start)
  end.

(** The primary weight of a character; [None] for one that is skipped. *)
Definition primary (c : ascii) : option nat :=
  let n := nat_of_ascii c in
  if (48 <=? n)%nat && (n <=? 57)%nat then Some (n - 48 + 40)%nat
  else if (97 <=? n)%nat && (n <=? 122)%nat then Some (n - 97 + 60)%nat
  else if (65 <=? n)%nat && (n <=? 90)%nat then Some (n - 65 + 60)%nat
  else position n symbols 1.

Definition upper (c : ascii) : bool :=
  let n := nat_of_ascii c in (65 <=? n)%nat && (n <=? 90)%nat.

(** The primary weights of a string, as a string of weights. *)
Fixpoint primaries (s : string) : string :=
  match s with
  | EmptyString => EmptyString
  | String c rest =>
      match primary c with
      | Some w => String (ascii_of_nat w) (primaries rest)
      | None => primaries rest
      end
  end.

(** The case of each weighted character: "0" lower, "1" upper. *)
Fixpoint cases (s : string) : string :=
  match s with
  | EmptyString => EmptyString
  | String c rest =>
      match primary c with
      | Some _ => String (if upper c then "1" else "0")%char (cases rest)
      | None => cases rest
      end
  end.

Definition compare (a b : string) : comparison :=
  match String.compare (primaries a) (primaries b) with
  | Eq => String.compare (cases a) (cases b)
  | c => c
  end.

Definition localeCompare (a b : string) : Z :=
  match compare a b with
  | Lt => -1
  | Eq => 0
  | Gt => 1
  end.

End Collation.

(** A recipe whose two names differ by an underscore. *)
Module Underscore.

Definition recipe : Recipe.t :=
  Recipe.make 1 "Cake" 2 10 ["butter2"; "butter_2"].

Definition generateContent (recipeId : Z) : option Recipe.t :=
  if recipeId =? 1 then Some recipe else None.

Definition groceryList : GroceryList.t :=
  Eval vm_compute in
    match generateGroceryList generateContent Collation.localeCompare
            (Single 1) Options.default with
    | inr groceryList => groceryList
    | inl _ => emptyGroceryList []
    end.

End Underscore.

(** * The rest of the grocery service *)

(** [Object.values(obj)] *)
Definition Object_values {V} (o : JS.object V) : list V :=
  map snd (JS.entries o).

(** The key under which [categorizedIngredients] holds a category. *)
Definition Category_name (c : Category) : string :=
  match c with
  | produce => "produce"
  | dairy => "dairy"
  | protein => "protein"
  | pantry => "pantry"
  | bread => "bread"
  | condiments => "condiments"
  | other => "other"
  end.

(** [c.toUpperCase()] on one ASCII character. *)
Definition upper_ascii (c : ascii) : ascii :=
  let n := nat_of_ascii c in
  if (97 <=? n)%nat && (n <=? 122)%nat then ascii_of_nat (n - 32) else c.

(** [s.charAt(0).toUpperCase() + s.slice(1)] *)
Definition capitalize (s : string) : string :=
  match s with
  | EmptyString => EmptyString
  | String c rest => String (upper_ascii c) rest
  end.

(** One element of [items] in a checklist group. *)
Module ChecklistItem.
Record t : Type := make
  { name : string;
    checked : bool;
    notes : option string }.
End ChecklistItem.

Module ChecklistGroup.
Record t : Type := make
  { category : string;
    items : list ChecklistItem.t }.
End ChecklistGroup.

(** The result of [getShoppingListFormats]. *)
Module Formats.
Record t : Type := make
  { detailed : GroceryList.t;
    simple : list string;
    checklist : list ChecklistGroup.t;
    categoryOrganized : list (Category * list Entry.t) }.
End Formats.

Section Formatting.

Variable generateContent : Z -> option Recipe.t.
Variable localeCompare : string -> string -> Z.

(** [String(x)] for a finite number [x] other than 0, as template literals
    apply it. *)
Variable numberToString : Binary64.t -> string.

(** A number inside a template literal. *)
Definition template_number (n : Binary64.t) : string :=
  match n with
  | S754_nan => "NaN"
  | S754_infinity negative => if negative then "-Infinity" else "Infinity"
  | S754_zero _ => "0"
  | S754_finite _ _ _ => numberToString n
  end.

(** A string field inside a template literal; a missing field reads
    "undefined". *)
Definition template_field (s : option string) : string :=
  match s with
  | Some s => s
  | None => "undefined"
  end.

(** [`${ingredient.quantity} ${ingredient.unit} ${ingredient.name}`] *)
Definition ingredientLine (ingredient : Entry.t) : string :=
  template_number (Entry.quantity ingredient) ++ " "
  ++ template_field (Entry.unit ingredient) ++ " "
  ++ Entry.name ingredient.

Definition createSimpleList (groceryList : GroceryList.t) : list string :=
  map ingredientLine (Object_values (GroceryList.ingredients groceryList)).

Definition checklistItem (ingredient : Entry.t) : ChecklistItem.t :=
  ChecklistItem.make (ingredientLine ingredient) false
    (Entry.notes ingredient).

Definition createChecklist (groceryList : GroceryList.t)
  : list ChecklistGroup.t :=
  map (fun entry =>
         ChecklistGroup.make (capitalize (Category_name (fst entry)))
           (map checklistItem (snd entry)))
      (GroceryList.categorizedIngredients groceryList).

Definition getShoppingListFormats (recipeIds : RecipeIds)
    (options : Options.t) : result Formats.t :=
  groceryList <- generateGroceryList generateContent localeCompare
                   recipeIds options ;;
  ret (Formats.make groceryList (createSimpleList groceryList)
         (createChecklist groceryList)
         (GroceryList.categorizedIngredients groceryList)).

End Formatting.

(** * RecipeService: recipes for the available ingredients *)

(** Arithmetic on binary64 values, as [calculateMatchData] uses it. *)
Module Double.

(** The binary64 value of an integer. *)
Definition of_Z (z : Z) : spec_float := binary_normalize 53 1024 z 0 false.

(** [Math.round] of a finite value, as an integer: halves go up. *)
Definition round (x : spec_float) : option Z :=
  match x with
  | S754_zero _ => Some 0
  | S754_finite s m e =>
      let v := if s then Z.neg m else Z.pos m in
      Some (if 0 <=? e then v * 2 ^ e
            else (2 * v + 2 ^ (- e)) / 2 ^ (- e + 1))
  | _ => None
  end.

(** [Math.round((score / total) * 100)] for two lengths; [None] is
    [NaN]. *)
Definition percentage (score total : nat) : option Z :=
  round (SFmul 53 1024
           (SFdiv 53 1024 (of_Z (Z.of_nat score))
                          (of_Z (Z.of_nat total)))
           (of_Z 100)).

End Double.

Module NutritionalInfo.
Record t : Type := make
  { calories : Z;
    protein : string;
    carbs : string;
    fat : string }.
End NutritionalInfo.

(** A recipe of the shape the prompts ask the model for.  [ingredients] may
    be missing ([None]). *)
Module RecipeData.
Record t : Type := make
  { id : Z;
    name : string;
    description : string;
    cookingTime : Z;
    servings : Z;
    difficulty : string;
    cuisine : string;
    ingredients : option (list string);
    nutritionalInfo : NutritionalInfo.t;
    tags : list string;
    rating : Q;
    image : string }.

(** [{...recipe, id, image}] *)
Definition with_id_image (recipe : t) (id' : Z) (image' : string) : t :=
  make id' (name recipe) (description recipe) (cookingTime recipe)
    (servings recipe) (difficulty recipe) (cuisine recipe)
    (ingredients recipe) (nutritionalInfo recipe) (tags recipe)
    (rating recipe) image'.
End RecipeData.

(** The result of [calculateMatchData]; [matchPercentage] is [None] for
    [NaN]. *)
Module MatchData.
Record t : Type := make
  { matchScore : nat;
    matchPercentage : option Z;
    matchedIngredients : list string;
    missingIngredients : list string;
    canMake : bool }.
End MatchData.

(** [{...recipe, ...matchData}] *)
Module Found.
Record t : Type := make
  { recipe : RecipeData.t;
    matchData : MatchData.t }.

Definition matchScore (found : t) : nat :=
  MatchData.matchScore (matchData found).
End Found.

Module SearchResult.
Record t : Type := make
  { searchedIngredients : list string;
    totalFound : nat;
    recipes : list Found.t }.
End SearchResult.

Definition synonyms : JS.object (list string) :=
  [ ("tomato", ["tomatoes"; "tomato"]);
    ("egg", ["eggs"; "egg"]);
    ("cheese", ["cheddar"; "mozzarella"; "parmesan"; "cheese"]);
    ("onion", ["onions"; "onion"]);
    ("garlic", ["garlic clove"; "garlic cloves"]);
    ("pepper", ["bell pepper"; "peppers"]);
    ("oil", ["olive oil"; "cooking oil"; "vegetable oil"]) ].

Definition isIngredientMatch (available required : string) : bool :=
  let availableLower := Str.toLowerCase available in
  let requiredLower := Str.toLowerCase required in
  if String.eqb availableLower requiredLower then true
  else
    existsb (fun entry =>
               Str.mem availableLower (snd entry)
               && Str.mem requiredLower (snd entry))
            (JS.entries synonyms).

(** The test [calculateMatchData] applies to an available ingredient and an
    ingredient of the recipe. *)
Definition matches (available ingredient : string) : bool :=
  Str.includes (Str.toLowerCase available) (Str.toLowerCase ingredient)
  || Str.includes (Str.toLowerCase ingredient) (Str.toLowerCase available)
  || isIngredientMatch available ingredient.

Definition calculateMatchData (recipe : RecipeData.t)
    (availableIngredients : list string) : MatchData.t :=
  let recipeIngredients :=
    match RecipeData.ingredients recipe with
    | Some ingredients => ingredients
    | None => []
    end in
  let matchedIngredients :=
    filter (fun ingredient =>
              existsb (fun available => matches available ingredient)
                      availableIngredients)
           recipeIngredients in
  let matchScore := List.length matchedIngredients in
  let matchPercentage :=
    Double.percentage matchScore (List.length recipeIngredients) in
  let missingIngredients :=
    filter (fun ingredient => negb (Str.mem ingredient matchedIngredients))
           recipeIngredients in
  MatchData.make matchScore matchPercentage matchedIngredients
    missingIngredients (1 <=? matchScore)%nat.

(** [arr.slice(0, end)]; [None] is [NaN], which counts as 0, and a negative
    [end] counts from the end of the array. *)
Definition slice_from_0 {A} (arr : list A) (end_ : option Z) : list A :=
  match end_ with
  | None => []
  | Some e =>
      if e <? 0 then firstn (Z.to_nat (Z.of_nat (List.length arr) + e)) arr
      else firstn (Z.to_nat e) arr
  end.

Definition fallbackRecipes : list RecipeData.t :=
  [ RecipeData.make 1 "Simple Scrambled Eggs"
      "Basic scrambled eggs with available ingredients" 10 2 "easy"
      "American" (Some ["eggs"; "salt"; "pepper"; "butter"])
      (NutritionalInfo.make 200 "14g" "2g" "15g")
      ["breakfast"; "quick"; "easy"] (4 # 1)
      "https://via.placeholder.com/300x200?text=Scrambled+Eggs" ].

Definition getFallbackRecipes (availableIngredients : list string)
    (limit : option Z) : SearchResult.t :=
  let recipes :=
    map (fun recipe =>
           Found.make recipe (calculateMatchData recipe availableIngredients))
        (slice_from_0 fallbackRecipes limit) in
  SearchResult.make availableIngredients (List.length recipes) recipes.

Section Search.

(** The recipes parsed from the model's answer to the prompt built from the
    available ingredients and the limit; [None] when the request, the
    parsing or the reading of the answer throws. *)
Variable generateRecipes :
  list string -> option Z -> option (list RecipeData.t).

Variable encodeURIComponent : string -> string.

(** [arr.map((x, index) => f x index)] *)
Fixpoint map_index {A B} (f : A -> nat -> B) (index : nat) (arr : list A)
  : list B :=
  match arr with
  | [] => []
  | x :: rest => f x index :: map_index f (S index) rest
  end.

Definition enhance (availableIngredients : list string)
    (recipe : RecipeData.t) (index : nat) : Found.t :=
  Found.make
    (RecipeData.with_id_image recipe (Z.of_nat index + 1)
       ("https://via.placeholder.com/300x200?text="
        ++ encodeURIComponent (RecipeData.name recipe)))
    (calculateMatchData recipe availableIngredients).

(** The comparator [(a, b) => b.matchScore - a.matchScore]. *)
Definition byMatchScore (a b : Found.t) : Z :=
  Z.of_nat (Found.matchScore b) - Z.of_nat (Found.matchScore a).

Definition findRecipesByIngredients (availableIngredients : list string)
    (limit : option Z) : SearchResult.t :=
  match generateRecipes availableIngredients limit with
  | Some recipes =>
      let enhancedRecipes :=
        map_index (enhance availableIngredients) 0 recipes in
      SearchResult.make availableIngredients
        (List.length enhancedRecipes)
        (JS.sort byMatchScore enhancedRecipes)
  | None => getFallbackRecipes availableIngredients limit
  end.

End Search.

(** * GroceryController.getGroceryList *)

(** What a caller passes to [generateGroceryList] as [options]. *)
Inductive OptionsArgument : Type :=
| Omitted
| Null
| Number (n : JS.number)
| Given (options : Options.t).

(** The parameter default [options = {}] and the destructuring
    [{ servings = null, excludeIngredients = [] } = options]: the default
    replaces [undefined] only, [null] cannot be destructured, and a number
    has neither property. *)
Definition destructure (arg : OptionsArgument) : result Options.t :=
  match arg with
  | Omitted => ret Options.default
  | Null => throw TypeError
  | Number _ => ret Options.default
  | Given options => ret options
  end.

(** The body of [createErrorResponse]'s [error] field. *)
Module ErrorResponse.
Record t : Type := make
  { message : string;
    statusCode : Z;
    details : option string;
    timestamp : string }.
End ErrorResponse.

Inductive Body : Type :=
| Failure (error : ErrorResponse.t)
| Success (data : GroceryList.t) (message : string).

(** What a handler does with a request: [res.status(status).json(body)], or
    [next(error)]. *)
Inductive Reply : Type :=
| Sent (status : Z) (body : Body)
| Next (error : Error).

(** Truthiness of a query parameter: present and not empty. *)
Definition truthy (parameter : option string) : bool :=
  match parameter with
  | Some s => negb (String.eqb s "")
  | None => false
  end.

Section Controller.

Variable generateContent : Z -> option Recipe.t.
Variable localeCompare : string -> string -> Z.

(** [parseInt(s)]; [None] is [NaN]. *)
Variable parseInt : string -> option Z.

(** [new Date().toISOString()] *)
Variable now : string.

(** [groceryService.generateGroceryList(recipeIds, options)] as a caller
    reaches it. *)
Definition GroceryService_generateGroceryList (recipeIds : RecipeIds)
    (arg : OptionsArgument) : result GroceryList.t :=
  options <- destructure arg ;;
  generateGroceryList generateContent localeCompare recipeIds options.

Definition createErrorResponse (message : string) (statusCode : Z)
  : ErrorResponse.t :=
  ErrorResponse.make message statusCode None now.

(** [parseInt] of a query parameter; an absent one reads [NaN]. *)
Definition parseInt_parameter (parameter : option string) : option Z :=
  match parameter with
  | Some s => parseInt s
  | None => None
  end.

(** [getGroceryList(req, res, next)] for the query parameters [recipeId] and
    [servings], each given once or absent. *)
Definition getGroceryList (recipeId servings : option string) : Reply :=
  match (if truthy recipeId then parseInt_parameter recipeId else None) with
  | None =>
      Sent 400 (Failure (createErrorResponse "Valid recipe ID is required"
                           400))
  | Some id =>
      let targetServings :=
        if truthy servings then
          Number match parseInt_parameter servings with
                 | Some n => JS.of_Z n
                 | None => JS.NaN
                 end
        else Null in
      if truthy servings
         && match parseInt_parameter servings with
            | Some n => n <=? 0
            | None => true
            end
      then Sent 400 (Failure (createErrorResponse
                                "Servings must be a positive number" 400))
      else
        match GroceryService_generateGroceryList (Single id) targetServings
        with
        | inr groceryList =>
            Sent 200 (Success groceryList
                        "Grocery list generated successfully")
        | inl error => Next error
        end
  end.

End Controller.

(** * utils/validators.js: validateIngredients *)

Module Text.

(** [s.split(',')] *)
Fixpoint split_comma (s : string) : list string :=
  match s with
  | EmptyString => [EmptyString]
  | String c rest =>
      if Ascii.eqb c ","
      then EmptyString :: split_comma rest
      else match split_comma rest with
           | part :: parts => String c part :: parts
           | [] => [String c EmptyString]
           end
  end.

(** The ASCII white space and line terminators. *)
Definition is_space (c : ascii) : bool :=
  let n := nat_of_ascii c in
  ((9 <=? n)%nat && (n <=? 13)%nat) || (n =? 32)%nat.

Fixpoint trimStart (s : string) : string :=
  match s with
  | EmptyString => EmptyString
  | String c rest => if is_space c then trimStart rest else s
  end.

Fixpoint trimEnd (s : string) : string :=
  match s with
  | EmptyString => EmptyString
  | String c rest =>
      match trimEnd rest with
      | EmptyString => if is_space c then EmptyString
                       else String c EmptyString
      | kept => String c kept
      end
  end.

(** [s.trim()], for the ASCII white space. *)
Definition trim (s : string) : string := trimEnd (trimStart s).

End Text.

(** [validateIngredients(ingredientsString)]: the argument is a string or
    something else ([None]); the result is the array, or the message of the
    [Error] thrown. *)
Definition validateIngredients (ingredientsString : option string)
  : string + list string :=
  match ingredientsString with
  | None => inl "Ingredients must be provided as a comma-separated string"
  | Some s =>
      if String.eqb s ""
      then inl "Ingredients must be provided as a comma-separated string"
      else
        let ingredients :=
          filter (fun item => negb (String.length item =? 0)%nat)
            (map (fun item => Str.toLowerCase (Text.trim item))
                 (Text.split_comma s)) in
        if (List.length ingredients =? 0)%nat
        then inl "At least one ingredient must be provided"
        else if (20 <? List.length ingredients)%nat
        then inl "Maximum 20 ingredients allowed"
        else inr ingredients
  end.

(** * RecipeController *)

(** What [getRecipesByIngredients] does with a request: a 400 reply, the
    success reply, or [next(error)] with the [Error] a validator threw. *)
Inductive RecipesReply : Type :=
| Rejected (status : Z) (error : ErrorResponse.t)
| Recipes (ingredients : list string) (recipes : SearchResult.t)
          (message : string)
| Failed (message : string).

(** [value && value !== 'all'] *)
Definition selective (parameter : option string) : bool :=
  truthy parameter
  && match parameter with
     | Some s => negb (String.eqb s "all")
     | None => false
     end.

(** [recipes.filter(recipe => field(recipe).toLowerCase() ===
    value.toLowerCase())] when the parameter is selective. *)
Definition filterBy (field : RecipeData.t -> string)
    (parameter : option string) (recipes : list Found.t) : list Found.t :=
  match parameter with
  | Some value =>
      if selective parameter
      then filter (fun found =>
                     String.eqb (Str.toLowerCase (field (Found.recipe found)))
                                (Str.toLowerCase value))
                  recipes
      else recipes
  | None => recipes
  end.

Section RecipeController.

Variable generateRecipes :
  list string -> option Z -> option (list RecipeData.t).
Variable encodeURIComponent : string -> string.
Variable parseInt : string -> option Z.
Variable now : string.

(** [getRecipesByIngredients(req, res, next)] for the query parameters
    [items], [limit], [cuisine] and [difficulty], each given once or
    absent. *)
Definition getRecipesByIngredients
    (items limit cuisine difficulty : option string) : RecipesReply :=
  if negb (truthy items)
  then Rejected 400 (createErrorResponse now "Items parameter is required"
                       400)
  else
    match validateIngredients items with
    | inl message => Failed message
    | inr ingredients =>
        if (List.length ingredients =? 0)%nat
        then Rejected 400 (createErrorResponse now
                             "Valid ingredients are required" 400)
        else
          let recipesData :=
            findRecipesByIngredients generateRecipes encodeURIComponent
              ingredients
              match limit with
              | Some s => parseInt s
              | None => Some 10
              end in
          let filteredRecipes :=
            filterBy RecipeData.difficulty difficulty
              (filterBy RecipeData.cuisine cuisine
                 (SearchResult.recipes recipesData)) in
          let finalResponse :=
            SearchResult.make (SearchResult.searchedIngredients recipesData)
              (List.length filteredRecipes) filteredRecipes in
          Recipes ingredients finalResponse
            ("Found "
             ++ template_literal
                  (Z.of_nat (SearchResult.totalFound finalResponse))
             ++ " recipes matching your ingredients")
    end.

End RecipeController.

(** [calculateHealthScore(nutritionalInfo, tags)], for the value [calories]
    of [parseInt(nutritionalInfo.calories)] ([None] is [NaN]). *)
Definition healthyTags : list string :=
  ["vegetarian"; "vegan"; "healthy"; "low-fat"; "high-protein"].

Definition calculateHealthScore (calories : option Z) (tags : list string)
  : Z :=
  let score := 50 in
  let score :=
    match calories with
    | Some calories =>
        if (200 <=? calories) && (calories <=? 600) then score + 20
        else if 600 <? calories then score - 10
        else score
    | None => score
    end in
  let healthyTagCount :=
    List.length
      (filter (fun tag => Str.mem (Str.toLowerCase tag) healthyTags) tags) in
  let score := score + Z.of_nat healthyTagCount * 10 in
  Z.min 100 (Z.max 0 score).

(** * Vocabulary of the properties *)

(** ** The categorizer *)

(** The wording of the specification: [a] is a case-insensitive substring of
    [b]. *)
Definition ci_substring (a b : string) : Prop :=
  Str.substring_of (Str.toLowerCase a) (Str.toLowerCase b).

(** A category matches when some keyword of it is a case-insensitive
    substring of the ingredient name, or the other way round. *)
Definition category_matches (ingredient : string) (keywords : list string)
  : Prop :=
  exists keyword,
    In keyword keywords
    /\ (ci_substring keyword ingredient \/ ci_substring ingredient keyword).

Definition lowercase_table (table : list (Category * list string)) : Prop :=
  forall c kws kw, In (c, kws) table -> In kw kws -> Str.toLowerCase kw = kw.

(** ** The estimators *)

(** The base record a name stands for: its own row of [baseQuantities]
    under the lower-cased name, or [defaultQuantity]. *)
Definition base_of (ingredient : string) : Base.t :=
  match JS.own baseQuantities (Str.toLowerCase ingredient) with
  | Some base => base
  | None => defaultQuantity
  end.

(** The amount [Math.ceil(base * (servings / recipeServings))] of three
    integers, as an integer. *)
Definition scaled_amount (base servings recipeServings : Z) : option Z :=
  Binary64.integer
    (Binary64.ceil
       (Binary64.mul (Binary64.of_Z base)
          (Binary64.div (Binary64.of_Z servings)
                        (Binary64.of_Z recipeServings)))).

(** [ceil(base * servings / recipeServings)] in exact arithmetic. *)
Definition exact_amount (base servings recipeServings : Z) : Z :=
  (base * servings + recipeServings - 1) / recipeServings.

(** The amounts of [baseQuantities] and of the default. *)
Definition base_amounts : list Z := [6; 2; 200; 100; 1; 250; 500].

(** For the given base amount, servings and recipe servings, the amount of
    the code is the exact one, or one more where the exact quotient is an
    integer. *)
Definition amount_close (base servings recipeServings : Z) : bool :=
  match scaled_amount base servings recipeServings with
  | Some z =>
      (z =? exact_amount base servings recipeServings)
      || ((z =? exact_amount base servings recipeServings + 1)
          && ((base * servings) mod recipeServings =? 0))
  | None => false
  end.

Definition amounts_close_up_to (bound : nat) : bool :=
  forallb (fun base =>
             forallb (fun servings =>
                        forallb (fun recipeServings =>
                                   amount_close base (Z.of_nat servings)
                                     (Z.of_nat recipeServings))
                                (seq 1 bound))
                     (seq 1 bound))
          base_amounts.

(** The price a name stands for: its own row of [averagePrices] under the
    lower-cased name, or 2.50. *)
Definition price (ingredient : string) : Q :=
  match JS.own averagePrices (Str.toLowerCase ingredient) with
  | Some p => p
  | None => 5 # 2
  end.

Definition total (names : list string) : Q :=
  fold_right (fun name acc => (price name + acc)%Q) 0%Q names.

(** Rounding to two decimal places, halves up. *)
Definition round2 (x : Q) : Q :=
  (inject_Z (Qfloor (x * 100 + (1 # 2))) / 100)%Q.

(** ** Sorting and buckets *)

(** A consistent comparator: any two elements are comparable, and the
    order it induces is transitive. *)
Definition consistent {A : Type} (compareFn : A -> A -> Z) : Prop :=
  (forall a b, compareFn a b <= 0 \/ compareFn b a <= 0)
  /\ (forall a b c,
        compareFn a b <= 0 -> compareFn b c <= 0 -> compareFn a c <= 0).

Definition before {A : Type} (compareFn : A -> A -> Z) (a b : A) : Prop :=
  compareFn a b <= 0.

(** Every entry of a bucket carries the category of the bucket. *)
Definition well_sorted_buckets (categorized : list (Category * list Entry.t))
  : Prop :=
  forall c bucket e,
    In (c, bucket) categorized -> In e bucket -> Entry.category e = c.

(** ** Aggregation *)

Section Vocabulary.

Variable generateContent : Z -> option Recipe.t.
Variable options : Options.t.

(** The ingredient names of a recipe that pass the exclusion test. *)
Definition kept (recipe : Recipe.t) : list string :=
  filter (fun ingredient =>
            negb (Str.mem (Str.toLowerCase ingredient)
                    (Options.excludeIngredients options)))
         (Recipe.ingredients recipe).

(** The recipes the model answers with, in the order of the identifiers. *)
Definition fetched (recipeIds : list Z) : list Recipe.t :=
  flat_map (fun recipeId =>
              match generateContent recipeId with
              | Some recipe => [recipe]
              | None => []
              end) recipeIds.

(** Every kept ingredient occurrence, in processing order. *)
Definition occurrences (recipes : list Recipe.t)
  : list (string * Recipe.t) :=
  flat_map (fun recipe => map (fun i => (i, recipe)) (kept recipe)) recipes.

(** The entry created when [recipe] introduces [ingredient]. *)
Definition fresh (ingredient : string) (recipe : Recipe.t) : Entry.t :=
  let quantity :=
    calculateIngredientQuantity ingredient
      (servingMultiplier options recipe) in
  Entry.make ingredient (Quantity.amount quantity) (Quantity.unit quantity)
    (categorizeIngredient ingredient) [] (Quantity.notes quantity).

Definition append_refs (e : Entry.t) (refs : list RecipeRef.t) : Entry.t :=
  Entry.make (Entry.name e) (Entry.quantity e) (Entry.unit e)
    (Entry.category e) (Entry.recipes e ++ refs) (Entry.notes e).

Definition lists (key : string) (occ : string * Recipe.t) : bool :=
  String.eqb key (fst occ).

(** The references pushed for [key] over a run of occurrences. *)
Definition refs_of (key : string) (occs : list (string * Recipe.t))
  : list RecipeRef.t :=
  map (fun occ => recipeRef (snd occ)) (filter (lists key) occs).

(** The recipe of the first occurrence of [key]. *)
Definition introducer (key : string) (occs : list (string * Recipe.t))
  : option Recipe.t :=
  option_map snd (find (lists key) occs).

Definition record (ingredients : JS.object Entry.t)
    (occ : string * Recipe.t) : result (JS.object Entry.t) :=
  addIngredient options (snd occ) ingredients (fst occ).

Definition not_excluded (occ : string * Recipe.t) : Prop :=
  Str.mem (Str.toLowerCase (fst occ)) (Options.excludeIngredients options)
  = false.

(** What a run of kept occurrences has made of a key. *)
Definition history (o : JS.object Entry.t)
    (occs : list (string * Recipe.t)) (key : string) : option Entry.t :=
  match JS.own o key with
  | Some e => Some (append_refs e (refs_of key occs))
  | None =>
      match introducer key occs with
      | Some r => Some (append_refs (fresh key r) (refs_of key occs))
      | None => None
      end
  end.

Definition listed (recipe : Recipe.t) : Listed.t :=
  Listed.make (Recipe.id recipe) (Recipe.name recipe)
    (listedServings options recipe) (Recipe.cookingTime recipe).

Definition resolves (recipeId : Z) : Prop :=
  generateContent recipeId <> None.

Definition names_of (bucket : list Entry.t) : list string :=
  map Entry.name bucket.

(** The names of all buckets, bucket after bucket. *)
Definition bucket_names (categorized : list (Category * list Entry.t))
  : list string :=
  flat_map (fun cb => names_of (snd cb)) categorized.

(** [recipe] with every occurrence of [ingredient] struck out. *)
Definition without (ingredient : string) (recipe : Recipe.t) : Recipe.t :=
  Recipe.make (Recipe.id recipe) (Recipe.name recipe)
    (Recipe.servings recipe) (Recipe.cookingTime recipe)
    (filter (fun i => negb (String.eqb i ingredient))
            (Recipe.ingredients recipe)).

Definition stripped (ingredient : string) (recipeId : Z) : option Recipe.t :=
  option_map (without ingredient) (generateContent recipeId).

(** The references one recipe contributes to [key]: one for each kept
    occurrence of [key] in its ingredient list. *)
Definition contribution (key : string) (recipe : Recipe.t)
  : list RecipeRef.t :=
  repeat (recipeRef recipe) (count_occ string_dec (kept recipe) key).

(** No kept ingredient name of the recipe is inherited from
    [Object.prototype]. *)
Definition regular_recipe (recipe : Recipe.t) : Prop :=
  forall key, In key (kept recipe) -> JS.inherited key = false.

End Vocabulary.

(** ** Scenarios *)

(** Omelet and Toast with default options. *)
Definition scenario_list : GroceryList.t :=
  Eval vm_compute in
    match Scenario.run [1; 2] Options.default with
    | inr groceryList => groceryList
    | inl _ => emptyGroceryList []
    end.

Definition butter_entry : Entry.t :=
  Eval vm_compute in
    match JS.own (GroceryList.ingredients scenario_list) "butter" with
    | Some e => e
    | None => Entry.make "" Binary64.NaN None other [] None
    end.

(** Omelet and Toast without butter. *)
Definition no_butter : Options.t := Options.make None ["butter"].

Definition no_butter_list : GroceryList.t :=
  Eval vm_compute in
    match Scenario.run [1; 2] no_butter with
    | inr groceryList => groceryList
    | inl _ => emptyGroceryList []
    end.

(** Recipes that list a name twice. *)
Module Twice.

Definition omelet : Recipe.t :=
  Recipe.make 1 "Omelet" 2 10 ["eggs"; "eggs"].

Definition scramble : Recipe.t :=
  Recipe.make 2 "Scramble" 2 5 ["eggs"].

Definition generateContent (recipeId : Z) : option Recipe.t :=
  if recipeId =? 1 then Some omelet
  else if recipeId =? 2 then Some scramble
  else None.

Definition run (recipeIds : RecipeIds) : result GroceryList.t :=
  generateGroceryList generateContent Scenario.localeCompare recipeIds
    Options.default.

End Twice.

(** ** Two statements, as the specification words them *)

(** The wording of the specification: whenever two recipes share an
    ingredient, its entry lists two recipes. *)
Definition shared_ingredient_lists_two : Prop :=
  forall generateContent localeCompare options recipeIds groceryList
         r1 r2 key e,
    generateGroceryList generateContent localeCompare recipeIds options
    = inr groceryList ->
    fetched generateContent (normalize recipeIds) = [r1; r2] ->
    In key (kept options r1) ->
    In key (kept options r2) ->
    JS.own (GroceryList.ingredients groceryList) key = Some e ->
    List.length (Entry.recipes e) = 2%nat.

(** The wording of the specification: the list of contributing recipes of
    an entry never holds the same reference twice. *)
Definition contributing_recipes_duplicate_free : Prop :=
  forall generateContent localeCompare options recipeIds groceryList key e,
    generateGroceryList generateContent localeCompare recipeIds options
    = inr groceryList ->
    JS.own (GroceryList.ingredients groceryList) key = Some e ->
    NoDup (Entry.recipes e).

(** ** Further vocabulary *)

(** The names of [l] that are not in [seen], each at its first appearance. *)
Fixpoint new_keys (seen l : list string) : list string :=
  match l with
  | [] => []
  | k :: l' =>
      if Str.mem k seen then new_keys seen l'
      else k :: new_keys (seen ++ [k]) l'
  end.

Definition first_appearance (l : list string) : list string := new_keys [] l.

(** [String(x)] prints the integers from 1 to 500 in decimal. *)
Definition prints_integers (numberToString : Binary64.t -> string) : Prop :=
  forall z, 1 <= z <= 500 ->
            numberToString (Binary64.of_Z z) = template_literal z.

(** A sample [String(x)]: the decimal numeral of a value with no fractional
    part. *)
Definition sample_numberToString (x : Binary64.t) : string :=
  match Binary64.integer x with
  | Some z => template_literal z
  | None => ""
  end.

Definition sample_prints_up_to (bound : nat) : bool :=
  forallb (fun n =>
             String.eqb (sample_numberToString (Binary64.of_Z (Z.of_nat n)))
                        (template_literal (Z.of_nat n)))
          (seq 1 bound).

(** No own key of the object is a name inherited from [Object.prototype]. *)
Definition no_inherited_key {V} (o : JS.object V) : Prop :=
  forall k, In k (map fst o) -> JS.inherited k = false.

(** The error [getRecipeById] throws for an identifier. *)
Definition notFound (recipeId : Z) : Error :=
  AppError ("Recipe with ID " ++ template_literal recipeId ++ " not found")
           404.

(** [recipe.ingredients.includes(key)] *)
Definition is_listed (key : string) (recipe : Recipe.t) : bool :=
  Str.mem key (Recipe.ingredients recipe).

(** A recipe one of whose names lower-cases to a name of
    [Object.prototype]. *)
Module Odd.

Definition recipe : Recipe.t :=
  Recipe.make 7 "Odd" 2 15 ["Constructor"; "eggs"].

Definition generateContent (recipeId : Z) : option Recipe.t :=
  if recipeId =? 7 then Some recipe else None.

Definition groceryList : GroceryList.t :=
  Eval vm_compute in
    match generateGroceryList generateContent Scenario.localeCompare
            (Single 7) Options.default with
    | inr groceryList => groceryList
    | inl _ => emptyGroceryList []
    end.

End Odd.

(** ** Vocabulary of the recipe service *)

(** The two names are values of one row of [synonyms]. *)
Definition synonymous (a b : string) : bool :=
  existsb (fun entry => Str.mem a (snd entry) && Str.mem b (snd entry))
          (JS.entries synonyms).

(** The ingredients of a recipe, [recipe.ingredients || []]. *)
Definition ingredients_of (recipe : RecipeData.t) : list string :=
  match RecipeData.ingredients recipe with
  | Some ingredients => ingredients
  | None => []
  end.

(** Some available ingredient matches the ingredient. *)
Definition available_for (availableIngredients : list string)
    (ingredient : string) : bool :=
  existsb (fun available => matches available ingredient)
          availableIngredients.

(** The order of the search results: a higher score first, and for equal
    scores the lower number first. *)
Definition ranked_before (a b : Found.t) : Prop :=
  (Found.matchScore b < Found.matchScore a)%nat
  \/ (Found.matchScore b = Found.matchScore a
      /\ RecipeData.id (Found.recipe a) < RecipeData.id (Found.recipe b)).

(** The percentage [100 * score / total] in exact arithmetic, rounded to the
    nearest integer, halves up. *)
Definition exact_percentage (score total : nat) : Z :=
  (200 * Z.of_nat score + Z.of_nat total) / (2 * Z.of_nat total).

(** [Double.percentage] agrees with [exact_percentage] for every score up
    to [total]. *)
Definition percentage_exact_at (total : nat) : bool :=
  forallb (fun score =>
             match Double.percentage score total with
             | Some p => p =? exact_percentage score total
             | None => false
             end)
          (seq 0 (S total)).

Definition percentage_exact_up_to (bound : nat) : bool :=
  forallb percentage_exact_at (seq 1 bound).

(** A sample model answer: three recipes, the second with no
    [ingredients]. *)
Module Kitchen.

Definition salad : RecipeData.t :=
  RecipeData.make 40 "Tomato Salad" "Tomatoes and onion" 5 2 "easy" "Greek"
    (Some ["Tomatoes"; "onion"; "feta"])
    (NutritionalInfo.make 150 "3g" "10g" "9g") ["vegetarian"] (9 # 2) "".

Definition mystery : RecipeData.t :=
  RecipeData.make 41 "Mystery" "No ingredients given" 5 2 "easy" "Fusion"
    None (NutritionalInfo.make 0 "0g" "0g" "0g") [] (3 # 1) "".

Definition pizza : RecipeData.t :=
  RecipeData.make 42 "Pizza" "Cheese pizza" 25 4 "medium" "Italian"
    (Some ["mozzarella"; "tomato"; "flour"; "olive oil"])
    (NutritionalInfo.make 700 "30g" "80g" "25g") ["dinner"] (19 # 4) "".

Definition available : list string := ["tomato"; "cheddar"; "oil"].

Definition generateRecipes (availableIngredients : list string)
    (limit : option Z) : option (list RecipeData.t) :=
  match limit with
  | Some _ => Some [salad; mystery; pizza]
  | None => None
  end.

(** A sample [encodeURIComponent]: spaces become "%20". *)
Fixpoint encodeURIComponent (s : string) : string :=
  match s with
  | EmptyString => EmptyString
  | String c rest =>
      if Ascii.eqb c " " then "%20" ++ encodeURIComponent rest
      else String c (encodeURIComponent rest)
  end.

End Kitchen.

(** The formats of Omelet and Toast with default options, for the sample
    [String(x)]. *)
Definition scenario_formats : Formats.t :=
  Eval vm_compute in
    Formats.make scenario_list
      (createSimpleList sample_numberToString scenario_list)
      (createChecklist sample_numberToString scenario_list)
      (GroceryList.categorizedIngredients scenario_list).

(** A sample [parseInt]: it reads decimal numerals. *)
Definition sample_parseInt (s : string) : option Z :=
  if String.eqb s "" then None
  else option_map Z.of_int (NilZero.int_of_string s).

(** No comma occurs in the string. *)
Fixpoint comma_free (s : string) : bool :=
  match s with
  | EmptyString => true
  | String c rest => negb (Ascii.eqb c ",") && comma_free rest
  end.

(** [items.join(',')] *)
Definition join_comma (items : list string) : string :=
  String.concat "," items.

(** Omelet and Toast for six servings. *)
Definition six_servings : Options.t := Options.make (Some 6) [].

Definition six_servings_list : GroceryList.t :=
  Eval vm_compute in
    match Scenario.run [1; 2] six_servings with
    | inr groceryList => groceryList
    | inl _ => emptyGroceryList []
    end.

Definition six_servings_butter : Entry.t :=
  Eval vm_compute in
    match JS.own (GroceryList.ingredients six_servings_list) "butter" with
    | Some e => e
    | None => Entry.make "" Binary64.NaN None other [] None
    end.

(** * Properties *)

(** ** Strings *)

Lemma prefix_iff (sub s : string) :
  String.prefix sub s = true <-> exists q, s = sub ++ q.
Proof.
  revert s; induction sub as [|c sub IH]; intros s; simpl.
  - split; [intros _; exists s; reflexivity | destruct s; reflexivity].
  - destruct s as [|d s]; simpl.
    + split; [discriminate | intros [q Hq]; discriminate].
    + destruct (ascii_dec c d) as [->|Hcd].
      * rewrite IH. split; intros [q Hq]; exists q; congruence.
      * split; [discriminate | intros [q Hq]; congruence].
Qed.

Lemma includes_unfold (s sub : string) :
  Str.includes s sub =
  if String.prefix sub s then true
  else match s with
       | EmptyString => false
       | String _ s' => Str.includes s' sub
       end.
Proof. destruct s; reflexivity. Qed.

Lemma includes_iff (s sub : string) :
  Str.includes s sub = true <-> Str.substring_of sub s.
Proof.
  unfold Str.substring_of.
  induction s as [|c s IH]; rewrite includes_unfold.
  - destruct (String.prefix sub "") eqn:Hp.
    + split; [intros _|reflexivity].
      apply prefix_iff in Hp as [q Hq]. exists "", q. exact Hq.
    + split; [discriminate|].
      intros ([|d p] & q & Hq); simpl in Hq; [|discriminate].
      assert (String.prefix sub "" = true) by (apply prefix_iff; eauto).
      congruence.
  - destruct (String.prefix sub (String c s)) eqn:Hp.
    + split; [intros _|reflexivity].
      apply prefix_iff in Hp as [q Hq]. exists "", q. exact Hq.
    + rewrite IH. split.
      * intros (p & q & ->). exists (String c p), q. reflexivity.
      * intros ([|d p] & q & Hq); simpl in Hq.
        -- assert (String.prefix sub (String c s) = true)
             by (apply prefix_iff; eauto).
           congruence.
        -- exists p, q. congruence.
Qed.

Lemma mem_iff (x : string) (arr : list string) :
  Str.mem x arr = true <-> In x arr.
Proof.
  unfold Str.mem. rewrite existsb_exists. split.
  - intros (y & Hy & Heq). apply String.eqb_eq in Heq. congruence.
  - intros Hx. exists x. split; [exact Hx | apply String.eqb_refl].
Qed.

(** ** The categorizer *)

Lemma ingredientCategories_lowercase : lowercase_table ingredientCategories.
Proof.
  intros c kws kw Hc Hkw. simpl in Hc.
  repeat (destruct Hc as [Hc|Hc];
          [inversion Hc; subst; clear Hc; simpl in Hkw;
           repeat (destruct Hkw as [<-|Hkw]; [reflexivity|]); contradiction|]).
  contradiction.
Qed.

Lemma partial_match_iff (ingredient keyword : string) :
  Str.toLowerCase keyword = keyword ->
  partial_match (Str.toLowerCase ingredient) keyword = true
  <-> (ci_substring keyword ingredient \/ ci_substring ingredient keyword).
Proof.
  intros Hlow. unfold partial_match, ci_substring.
  rewrite orb_true_iff, !includes_iff, Hlow. reflexivity.
Qed.

Lemma some_keyword_iff (ingredient : string) (keywords : list string) :
  (forall kw, In kw keywords -> Str.toLowerCase kw = kw) ->
  existsb (partial_match (Str.toLowerCase ingredient)) keywords = true
  <-> category_matches ingredient keywords.
Proof.
  intros Hlow. rewrite existsb_exists. unfold category_matches.
  split; intros (kw & Hin & Hm); exists kw; split; trivial;
    apply (partial_match_iff ingredient kw (Hlow kw Hin)); exact Hm.
Qed.

Lemma first_category_hit (table pre post : list (Category * list string))
    (c : Category) (kws : list string) (ingredient : string) :
  lowercase_table table ->
  table = (pre ++ (c, kws) :: post)%list ->
  category_matches ingredient kws ->
  (forall c' kws', In (c', kws') pre -> ~ category_matches ingredient kws') ->
  first_category table (Str.toLowerCase ingredient) = c.
Proof.
  intros Hlow -> Hhit. induction pre as [|[c0 kws0] pre IH]; intros Hmiss.
  - simpl.
    assert (H : existsb (partial_match (Str.toLowerCase ingredient)) kws = true).
    { apply some_keyword_iff; [|exact Hhit].
      intros kw Hkw. apply (Hlow c kws kw); [left; reflexivity | exact Hkw]. }
    now rewrite H.
  - simpl.
    destruct (existsb (partial_match (Str.toLowerCase ingredient)) kws0) eqn:E.
    + exfalso. apply (Hmiss c0 kws0); [left; reflexivity|].
      apply some_keyword_iff; [|exact E].
      intros kw Hkw. apply (Hlow c0 kws0 kw); [left; reflexivity | exact Hkw].
    + apply IH.
      * intros c' kws' kw Hc' Hkw. apply (Hlow c' kws' kw); [right|]; assumption.
      * intros c' kws' Hin. apply (Hmiss c' kws'). right. exact Hin.
Qed.

Lemma first_category_miss (table : list (Category * list string))
    (ingredient : string) :
  lowercase_table table ->
  (forall c kws, In (c, kws) table -> ~ category_matches ingredient kws) ->
  first_category table (Str.toLowerCase ingredient) = other.
Proof.
  induction table as [|[c0 kws0] table IH]; intros Hlow Hmiss; simpl.
  - reflexivity.
  - destruct (existsb (partial_match (Str.toLowerCase ingredient)) kws0) eqn:E.
    + exfalso. apply (Hmiss c0 kws0); [left; reflexivity|].
      apply some_keyword_iff; [|exact E].
      intros kw Hkw. apply (Hlow c0 kws0 kw); [left; reflexivity | exact Hkw].
    + apply IH.
      * intros c' kws' kw Hc' Hkw. apply (Hlow c' kws' kw); [right|]; assumption.
      * intros c' kws' Hin. apply (Hmiss c' kws'). right. exact Hin.
Qed.

(** The result is never a category that comes after a matching one. *)
Lemma first_category_not_later (table pre post : list (Category * list string))
    (c : Category) (kws : list string) (ingredient : string) :
  lowercase_table table ->
  table = (pre ++ (c, kws) :: post)%list ->
  category_matches ingredient kws ->
  In (first_category table (Str.toLowerCase ingredient))
     (map fst pre ++ [c])%list.
Proof.
  intros Hlow -> Hhit. induction pre as [|[c0 kws0] pre IH]; simpl.
  - assert (H : existsb (partial_match (Str.toLowerCase ingredient)) kws = true).
    { apply some_keyword_iff; [|exact Hhit].
      intros kw Hkw. apply (Hlow c kws kw); [left; reflexivity | exact Hkw]. }
    rewrite H. left; reflexivity.
  - destruct (existsb (partial_match (Str.toLowerCase ingredient)) kws0).
    + left; reflexivity.
    + right. apply IH.
      intros c' kws' kw Hc' Hkw. apply (Hlow c' kws' kw); [right|]; assumption.
Qed.

(** C6.  The categories are tried in the order produce, dairy, protein,
    pantry, bread, condiments.  [categorizeIngredient] returns the first of
    them one of whose keywords is a case-insensitive substring of the
    ingredient name, or has the ingredient name as a case-insensitive
    substring; it returns [other] when no category matches. *)
Theorem categorizeIngredient_first_match (ingredient : string) :
  map fst ingredientCategories
  = [produce; dairy; protein; pantry; bread; condiments]
  /\ (forall pre c keywords post,
         ingredientCategories = (pre ++ (c, keywords) :: post)%list ->
         category_matches ingredient keywords ->
         (forall c' keywords',
             In (c', keywords') pre -> ~ category_matches ingredient keywords') ->
         categorizeIngredient ingredient = c)
  /\ ((forall c keywords,
          In (c, keywords) ingredientCategories ->
          ~ category_matches ingredient keywords) ->
      categorizeIngredient ingredient = other).
Proof.
  split; [reflexivity|]. split.
  - intros pre c kws post Htable Hhit Hmiss. unfold categorizeIngredient.
    exact (first_category_hit _ pre post c kws ingredient
             ingredientCategories_lowercase Htable Hhit Hmiss).
  - intros Hmiss. unfold categorizeIngredient.
    exact (first_category_miss _ ingredient
             ingredientCategories_lowercase Hmiss).
Qed.

(** "Cherry Tomato" contains the produce keyword "tomato". *)
Lemma categorizeIngredient_first_match_witness :
  categorizeIngredient "Cherry Tomato" = produce.
Proof.
  apply (proj1 (proj2 (categorizeIngredient_first_match "Cherry Tomato"))
           [] produce
           ["tomato"; "onion"; "garlic"; "basil"; "herbs"; "bell pepper";
            "lettuce"; "cucumber"]
           (tl ingredientCategories)).
  - reflexivity.
  - exists "tomato". split; [left; reflexivity|].
    left. exists "cherry ", "". reflexivity.
  - intros c' kws' [].
Defined.

(** C10.  The empty ingredient name is categorized as [produce], not as
    [other]: the empty string is a substring of every keyword, so the first
    category wins.  More generally, a name that is a substring of a keyword
    of some category is never given a later category nor [other], even when
    it matches a later one ("pepper" is a pantry keyword, yet it is produce
    because of "bell pepper"); it is given that very category when no
    earlier one matches. *)
Theorem categorizeIngredient_substring_of_keyword :
  categorizeIngredient "" = produce
  /\ categorizeIngredient "pepper" = produce
  /\ (forall ingredient pre c keywords post keyword,
         ingredientCategories = (pre ++ (c, keywords) :: post)%list ->
         In keyword keywords ->
         Str.includes keyword (Str.toLowerCase ingredient) = true ->
         In (categorizeIngredient ingredient) (map fst pre ++ [c])%list
         /\ ((forall c' keywords',
                 In (c', keywords') pre ->
                 ~ category_matches ingredient keywords') ->
             categorizeIngredient ingredient = c)).
Proof.
  split; [reflexivity|]. split; [reflexivity|].
  intros ingredient pre c kws post kw Htable Hkw Hsub.
  assert (Hlow : Str.toLowerCase kw = kw).
  { apply (ingredientCategories_lowercase c kws kw); [|exact Hkw].
    rewrite Htable. apply in_elt. }
  assert (Hhit : category_matches ingredient kws).
  { exists kw. split; [exact Hkw|]. right.
    unfold ci_substring. rewrite Hlow. apply includes_iff. exact Hsub. }
  split.
  - exact (first_category_not_later _ pre post c kws ingredient
             ingredientCategories_lowercase Htable Hhit).
  - intros Hmiss.
    exact (first_category_hit _ pre post c kws ingredient
             ingredientCategories_lowercase Htable Hhit Hmiss).
Qed.

(** "Ric" is, up to case, a substring of the pantry keyword "rice". *)
Lemma categorizeIngredient_substring_of_keyword_witness :
  In (categorizeIngredient "Ric") [produce; dairy; protein; pantry].
Proof.
  exact (proj1
           (proj2 (proj2 categorizeIngredient_substring_of_keyword)
              "Ric" (firstn 3 ingredientCategories) pantry
              ["salt"; "pepper"; "olive oil"; "flour"; "sugar"; "pasta"; "rice"]
              (skipn 4 ingredientCategories) "rice"
              eq_refl
              (or_intror (or_intror (or_intror (or_intror (or_intror
                 (or_intror (or_introl eq_refl)))))))
              eq_refl)).
Defined.

(** ** Objects *)

Section ObjectFacts.
Context {V : Type}.

Lemma own_In (o : JS.object V) (key : string) (v : V) :
  JS.own o key = Some v -> In (key, v) o.
Proof.
  induction o as [|[k w] o IH]; simpl; [discriminate|].
  destruct (String.eqb key k) eqn:E.
  - apply String.eqb_eq in E. intros [= ->]. left. now subst.
  - intros H. right. now apply IH.
Qed.

Lemma own_None (o : JS.object V) (key : string) :
  JS.own o key = None <-> ~ In key (map fst o).
Proof.
  induction o as [|[k w] o IH]; simpl; [tauto|].
  destruct (String.eqb key k) eqn:E.
  - apply String.eqb_eq in E. subst. split; [discriminate | tauto].
  - apply String.eqb_neq in E. rewrite IH. split.
    + intros H [H'|H']; [congruence | tauto].
    + tauto.
Qed.

Lemma own_set (o : JS.object V) (key key' : string) (v : V) :
  JS.own (JS.set o key v) key'
  = if String.eqb key' key then Some v else JS.own o key'.
Proof.
  induction o as [|[k w] o IH]; simpl.
  - reflexivity.
  - destruct (String.eqb key k) eqn:E; simpl.
    + apply String.eqb_eq in E. subst k.
      destruct (String.eqb key' key); reflexivity.
    + rewrite IH. destruct (String.eqb key' k) eqn:E'; [|reflexivity].
      apply String.eqb_eq in E'. subst k.
      destruct (String.eqb key' key) eqn:E''; [|reflexivity].
      apply String.eqb_eq in E''. subst.
      rewrite String.eqb_refl in E. discriminate.
Qed.

(** Writing an own property keeps the enumeration; writing a new one
    appends it. *)
Lemma keys_set (o : JS.object V) (key : string) (v : V) :
  map fst (JS.set o key v)
  = match JS.own o key with
    | Some _ => map fst o
    | None => (map fst o ++ [key])%list
    end.
Proof.
  induction o as [|[k w] o IH]; simpl; [reflexivity|].
  destruct (String.eqb key k) eqn:E; simpl; [reflexivity|].
  rewrite IH. destruct (JS.own o key); reflexivity.
Qed.

End ObjectFacts.

(** ** The quantity estimator *)

Lemma base_amount_positive (ingredient : string) :
  1 <= Base.amount (base_of ingredient).
Proof.
  unfold base_of.
  destruct (JS.own baseQuantities (Str.toLowerCase ingredient)) as [b|] eqn:E.
  - apply own_In in E. simpl in E.
    repeat (destruct E as [E|E]; [inversion E; simpl; lia|]). contradiction.
  - simpl. lia.
Qed.

Lemma base_amount_listed (ingredient : string) :
  In (Base.amount (base_of ingredient)) base_amounts.
Proof.
  unfold base_of.
  destruct (JS.own baseQuantities (Str.toLowerCase ingredient)) as [b|] eqn:E.
  - apply own_In in E. simpl in E.
    repeat (destruct E as [E|E]; [inversion E; simpl; tauto|]). contradiction.
  - simpl. tauto.
Qed.

(** For a name whose lower-cased form is not inherited from
    [Object.prototype], the estimator reads the row case-insensitively, falls
    back to the default, and scales the amount only. *)
Lemma calculateIngredientQuantity_regular (ingredient : string)
    (multiplier : Binary64.t) :
  JS.inherited (Str.toLowerCase ingredient) = false ->
  let base := base_of ingredient in
  calculateIngredientQuantity ingredient multiplier
  = Quantity.make
      (Binary64.ceil
         (Binary64.mul (Binary64.of_Z (Base.amount base)) multiplier))
      (Some (Base.unit base)) (Some (Base.notes base)).
Proof.
  intros Hreg base. subst base.
  unfold calculateIngredientQuantity, base_of, JS.get.
  rewrite Hreg.
  now destruct (JS.own baseQuantities (Str.toLowerCase ingredient)).
Qed.

(** The multiplier 1 leaves every base amount as it is. *)
Lemma calculateIngredientQuantity_unscaled (ingredient : string) :
  JS.inherited (Str.toLowerCase ingredient) = false ->
  Quantity.amount (calculateIngredientQuantity ingredient (Binary64.of_Z 1))
  = Binary64.of_Z (Base.amount (base_of ingredient)).
Proof.
  intros Hreg. rewrite (calculateIngredientQuantity_regular _ _ Hreg).
  cbn [Quantity.amount].
  pose proof (base_amount_listed ingredient) as Hin.
  unfold base_amounts in Hin. cbn [In] in Hin.
  repeat (destruct Hin as [<-|Hin]; [vm_compute; reflexivity|]).
  contradiction.
Qed.

(** A recipe for 4 servings requested for 8: the multiplier is 2 and every
    regular name gets twice its base amount. *)
Lemma calculateIngredientQuantity_doubled (ingredient : string)
    (recipe : Recipe.t) (excluded : list string) :
  JS.inherited (Str.toLowerCase ingredient) = false ->
  Recipe.servings recipe = 4%positive ->
  Quantity.amount
    (calculateIngredientQuantity ingredient
       (servingMultiplier (Options.make (Some 8) excluded) recipe))
  = Binary64.of_Z (2 * Base.amount (base_of ingredient))
  /\ exact_amount (Base.amount (base_of ingredient)) 8 4
     = 2 * Base.amount (base_of ingredient).
Proof.
  intros Hreg Hs.
  rewrite (calculateIngredientQuantity_regular _ _ Hreg).
  unfold servingMultiplier, Options.servings. rewrite Hs.
  cbn [Quantity.amount Z.eqb].
  pose proof (base_amount_listed ingredient) as Hin.
  unfold base_amounts in Hin. cbn [In] in Hin.
  repeat (destruct Hin as [<-|Hin];
          [split; vm_compute; reflexivity|]).
  contradiction.
Qed.

Lemma amounts_close_up_to_100 : amounts_close_up_to 100 = true.
Proof. vm_compute. reflexivity. Qed.

Lemma amounts_close_in (bound : nat) (base : Z)
    (servings recipeServings : nat) :
  amounts_close_up_to bound = true ->
  In base base_amounts ->
  In servings (seq 1 bound) -> In recipeServings (seq 1 bound) ->
  amount_close base (Z.of_nat servings) (Z.of_nat recipeServings) = true.
Proof.
  intros H Hbase Hs Hr. unfold amounts_close_up_to in H.
  rewrite forallb_forall in H. specialize (H base Hbase).
  rewrite forallb_forall in H. specialize (H servings Hs).
  rewrite forallb_forall in H. exact (H recipeServings Hr).
Qed.

(** For servings and recipe servings from 1 to 100 the amount of the code is
    a positive integer: the exact [ceil(base * servings / recipeServings)],
    or one more where the exact quotient is an integer. *)
Lemma scaled_amount_close (base servings recipeServings : Z) :
  In base base_amounts ->
  1 <= servings <= 100 -> 1 <= recipeServings <= 100 ->
  exists z,
    scaled_amount base servings recipeServings = Some z
    /\ 1 <= z
    /\ exact_amount base servings recipeServings <= z
       <= exact_amount base servings recipeServings + 1
    /\ (z = exact_amount base servings recipeServings + 1 ->
        (base * servings) mod recipeServings = 0).
Proof.
  intros Hbase Hs Hr.
  assert (H : amount_close base (Z.of_nat (Z.to_nat servings))
                (Z.of_nat (Z.to_nat recipeServings)) = true).
  { apply (amounts_close_in 100);
      [exact amounts_close_up_to_100 | exact Hbase
      | apply in_seq; lia | apply in_seq; lia]. }
  rewrite !Z2Nat.id in H by lia.
  unfold amount_close in H.
  destruct (scaled_amount base servings recipeServings) as [z|];
    [|discriminate H].
  exists z. split; [reflexivity|].
  assert (Hexact : 1 <= exact_amount base servings recipeServings).
  { unfold exact_amount. apply Z.div_le_lower_bound; [lia|].
    assert (1 <= base).
    { unfold base_amounts in Hbase. cbn [In] in Hbase.
      repeat (destruct Hbase as [<-|Hbase]; [lia|]). contradiction. }
    nia. }
  apply orb_true_iff in H as [H|H].
  - apply Z.eqb_eq in H. subst z. repeat split; lia.
  - apply andb_true_iff in H as [H1 H2].
    apply Z.eqb_eq in H1. apply Z.eqb_eq in H2. subst z.
    repeat split; (lia || (intros _; exact H2)).
Qed.

(** Butter (100 g) for 11 servings of a recipe for 10: binary64 gives
    110.00000000000001 and the amount is 111, where the exact product is 110;
    for 8 servings of a recipe for 4 both give 200. *)
Example butter_for_eleven :
  scaled_amount 100 11 10 = Some 111
  /\ exact_amount 100 11 10 = 110
  /\ scaled_amount 100 8 4 = Some 200.
Proof. repeat split. Qed.

(** C5 (the code departs from it).  The lookup
    [baseQuantities[ingredient.toLowerCase()]] also finds what an object
    literal inherits: for "Constructor" it yields [Object], which is truthy,
    so the default is not used and the estimator returns
    [{ amount: NaN, unit: undefined, notes: undefined }] instead of
    [{ 1, "item", "Check recipe for specific amount" }].  A recipe that
    lists "Constructor" gets an entry whose quantity is [NaN]. *)
Theorem calculateIngredientQuantity_inherited_name :
  calculateIngredientQuantity "Constructor" (Binary64.of_Z 1)
  = Quantity.make Binary64.NaN None None
  /\ JS.own baseQuantities (Str.toLowerCase "Constructor") = None
  /\ exists groceryList e,
      generateGroceryList
        (fun _ => Some (Recipe.make 1 "Salad" 2 10 ["Constructor"]))
        Scenario.localeCompare (Single 1) Options.default
      = inr groceryList
      /\ JS.own (GroceryList.ingredients groceryList) "Constructor" = Some e
      /\ Entry.quantity e = Binary64.NaN.
Proof.
  split; [reflexivity|]. split; [reflexivity|].
  do 2 eexists. repeat split.
Qed.

(** ** The cost estimator *)

Lemma averagePrices_rows (key : string) (p : Q) :
  JS.own averagePrices key = Some p ->
  Qeq_bool p 0 = false /\ exists z, (p == z # 2)%Q.
Proof.
  intros E. apply own_In in E. simpl in E.
  repeat (destruct E as [E|E];
          [inversion E; subst; split; [reflexivity|];
           match goal with
           | |- exists z, (?r == _)%Q =>
               exists (Qnum r * 2 / Zpos (Qden r)); reflexivity
           end|]).
  contradiction.
Qed.

Lemma price_or_default_regular (ingredient : string) :
  JS.inherited (Str.toLowerCase ingredient) = false ->
  price_or_default (JS.get averagePrices (Str.toLowerCase ingredient))
  = JS.Num (price ingredient).
Proof.
  intros Hreg. unfold JS.get, price. rewrite Hreg.
  destruct (JS.own averagePrices (Str.toLowerCase ingredient)) as [p|] eqn:E.
  - destruct (averagePrices_rows _ _ E) as [Hnz _]. simpl. now rewrite Hnz.
  - reflexivity.
Qed.

Lemma price_half_integer (ingredient : string) :
  exists z, (price ingredient == z # 2)%Q.
Proof.
  unfold price.
  destruct (JS.own averagePrices (Str.toLowerCase ingredient)) as [p|] eqn:E.
  - exact (proj2 (averagePrices_rows _ _ E)).
  - exists 5. reflexivity.
Qed.

Lemma total_half_integer (names : list string) :
  exists z, (total names == z # 2)%Q.
Proof.
  induction names as [|n names [z IH]]; simpl.
  - exists 0. reflexivity.
  - destruct (price_half_integer n) as [y Hy]. exists (y + z).
    rewrite Hy, IH. unfold Qeq, Qplus. cbn -[Z.mul Z.add]. lia.
Qed.

Lemma round2_half_integer (z : Z) : (round2 (z # 2) == z # 2)%Q.
Proof.
  unfold round2.
  assert (E : Qfloor ((z # 2) * 100 + (1 # 2)) = 50 * z).
  { transitivity (Qfloor ((50 * z * 2 + 1) # 2)).
    - apply Qfloor_comp. unfold Qeq, Qplus, Qmult. cbn -[Z.mul Z.add]. lia.
    - unfold Qfloor. rewrite Z.div_add_l by discriminate.
      change (1 / 2) with 0. lia. }
  rewrite E. unfold Qeq, Qdiv, Qmult, Qinv, inject_Z. cbn -[Z.mul Z.add]. lia.
Qed.

Lemma round2_comp (x y : Q) : (x == y)%Q -> (round2 x == round2 y)%Q.
Proof.
  intros H. unfold round2.
  assert (E : Qfloor (x * 100 + (1 # 2)) = Qfloor (y * 100 + (1 # 2)))
    by (apply Qfloor_comp; now rewrite H).
  now rewrite E.
Qed.

Lemma sum_prices (names : list string) (a : Q) :
  (forall k, In k names -> JS.inherited (Str.toLowerCase k) = false) ->
  exists c,
    fold_left
      (fun totalCost ingredient =>
         JS.add totalCost
           (price_or_default
              (JS.get averagePrices (Str.toLowerCase ingredient))))
      names (JS.Num a) = JS.Num c
    /\ (c == a + total names)%Q.
Proof.
  revert a; induction names as [|n names IH]; intros a Hreg; simpl.
  - exists a. split; [reflexivity|]. now rewrite Qplus_0_r.
  - rewrite price_or_default_regular by (apply Hreg; left; reflexivity).
    cbn -[Qred Qplus].
    destruct (IH (Qred (a + price n))) as (c & Hc & Hsum).
    { intros k Hk. apply Hreg. right. exact Hk. }
    exists c. split; [exact Hc|].
    rewrite Hsum, Qred_correct. symmetry. apply Qplus_assoc.
Qed.

(** As long as no lower-cased key is inherited from [Object.prototype], the
    estimate is the sum of the prices, with 2.50 for the names that have no
    row, rounded to two decimals; the sum is a multiple of 0.5, so that the
    rounding leaves it as it is. *)
Lemma estimateTotalCost_regular {V} (ingredients : JS.object V) :
  (forall k, In k (JS.keys ingredients) ->
             JS.inherited (Str.toLowerCase k) = false) ->
  exists c,
    estimateTotalCost ingredients = JS.Num c
    /\ (c == round2 (total (JS.keys ingredients)))%Q
    /\ (c == total (JS.keys ingredients))%Q.
Proof.
  intros Hreg. unfold estimateTotalCost.
  destruct (sum_prices (JS.keys ingredients) 0 Hreg) as (c & Hc & Hsum).
  change (JS.of_Z 0) with (JS.Num 0). rewrite Hc.
  cbn -[Qred Qplus Qmult Qdiv Qfloor inject_Z].
  eexists. split; [reflexivity|].
  rewrite Qplus_0_l in Hsum.
  assert (E : (Qred (inject_Z (Qfloor (Qred (c * inject_Z 100) + (1 # 2)))
                     / inject_Z 100)
               == round2 (total (JS.keys ingredients)))%Q).
  { rewrite Qred_correct. unfold round2.
    assert (F : Qfloor (Qred (c * inject_Z 100) + (1 # 2))
                = Qfloor (total (JS.keys ingredients) * 100 + (1 # 2))).
    { apply Qfloor_comp. rewrite Qred_correct, Hsum. reflexivity. }
    rewrite F. reflexivity. }
  split; [exact E|].
  rewrite E. destruct (total_half_integer (JS.keys ingredients)) as [z Hz].
  rewrite (round2_comp _ _ Hz), round2_half_integer. symmetry. exact Hz.
Qed.

Example estimateTotalCost_empty :
  estimateTotalCost (V := Entry.t) [] = JS.Num 0.
Proof. reflexivity. Qed.

Example estimateTotalCost_unknown_item (entry : Entry.t) :
  estimateTotalCost [("unknown-item", entry)] = JS.Num (5 # 2).
Proof. reflexivity. Qed.

(** C8 (the code departs from it).  The lookup
    [averagePrices[ingredient.toLowerCase()]] also finds what an object
    literal inherits: for the key "Constructor" it yields [Object], which is
    truthy, so 2.50 is not used; [totalCost += Object] makes [totalCost] a
    string and the estimate is [NaN].  A recipe that lists "Constructor"
    gets a grocery list whose [estimatedCost] is [NaN]. *)
Theorem estimateTotalCost_inherited_name :
  (forall entry : Entry.t,
      estimateTotalCost [("Constructor", entry)] = JS.NaN)
  /\ JS.own averagePrices (Str.toLowerCase "Constructor") = None
  /\ exists groceryList,
      generateGroceryList
        (fun _ => Some (Recipe.make 1 "Salad" 2 10 ["Constructor"]))
        Scenario.localeCompare (Single 1) Options.default
      = inr groceryList
      /\ Summary.estimatedCost (GroceryList.summary groceryList) = JS.NaN.
Proof.
  split; [reflexivity|]. split; [reflexivity|].
  eexists. split; reflexivity.
Qed.

(** ** Loops *)

Lemma NoDup_app_cons_end {A} (l : list A) (a : A) :
  NoDup l -> ~ In a l -> NoDup (l ++ [a]).
Proof.
  intros Hnd Hnin. induction Hnd as [|x l Hx Hnd IH]; simpl.
  - constructor; [tauto | constructor].
  - constructor.
    + rewrite in_app_iff. simpl. intros [H|[H|[]]]; [tauto|].
      subst. apply Hnin. left. reflexivity.
    + apply IH. intros H. apply Hnin. right. exact H.
Qed.

Lemma for_of_app {A S} (xs ys : list A) (body : S -> A -> result S) (s : S) :
  for_of (xs ++ ys)%list body s = (s' <- for_of xs body s ;; for_of ys body s').
Proof.
  revert s; induction xs as [|x xs IH]; intros s; simpl; [reflexivity|].
  destruct (body s x) as [e|s1]; simpl; [reflexivity | apply IH].
Qed.

Lemma for_of_ext {A S} (xs : list A) (body body' : S -> A -> result S) (s : S) :
  (forall s x, body s x = body' s x) ->
  for_of xs body s = for_of xs body' s.
Proof.
  intros Hext. revert s; induction xs as [|x xs IH]; intros s; simpl;
    [reflexivity|].
  rewrite Hext. destruct (body' s x); simpl; [reflexivity | apply IH].
Qed.

(** ** Sorting and enumeration *)

Section SortFacts.
Context {A : Type} (compareFn : A -> A -> Z).

Local Abbreviation consistent := (consistent compareFn).
Local Abbreviation before := (before compareFn).

Lemma insert_perm (a : A) (l : list A) :
  Permutation (JS.insert compareFn a l) (a :: l).
Proof.
  induction l as [|b l IH]; simpl; [reflexivity|].
  destruct (compareFn a b <=? 0); [reflexivity|].
  rewrite IH. apply perm_swap.
Qed.

Lemma sort_perm (l : list A) : Permutation (JS.sort compareFn l) l.
Proof.
  induction l as [|a l IH]; simpl; [reflexivity|].
  rewrite insert_perm. now apply perm_skip.
Qed.

Lemma insert_sorted (a : A) (l : list A) :
  consistent ->
  StronglySorted before l -> StronglySorted before (JS.insert compareFn a l).
Proof.
  intros [Htotal Htrans] Hl. induction Hl as [|b l Hl IH Hb]; simpl.
  - constructor; constructor.
  - destruct (compareFn a b <=? 0) eqn:E.
    + apply Z.leb_le in E. constructor.
      * now constructor.
      * constructor; [exact E|].
        eapply Forall_impl; [|exact Hb]. intros x Hx.
        exact (Htrans a b x E Hx).
    + apply Z.leb_gt in E. constructor; [exact IH|].
      apply (Permutation_Forall (Permutation_sym (insert_perm a l))).
      constructor; [|exact Hb].
      destruct (Htotal a b) as [H|H]; [lia | exact H].
Qed.

Lemma sort_sorted (l : list A) :
  consistent -> StronglySorted before (JS.sort compareFn l).
Proof.
  intros Hc. induction l as [|a l IH]; simpl; [constructor|].
  now apply insert_sorted.
Qed.

End SortFacts.

Lemma filter_split_perm {A} (f : A -> bool) (l : list A) :
  Permutation (filter f l ++ filter (fun a => negb (f a)) l) l.
Proof.
  induction l as [|a l IH]; simpl; [reflexivity|].
  destruct (f a); simpl.
  - now apply perm_skip.
  - rewrite <- Permutation_middle. now apply perm_skip.
Qed.

Lemma entries_perm {V} (o : JS.object V) : Permutation (JS.entries o) o.
Proof.
  unfold JS.entries. rewrite sort_perm. apply filter_split_perm.
Qed.

Lemma keys_perm {V} (o : JS.object V) : Permutation (JS.keys o) (map fst o).
Proof. unfold JS.keys. apply Permutation_map, entries_perm. Qed.

(** ** Category buckets *)

Lemma Category_eqb_eq (a b : Category) : Category_eqb a b = true <-> a = b.
Proof. destruct a, b; simpl; split; congruence. Qed.

Lemma has_category_iff (categorized : list (Category * list Entry.t))
    (c : Category) :
  has_category categorized c = true <-> In c (map fst categorized).
Proof.
  induction categorized as [|[k b] rest IH]; simpl.
  - split; [discriminate | contradiction].
  - rewrite orb_true_iff, Category_eqb_eq, IH. split; intros [H|H]; auto.
Qed.

Lemma push_category_keys (categorized : list (Category * list Entry.t))
    (c : Category) (e : Entry.t) :
  map fst (push_category categorized c e) = map fst categorized.
Proof.
  induction categorized as [|[k b] rest IH]; simpl; [reflexivity|].
  destruct (Category_eqb c k); simpl; [reflexivity | now rewrite IH].
Qed.

Lemma push_category_perm (categorized : list (Category * list Entry.t))
    (c : Category) (e : Entry.t) :
  In c (map fst categorized) ->
  Permutation (flat_map snd (push_category categorized c e))
              (flat_map snd categorized ++ [e]).
Proof.
  induction categorized as [|[k b] rest IH]; simpl; [contradiction|].
  intros Hin. destruct (Category_eqb c k) eqn:E; simpl.
  - rewrite <- !app_assoc. apply Permutation_app_head.
    apply Permutation_app_comm.
  - rewrite <- app_assoc. apply Permutation_app_head. apply IH.
    destruct Hin as [->|Hin]; [|exact Hin].
    assert (Category_eqb c c = true) by now apply Category_eqb_eq.
    congruence.
Qed.

Lemma push_category_sorted (categorized : list (Category * list Entry.t))
    (e : Entry.t) :
  well_sorted_buckets categorized ->
  well_sorted_buckets (push_category categorized (Entry.category e) e).
Proof.
  unfold well_sorted_buckets.
  induction categorized as [|[k b] rest IH]; simpl; intros Hws c bucket x;
    [contradiction|].
  destruct (Category_eqb (Entry.category e) k) eqn:E; simpl.
  - apply Category_eqb_eq in E. intros [[= <- <-]|Hin] Hx.
    + apply in_app_or in Hx as [Hx|[<-|[]]]; [|exact E].
      apply (Hws k b x); [left; reflexivity | exact Hx].
    + apply (Hws c bucket x); [right; exact Hin | exact Hx].
  - intros [[= <- <-]|Hin] Hx.
    + apply (Hws k b x); [left; reflexivity | exact Hx].
    + apply (IH (fun c b e Hc He => Hws c b e (or_intror Hc) He) _ _ _ Hin Hx).
Qed.

Lemma organizeEntry_spec (categorized : list (Category * list Entry.t))
    (entry : string * Entry.t) :
  NoDup (map fst categorized) ->
  well_sorted_buckets categorized ->
  NoDup (map fst (organizeEntry categorized entry))
  /\ well_sorted_buckets (organizeEntry categorized entry)
  /\ Permutation (flat_map snd (organizeEntry categorized entry))
                 (flat_map snd categorized ++ [snd entry]).
Proof.
  intros Hnd Hws. unfold organizeEntry.
  destruct (has_category categorized (Entry.category (snd entry))) eqn:E.
  - apply has_category_iff in E. rewrite push_category_keys.
    split; [exact Hnd|]. split.
    + now apply push_category_sorted.
    + now apply push_category_perm.
  - assert (Hnew : ~ In (Entry.category (snd entry)) (map fst categorized)).
    { intros H. apply has_category_iff in H. congruence. }
    rewrite push_category_keys, map_app. simpl. split; [|split].
    + now apply NoDup_app_cons_end.
    + apply push_category_sorted. intros c bucket e Hin He.
      apply in_app_or in Hin as [Hin|[[= <- <-]|[]]]; [|contradiction].
      exact (Hws c bucket e Hin He).
    + rewrite push_category_perm.
      * rewrite flat_map_app. simpl. now rewrite !app_nil_r.
      * rewrite map_app, in_app_iff. right. left. reflexivity.
Qed.

Lemma organize_fold (entries : list (string * Entry.t))
    (categorized : list (Category * list Entry.t)) :
  NoDup (map fst categorized) ->
  well_sorted_buckets categorized ->
  NoDup (map fst (fold_left organizeEntry entries categorized))
  /\ well_sorted_buckets (fold_left organizeEntry entries categorized)
  /\ Permutation (flat_map snd (fold_left organizeEntry entries categorized))
                 (flat_map snd categorized ++ map snd entries).
Proof.
  revert categorized; induction entries as [|entry entries IH];
    intros categorized Hnd Hws; simpl.
  - rewrite app_nil_r. auto.
  - destruct (organizeEntry_spec categorized entry Hnd Hws)
      as (Hnd1 & Hws1 & Hperm1).
    destruct (IH _ Hnd1 Hws1) as (Hnd2 & Hws2 & Hperm2).
    split; [exact Hnd2|]. split; [exact Hws2|].
    rewrite Hperm2, Hperm1, <- app_assoc. reflexivity.
Qed.

(** Grouping: one bucket per category in use, every value of the object in
    the bucket of its category and nowhere else. *)
Lemma organize_spec (ingredients : JS.object Entry.t) :
  NoDup (map fst (organize ingredients))
  /\ well_sorted_buckets (organize ingredients)
  /\ Permutation (flat_map snd (organize ingredients)) (map snd ingredients).
Proof.
  destruct (organize_fold (JS.entries ingredients) [] (NoDup_nil _))
    as (Hnd & Hws & Hperm).
  { intros c bucket e []. }
  split; [exact Hnd|]. split; [exact Hws|].
  unfold organize. rewrite Hperm. simpl.
  apply Permutation_map, entries_perm.
Qed.

Section SortedBuckets.
Variable localeCompare : string -> string -> Z.

Lemma sortCategories_keys (categorized : list (Category * list Entry.t)) :
  map fst (sortCategories localeCompare categorized) = map fst categorized.
Proof.
  unfold sortCategories. rewrite map_map. reflexivity.
Qed.

Lemma sortCategories_In (categorized : list (Category * list Entry.t))
    (c : Category) (bucket : list Entry.t) :
  In (c, bucket) (sortCategories localeCompare categorized) ->
  exists unsorted,
    In (c, unsorted) categorized
    /\ bucket = JS.sort (byName localeCompare) unsorted.
Proof.
  unfold sortCategories. intros Hin.
  apply in_map_iff in Hin as ([c' b] & [= <- <-] & Hin).
  exists b. split; [exact Hin | reflexivity].
Qed.

Lemma sortCategories_perm (categorized : list (Category * list Entry.t)) :
  Permutation (flat_map snd (sortCategories localeCompare categorized))
              (flat_map snd categorized).
Proof.
  induction categorized as [|[c b] rest IH]; simpl; [reflexivity|].
  apply Permutation_app; [apply sort_perm | exact IH].
Qed.

End SortedBuckets.

Lemma In_own {V} (o : JS.object V) (key : string) (v : V) :
  NoDup (map fst o) -> In (key, v) o -> JS.own o key = Some v.
Proof.
  induction o as [|[k w] o IH]; simpl; intros Hnd Hin; [contradiction|].
  inversion Hnd as [|? ? Hk Hnd']; subst.
  destruct Hin as [[= -> ->]|Hin].
  - now rewrite String.eqb_refl.
  - destruct (String.eqb key k) eqn:E; [|now apply IH].
    apply String.eqb_eq in E. subst k. exfalso. apply Hk.
    apply in_map_iff. exists (key, v). split; [reflexivity | exact Hin].
Qed.

(** In a duplicate-free concatenation an element belongs to one part. *)
Lemma flat_map_unique {A B} (f : A -> list B) (l : list A) (x : B) (a b : A) :
  NoDup (flat_map f l) ->
  In a l -> In b l -> In x (f a) -> In x (f b) -> a = b.
Proof.
  induction l as [|h t IH]; simpl; intros Hnd Ha Hb Hxa Hxb; [contradiction|].
  assert (Hdisj : forall y, In y t -> In x (f h) -> In x (f y) -> False).
  { intros y Hy Hxh Hxy. clear IH.
    induction (f h) as [|z zs IHz]; [contradiction|].
    simpl in Hnd. inversion Hnd as [|? ? Hz Hnd']; subst.
    destruct Hxh as [->|Hxh]; [|exact (IHz Hnd' Hxh)].
    apply Hz, in_or_app. right. apply in_flat_map. exists y. auto. }
  destruct Ha as [<-|Ha], Hb as [<-|Hb].
  - reflexivity.
  - exfalso. exact (Hdisj b Hb Hxa Hxb).
  - exfalso. exact (Hdisj a Ha Hxb Hxa).
  - apply IH; trivial. exact (NoDup_app_remove_l _ _ Hnd).
Qed.

(** ** Aggregation of the ingredients *)

Section Aggregation.

Variable generateContent : Z -> option Recipe.t.
Variable localeCompare : string -> string -> Z.
Variable options : Options.t.

Local Abbreviation kept := (kept options).
Local Abbreviation occurrences := (occurrences options).
Local Abbreviation fresh := (fresh options).
Local Abbreviation record := (record options).
Local Abbreviation not_excluded := (not_excluded options).
Local Abbreviation history := (history options).
Local Abbreviation listed := (listed options).
Local Abbreviation contribution := (contribution options).
Local Abbreviation regular_recipe := (regular_recipe options).
Local Abbreviation fetched := (fetched generateContent).
Local Abbreviation resolves := (resolves generateContent).
Local Abbreviation stripped := (stripped generateContent).

Lemma occurrences_not_excluded (recipes : list Recipe.t) :
  Forall not_excluded (occurrences recipes).
Proof.
  apply Forall_forall. intros [i r] Hin.
  apply in_flat_map in Hin as (r' & _ & Hin).
  apply in_map_iff in Hin as (i' & [= -> ->] & Hin).
  apply filter_In in Hin as [_ Hin]. unfold not_excluded. simpl.
  now apply negb_true_iff.
Qed.

(** The inner loop skips the excluded names. *)
Lemma inner_loop_kept (recipe : Recipe.t) (o : JS.object Entry.t) :
  for_of (Recipe.ingredients recipe) (addIngredient options recipe) o
  = for_of (map (fun i => (i, recipe)) (kept recipe)) record o.
Proof.
  unfold kept. revert o.
  induction (Recipe.ingredients recipe) as [|i l IH]; intros o;
    [reflexivity|].
  simpl.
  destruct (Str.mem (Str.toLowerCase i) (Options.excludeIngredients options))
    eqn:E; simpl.
  - unfold addIngredient at 1. rewrite E. simpl. apply IH.
  - unfold record at 1. simpl.
    destruct (addIngredient options recipe o i); simpl; [reflexivity|].
    apply IH.
Qed.

(** One kept occurrence: the three cases of the loop body. *)
Lemma record_cases (o : JS.object Entry.t) (i : string) (r : Recipe.t) :
  not_excluded (i, r) ->
  record o (i, r)
  = match JS.own o i with
    | Some e => ret (JS.set o i (Entry.push e (recipeRef r)))
    | None =>
        if JS.inherited i then throw TypeError
        else ret (JS.set (JS.set o i (fresh i r)) i
                    (Entry.push (fresh i r) (recipeRef r)))
    end.
Proof.
  unfold not_excluded, record, addIngredient. simpl. intros ->.
  unfold JS.get. destruct (JS.own o i) as [e|] eqn:E; cbv zeta.
  - rewrite E. reflexivity.
  - destruct (JS.inherited i) eqn:Hi.
    + rewrite E. reflexivity.
    + rewrite own_set, String.eqb_refl. reflexivity.
Qed.

Lemma append_refs_nil (e : Entry.t) : append_refs e [] = e.
Proof. destruct e. unfold append_refs. simpl. now rewrite app_nil_r. Qed.

Lemma append_refs_push (e : Entry.t) (ref : RecipeRef.t)
    (refs : list RecipeRef.t) :
  append_refs (Entry.push e ref) refs = append_refs e (ref :: refs).
Proof.
  unfold append_refs, Entry.push. simpl. now rewrite <- app_assoc.
Qed.

Lemma refs_of_cons (key i : string) (r : Recipe.t)
    (occs : list (string * Recipe.t)) :
  refs_of key ((i, r) :: occs)
  = if String.eqb key i then recipeRef r :: refs_of key occs
    else refs_of key occs.
Proof.
  unfold refs_of, lists. simpl. now destruct (String.eqb key i).
Qed.

Lemma introducer_cons (key i : string) (r : Recipe.t)
    (occs : list (string * Recipe.t)) :
  introducer key ((i, r) :: occs)
  = if String.eqb key i then Some r else introducer key occs.
Proof.
  unfold introducer, lists. simpl. now destruct (String.eqb key i).
Qed.

Lemma history_step (o o1 : JS.object Entry.t) (i : string) (r : Recipe.t)
    (occs : list (string * Recipe.t)) (key : string) :
  not_excluded (i, r) ->
  record o (i, r) = inr o1 ->
  history o1 occs key = history o ((i, r) :: occs) key.
Proof.
  intros Hkept Hrun. rewrite (record_cases o i r Hkept) in Hrun.
  unfold history. rewrite refs_of_cons, introducer_cons.
  destruct (JS.own o i) as [e|] eqn:E.
  - injection Hrun as <-. rewrite own_set.
    destruct (String.eqb key i) eqn:K.
    + apply String.eqb_eq in K. subst key. rewrite E. simpl.
      now rewrite append_refs_push.
    + reflexivity.
  - destruct (JS.inherited i); [discriminate|].
    injection Hrun as <-. rewrite !own_set.
    destruct (String.eqb key i) eqn:K.
    + apply String.eqb_eq in K. subst key. rewrite E. simpl.
      now rewrite append_refs_push.
    + reflexivity.
Qed.

(** The ingredients object after a run of kept occurrences. *)
Lemma record_history (occs : list (string * Recipe.t))
    (o o' : JS.object Entry.t) (key : string) :
  Forall not_excluded occs ->
  for_of occs record o = inr o' ->
  JS.own o' key = history o occs key.
Proof.
  revert o; induction occs as [|[i r] occs IH]; intros o Hkept Hrun.
  - injection Hrun as <-. unfold history, refs_of, introducer. simpl.
    destruct (JS.own o key); [|reflexivity]. now rewrite append_refs_nil.
  - inversion Hkept as [|? ? Hhead Htail]; subst.
    simpl in Hrun. destruct (record o (i, r)) as [err|o1] eqn:E;
      [discriminate|].
    simpl in Hrun. rewrite (IH o1 Htail Hrun).
    exact (history_step o o1 i r occs key Hhead E).
Qed.

(** Own keys stay distinct. *)
Lemma record_NoDup (occs : list (string * Recipe.t))
    (o o' : JS.object Entry.t) :
  Forall not_excluded occs ->
  for_of occs record o = inr o' ->
  NoDup (map fst o) -> NoDup (map fst o').
Proof.
  revert o; induction occs as [|[i r] occs IH]; intros o Hkept Hrun Hnd.
  - now injection Hrun as <-.
  - inversion Hkept as [|? ? Hhead Htail]; subst.
    simpl in Hrun. destruct (record o (i, r)) as [err|o1] eqn:E;
      [discriminate|].
    simpl in Hrun. apply (IH o1 Htail Hrun).
    rewrite (record_cases o i r Hhead) in E.
    destruct (JS.own o i) as [e|] eqn:Ho.
    + injection E as <-. now rewrite keys_set, Ho.
    + destruct (JS.inherited i); [discriminate|]. injection E as <-.
      rewrite keys_set, own_set, String.eqb_refl, keys_set, Ho.
      apply NoDup_app_cons_end; [exact Hnd|]. now apply own_None.
Qed.

(** The loop over the identifiers, when it completes. *)
Lemma outer_loop (recipeIds : list Z) (gl gl' : GroceryList.t) :
  for_of recipeIds (processRecipe generateContent options) gl = inr gl' ->
  Forall resolves recipeIds
  /\ for_of (occurrences (fetched recipeIds)) record
       (GroceryList.ingredients gl)
     = inr (GroceryList.ingredients gl')
  /\ GroceryList.recipes gl'
     = (GroceryList.recipes gl ++ map listed (fetched recipeIds))%list
  /\ Summary.totalRecipes (GroceryList.summary gl')
     = Summary.totalRecipes (GroceryList.summary gl)
  /\ Summary.estimatedTime (GroceryList.summary gl')
     = fold_left Z.add (map Recipe.cookingTime (fetched recipeIds))
         (Summary.estimatedTime (GroceryList.summary gl)).
Proof.
  revert gl; induction recipeIds as [|recipeId recipeIds IH]; intros gl Hrun.
  - injection Hrun as <-. simpl. rewrite app_nil_r. auto.
  - simpl in Hrun. unfold processRecipe at 1, getRecipeById in Hrun.
    unfold resolves. simpl fetched.
    destruct (generateContent recipeId) as [recipe|] eqn:G;
      [|discriminate].
    simpl in Hrun. rewrite inner_loop_kept in Hrun.
    destruct (for_of (map (fun i => (i, recipe)) (kept recipe)) record
                (GroceryList.ingredients gl)) as [err|o1] eqn:Hinner;
      [discriminate|].
    simpl in Hrun.
    destruct (IH _ Hrun) as (Hall & Hings & Hrec & Htot & Htime).
    simpl in Hings, Hrec, Htot, Htime.
    split; [|split; [|split; [|split]]].
    + constructor; [congruence | exact Hall].
    + simpl occurrences. rewrite for_of_app, Hinner. exact Hings.
    + rewrite Hrec, <- app_assoc. reflexivity.
    + exact Htot.
    + exact Htime.
Qed.

(** What a successful call returns. *)
Lemma generateGroceryList_returns (recipeIds : RecipeIds)
    (groceryList : GroceryList.t) :
  generateGroceryList generateContent localeCompare recipeIds options
  = inr groceryList ->
  let ingredients := GroceryList.ingredients groceryList in
  let summary := GroceryList.summary groceryList in
  Forall resolves (normalize recipeIds)
  /\ for_of (occurrences (fetched (normalize recipeIds))) record []
     = inr ingredients
  /\ GroceryList.categorizedIngredients groceryList
     = sortCategories localeCompare (organize ingredients)
  /\ GroceryList.recipes groceryList
     = map listed (fetched (normalize recipeIds))
  /\ Summary.totalRecipes summary = List.length (normalize recipeIds)
  /\ Summary.totalIngredients summary = List.length (JS.keys ingredients)
  /\ Summary.estimatedCost summary = estimateTotalCost ingredients
  /\ Summary.estimatedTime summary
     = fold_left Z.add
         (map Recipe.cookingTime (fetched (normalize recipeIds))) 0.
Proof.
  unfold generateGroceryList. intros Hrun.
  destruct (for_of (normalize recipeIds)
              (processRecipe generateContent options)
              (emptyGroceryList (normalize recipeIds))) as [err|gl] eqn:E;
    [discriminate|].
  simpl in Hrun. injection Hrun as <-. simpl.
  destruct (outer_loop _ _ _ E) as (Hall & Hings & Hrec & Htot & Htime).
  simpl in Hings, Hrec, Htot, Htime. auto 10.
Qed.

(** The ingredients of a successful call: distinct keys, each holding the
    history of its name. *)
Lemma generateGroceryList_ingredients (recipeIds : RecipeIds)
    (groceryList : GroceryList.t) :
  generateGroceryList generateContent localeCompare recipeIds options
  = inr groceryList ->
  NoDup (map fst (GroceryList.ingredients groceryList))
  /\ forall key,
      JS.own (GroceryList.ingredients groceryList) key
      = history [] (occurrences (fetched (normalize recipeIds))) key.
Proof.
  intros Hrun.
  destruct (generateGroceryList_returns _ _ Hrun) as (_ & Hings & _).
  split.
  - apply (record_NoDup _ [] _ (occurrences_not_excluded _) Hings).
    constructor.
  - intros key.
    exact (record_history _ [] _ key (occurrences_not_excluded _) Hings).
Qed.

(** Every own key holds an entry of that name. *)
Lemma generateGroceryList_names (recipeIds : RecipeIds)
    (groceryList : GroceryList.t) :
  generateGroceryList generateContent localeCompare recipeIds options
  = inr groceryList ->
  map Entry.name (map snd (GroceryList.ingredients groceryList))
  = map fst (GroceryList.ingredients groceryList).
Proof.
  intros Hrun.
  destruct (generateGroceryList_ingredients _ _ Hrun) as [Hnd Hhist].
  assert (H : forall key e,
             In (key, e) (GroceryList.ingredients groceryList) ->
             Entry.name e = key).
  { intros key e Hin. apply (In_own _ _ _ Hnd) in Hin.
    rewrite Hhist in Hin. unfold history in Hin. simpl in Hin.
    destruct (introducer key _); [|discriminate].
    now injection Hin as <-. }
  clear Hnd Hhist Hrun.
  induction (GroceryList.ingredients groceryList) as [|[k e] o IH];
    [reflexivity|].
  simpl. f_equal.
  - apply H. left. reflexivity.
  - apply IH. intros key e' Hin. apply H. right. exact Hin.
Qed.

Lemma bucket_names_flat (categorized : list (Category * list Entry.t)) :
  bucket_names categorized = map Entry.name (flat_map snd categorized).
Proof.
  unfold bucket_names, names_of.
  induction categorized as [|[c b] rest IH]; simpl; [reflexivity|].
  now rewrite map_app, IH.
Qed.

(** The names found in the buckets are the keys, which are distinct. *)
Lemma bucket_names_keys (recipeIds : RecipeIds)
    (groceryList : GroceryList.t) :
  generateGroceryList generateContent localeCompare recipeIds options
  = inr groceryList ->
  Permutation
    (bucket_names (GroceryList.categorizedIngredients groceryList))
    (JS.keys (GroceryList.ingredients groceryList))
  /\ NoDup (JS.keys (GroceryList.ingredients groceryList))
  /\ NoDup (map fst (GroceryList.categorizedIngredients groceryList)).
Proof.
  intros Hrun.
  destruct (generateGroceryList_returns _ _ Hrun) as (_ & _ & Hcat & _).
  destruct (generateGroceryList_ingredients _ _ Hrun) as [Hnd _].
  pose proof (generateGroceryList_names _ _ Hrun) as Hnames.
  destruct (organize_spec (GroceryList.ingredients groceryList))
    as (Hcats & _ & Hperm).
  split; [|split].
  - rewrite bucket_names_flat, Hcat, sortCategories_perm, Hperm, Hnames.
    symmetry. apply keys_perm.
  - apply (Permutation_NoDup (Permutation_sym (keys_perm _))). exact Hnd.
  - rewrite Hcat, sortCategories_keys. exact Hcats.
Qed.

(** C2.  In a successful result the buckets of [categorizedIngredients]
    partition the ingredients: the names found in the buckets are the keys
    of [ingredients], no name occurs twice, every key lies in exactly one
    bucket, and [summary.totalIngredients] is the number of keys, which are
    distinct. *)
Theorem categorized_partitions_ingredients (recipeIds : RecipeIds)
    (groceryList : GroceryList.t) :
  generateGroceryList generateContent localeCompare recipeIds options
  = inr groceryList ->
  let ingredients := GroceryList.ingredients groceryList in
  let categorized := GroceryList.categorizedIngredients groceryList in
  Permutation (bucket_names categorized) (JS.keys ingredients)
  /\ NoDup (bucket_names categorized)
  /\ NoDup (map fst categorized)
  /\ (forall key,
         In key (JS.keys ingredients) ->
         exists c bucket,
           In (c, bucket) categorized
           /\ In key (names_of bucket)
           /\ forall c' bucket',
               In (c', bucket') categorized ->
               In key (names_of bucket') ->
               (c', bucket') = (c, bucket))
  /\ NoDup (JS.keys ingredients)
  /\ Summary.totalIngredients (GroceryList.summary groceryList)
     = List.length (JS.keys ingredients).
Proof.
  intros Hrun ingredients categorized.
  destruct (generateGroceryList_returns _ _ Hrun)
    as (_ & _ & _ & _ & _ & Htotal & _).
  destruct (bucket_names_keys _ _ Hrun) as (Hall & Hkeys & Hcats).
  fold ingredients in Hall, Hkeys, Htotal. fold categorized in Hall, Hcats.
  assert (Hbn : NoDup (bucket_names categorized)).
  { exact (Permutation_NoDup (Permutation_sym Hall) Hkeys). }
  split; [exact Hall|]. split; [exact Hbn|]. split; [exact Hcats|].
  split; [|split; [exact Hkeys | exact Htotal]].
  intros key Hkey.
  apply (Permutation_in _ (Permutation_sym Hall)) in Hkey.
  apply in_flat_map in Hkey as ([c bucket] & Hin & Hk). simpl in Hk.
  exists c, bucket. split; [exact Hin|]. split; [exact Hk|].
  intros c' bucket' Hin' Hk'.
  exact (flat_map_unique (fun cb => names_of (snd cb)) categorized key
           (c', bucket') (c, bucket) Hbn Hin' Hin Hk' Hk).
Qed.

(** C9, amended.  [localeCompare] is the collation of the host; it is a
    consistent comparator.  In a successful result every bucket of
    [categorizedIngredients] is sorted by [name] under it: every entry
    compares at most 0 with every later one.  Whenever the collation refines
    the order of the lower-cased names, the bucket is sorted in that
    case-insensitive order; the host's collation does not refine it. *)
Theorem buckets_sorted_by_name (recipeIds : RecipeIds)
    (groceryList : GroceryList.t) (c : Category) (bucket : list Entry.t) :
  consistent localeCompare ->
  generateGroceryList generateContent localeCompare recipeIds options
  = inr groceryList ->
  In (c, bucket) (GroceryList.categorizedIngredients groceryList) ->
  StronglySorted
    (fun a b => localeCompare (Entry.name a) (Entry.name b) <= 0) bucket
  /\ ((forall a b,
          localeCompare a b <= 0 ->
          String.leb (Str.toLowerCase a) (Str.toLowerCase b) = true) ->
      StronglySorted
        (fun a b =>
           String.leb (Str.toLowerCase (Entry.name a))
             (Str.toLowerCase (Entry.name b)) = true) bucket).
Proof.
  intros [Htotal Htrans] Hrun Hin.
  destruct (generateGroceryList_returns _ _ Hrun) as (_ & _ & Hcat & _).
  rewrite Hcat in Hin.
  apply sortCategories_In in Hin as (unsorted & _ & ->).
  assert (Hsorted : StronglySorted (before (byName localeCompare))
                      (JS.sort (byName localeCompare) unsorted)).
  { apply sort_sorted. split.
    - intros a b. apply Htotal.
    - intros a b d. apply Htrans. }
  split; [exact Hsorted|].
  intros Hrefines.
  induction Hsorted as [|a l Hl IH Ha]; constructor; [exact IH|].
  eapply Forall_impl; [|exact Ha]. intros b Hb. apply Hrefines. exact Hb.
Qed.

(** *** Exclusion *)

Lemma addIngredient_without (ingredient : string) (recipe : Recipe.t)
    (o : JS.object Entry.t) (i : string) :
  addIngredient options (without ingredient recipe) o i
  = addIngredient options recipe o i.
Proof. reflexivity. Qed.

Lemma inner_loop_without (ingredient : string) (recipe : Recipe.t)
    (o : JS.object Entry.t) :
  Str.mem (Str.toLowerCase ingredient) (Options.excludeIngredients options)
  = true ->
  for_of (Recipe.ingredients (without ingredient recipe))
    (addIngredient options (without ingredient recipe)) o
  = for_of (Recipe.ingredients recipe) (addIngredient options recipe) o.
Proof.
  intros Hex. simpl. revert o.
  induction (Recipe.ingredients recipe) as [|i l IH]; intros o;
    [reflexivity|].
  simpl. destruct (String.eqb i ingredient) eqn:E; simpl.
  - apply String.eqb_eq in E. subst i.
    assert (Hskip : addIngredient options recipe o ingredient = ret o)
      by (unfold addIngredient; now rewrite Hex).
    rewrite Hskip. simpl. apply IH.
  - rewrite addIngredient_without.
    destruct (addIngredient options recipe o i); simpl; [reflexivity|].
    apply IH.
Qed.

Lemma processRecipe_without (ingredient : string) (gl : GroceryList.t)
    (recipeId : Z) :
  Str.mem (Str.toLowerCase ingredient) (Options.excludeIngredients options)
  = true ->
  processRecipe (stripped ingredient) options gl recipeId
  = processRecipe generateContent options gl recipeId.
Proof.
  intros Hex. unfold processRecipe, getRecipeById, stripped.
  destruct (generateContent recipeId) as [recipe|]; [|reflexivity].
  cbn [option_map bind ret].
  rewrite (inner_loop_without ingredient recipe _ Hex). reflexivity.
Qed.

Lemma excluded_never_recorded (key : string)
    (occs : list (string * Recipe.t)) :
  Forall not_excluded occs ->
  Str.mem (Str.toLowerCase key) (Options.excludeIngredients options) = true ->
  introducer key occs = None.
Proof.
  intros Hkept Hex. induction Hkept as [|[i r] occs Hocc _ IH];
    [reflexivity|].
  rewrite introducer_cons. destruct (String.eqb key i) eqn:E; [|exact IH].
  apply String.eqb_eq in E. subst i. unfold not_excluded in Hocc.
  simpl in Hocc. congruence.
Qed.

(** C4.  An ingredient name whose lower-cased form is listed in
    [options.excludeIngredients] is left out of every recipe: the call
    behaves as if no recipe listed it.  A successful result has no entry
    under that name, no bucket holds it, and it is not among the keys that
    [totalIngredients] counts. *)
Theorem excluded_ingredient_omitted (recipeIds : RecipeIds)
    (ingredient : string) :
  In (Str.toLowerCase ingredient) (Options.excludeIngredients options) ->
  generateGroceryList (stripped ingredient) localeCompare recipeIds options
  = generateGroceryList generateContent localeCompare recipeIds options
  /\ forall groceryList,
      generateGroceryList generateContent localeCompare recipeIds options
      = inr groceryList ->
      let ingredients := GroceryList.ingredients groceryList in
      JS.own ingredients ingredient = None
      /\ ~ In ingredient (JS.keys ingredients)
      /\ (forall c bucket,
             In (c, bucket) (GroceryList.categorizedIngredients groceryList) ->
             ~ In ingredient (names_of bucket))
      /\ Summary.totalIngredients (GroceryList.summary groceryList)
         = List.length (JS.keys ingredients).
Proof.
  intros Hex. apply mem_iff in Hex. split.
  - unfold generateGroceryList.
    rewrite (for_of_ext (normalize recipeIds)
               (processRecipe (stripped ingredient) options)
               (processRecipe generateContent options)); [reflexivity|].
    intros gl recipeId. now apply processRecipe_without.
  - intros groceryList Hrun ingredients.
    destruct (generateGroceryList_returns _ _ Hrun)
      as (_ & _ & _ & _ & _ & Htotal & _).
    destruct (generateGroceryList_ingredients _ _ Hrun) as [_ Hhist].
    destruct (bucket_names_keys _ _ Hrun) as (Hall & _ & _).
    assert (Hown : JS.own ingredients ingredient = None).
    { unfold ingredients. rewrite Hhist. unfold history. simpl.
      now rewrite (excluded_never_recorded ingredient _
                     (occurrences_not_excluded _) Hex). }
    assert (Hkey : ~ In ingredient (JS.keys ingredients)).
    { intros Hin. apply (Permutation_in _ (keys_perm ingredients)) in Hin.
      now apply own_None in Hown. }
    split; [exact Hown|]. split; [exact Hkey|]. split; [|exact Htotal].
    intros c bucket Hin Hname. apply Hkey.
    apply (Permutation_in _ Hall). unfold bucket_names.
    apply in_flat_map. exists (c, bucket). split; [exact Hin | exact Hname].
Qed.

(** *** Contributing recipes *)

Lemma refs_of_app (key : string) (l1 l2 : list (string * Recipe.t)) :
  refs_of key (l1 ++ l2) = (refs_of key l1 ++ refs_of key l2)%list.
Proof. unfold refs_of. now rewrite filter_app, map_app. Qed.

Lemma refs_of_recipe (key : string) (recipe : Recipe.t) (l : list string) :
  refs_of key (map (fun i => (i, recipe)) l)
  = repeat (recipeRef recipe) (count_occ string_dec l key).
Proof.
  induction l as [|i l IH]; [reflexivity|].
  simpl map. rewrite refs_of_cons, IH. simpl count_occ.
  destruct (string_dec i key) as [->|Hne].
  - now rewrite String.eqb_refl.
  - assert (E : String.eqb key i = false)
      by (apply String.eqb_neq; congruence).
    now rewrite E.
Qed.

Lemma refs_of_occurrences (key : string) (recipes : list Recipe.t) :
  refs_of key (occurrences recipes) = flat_map (contribution key) recipes.
Proof.
  induction recipes as [|r rs IH]; [reflexivity|].
  simpl. now rewrite refs_of_app, refs_of_recipe, IH.
Qed.

Lemma introducer_app (key : string) (l1 l2 : list (string * Recipe.t)) :
  introducer key (l1 ++ l2)
  = match introducer key l1 with
    | Some r => Some r
    | None => introducer key l2
    end.
Proof.
  induction l1 as [|[i r] l1 IH]; [reflexivity|].
  simpl app. rewrite !introducer_cons.
  destruct (String.eqb key i); [reflexivity | exact IH].
Qed.

Lemma introducer_recipe (key : string) (recipe : Recipe.t)
    (l : list string) :
  introducer key (map (fun i => (i, recipe)) l)
  = if in_dec string_dec key l then Some recipe else None.
Proof.
  induction l as [|i l IH]; [reflexivity|].
  simpl map. rewrite introducer_cons, IH.
  destruct (String.eqb key i) eqn:E.
  - apply String.eqb_eq in E. subst i.
    destruct (in_dec string_dec key (key :: l)) as [_|Hn];
      [reflexivity|].
    exfalso. apply Hn. left. reflexivity.
  - apply String.eqb_neq in E.
    destruct (in_dec string_dec key l) as [Hin|Hn],
             (in_dec string_dec key (i :: l)) as [Hin'|Hn'];
      try reflexivity.
    + exfalso. apply Hn'. right. exact Hin.
    + exfalso. destruct Hin' as [->|Hin']; [now apply E | now apply Hn].
Qed.

(** The introducer of a key is the first recipe that lists it. *)
Lemma introducer_first (key : string) (recipes : list Recipe.t)
    (recipe : Recipe.t) :
  introducer key (occurrences recipes) = Some recipe ->
  exists before after,
    recipes = (before ++ recipe :: after)%list
    /\ In key (kept recipe)
    /\ forall r, In r before -> ~ In key (kept r).
Proof.
  induction recipes as [|r rs IH]; [discriminate|].
  simpl occurrences. rewrite introducer_app, introducer_recipe.
  destruct (in_dec string_dec key (kept r)) as [Hin|Hn].
  - intros [= <-]. exists [], rs. split; [reflexivity|].
    split; [exact Hin | intros r' []].
  - intros Hrest. destruct (IH Hrest) as (before & after & -> & Hin & Hb).
    exists (r :: before), after. split; [reflexivity|].
    split; [exact Hin|].
    intros r' [<-|Hr']; [exact Hn | now apply Hb].
Qed.

(** The entry found under a key of a successful result. *)
Lemma entry_of_key (recipeIds : RecipeIds) (groceryList : GroceryList.t)
    (key : string) (e : Entry.t) :
  generateGroceryList generateContent localeCompare recipeIds options
  = inr groceryList ->
  JS.own (GroceryList.ingredients groceryList) key = Some e ->
  exists recipe,
    introducer key (occurrences (fetched (normalize recipeIds)))
    = Some recipe
    /\ e = append_refs (fresh key recipe)
             (flat_map (contribution key) (fetched (normalize recipeIds))).
Proof.
  intros Hrun Hown.
  destruct (generateGroceryList_ingredients _ _ Hrun) as [_ Hhist].
  rewrite Hhist in Hown. unfold history in Hown. simpl in Hown.
  destruct (introducer key _) as [recipe|] eqn:E; [|discriminate].
  exists recipe. split; [reflexivity|].
  rewrite refs_of_occurrences in Hown. now injection Hown as <-.
Qed.

Lemma contribution_In (key : string) (recipes : list Recipe.t)
    (r : Recipe.t) :
  In r recipes -> In key (kept r) ->
  In (recipeRef r) (flat_map (contribution key) recipes).
Proof.
  intros Hr Hkey. apply in_flat_map. exists r. split; [exact Hr|].
  unfold contribution.
  apply (count_occ_In string_dec) in Hkey.
  destruct (count_occ string_dec (kept r) key); [lia | left; reflexivity].
Qed.

Lemma contribution_inv (key : string) (recipes : list Recipe.t)
    (ref : RecipeRef.t) :
  In ref (flat_map (contribution key) recipes) ->
  exists r, In r recipes /\ In key (kept r) /\ ref = recipeRef r.
Proof.
  intros Hin. apply in_flat_map in Hin as (r & Hr & Hin).
  unfold contribution in Hin. exists r. split; [exact Hr|].
  destruct (count_occ string_dec (kept r) key) eqn:E; [contradiction|].
  split.
  - apply (count_occ_In string_dec). lia.
  - apply repeat_spec in Hin. exact Hin.
Qed.

Lemma contribution_length (key : string) (recipes : list Recipe.t) :
  List.length (flat_map (contribution key) recipes)
  = list_sum (map (fun r => count_occ string_dec (kept r) key) recipes).
Proof.
  induction recipes as [|r rs IH]; [reflexivity|].
  simpl. rewrite length_app, IH. unfold contribution.
  now rewrite repeat_length.
Qed.

Lemma contribution_NoDup (key : string) (recipes : list Recipe.t) :
  NoDup (map recipeRef recipes) ->
  (forall r, In r recipes -> (count_occ string_dec (kept r) key <= 1)%nat) ->
  NoDup (flat_map (contribution key) recipes).
Proof.
  induction recipes as [|r rs IH]; intros Hnd Hone; [constructor|].
  simpl in Hnd. inversion Hnd as [|? ? Hr Hnd']; subst.
  simpl. assert (Hrest : NoDup (flat_map (contribution key) rs)).
  { apply IH; [exact Hnd'|]. intros r' Hr'. apply Hone. right. exact Hr'. }
  unfold contribution at 1.
  assert (H1 : (count_occ string_dec (kept r) key <= 1)%nat)
    by (apply Hone; left; reflexivity).
  destruct (count_occ string_dec (kept r) key) as [|[|n]]; [exact Hrest| |lia].
  simpl. constructor; [|exact Hrest].
  intros Hin. apply contribution_inv in Hin as (r' & Hr' & _ & Heq).
  apply Hr. rewrite Heq. now apply in_map.
Qed.

(** C1 (as amended).  The entry of an ingredient keeps the quantity
    computed for the first recipe, in identifier order, that lists it:
    later recipes add nothing to it.  Its [recipes] list holds every recipe
    that lists the ingredient, with one reference for each occurrence of
    the name; for two recipes that each list it once, the list has
    length 2. *)
Theorem quantity_of_first_recipe (recipeIds : RecipeIds)
    (groceryList : GroceryList.t) (key : string) (e : Entry.t) :
  generateGroceryList generateContent localeCompare recipeIds options
  = inr groceryList ->
  JS.own (GroceryList.ingredients groceryList) key = Some e ->
  let recipes := fetched (normalize recipeIds) in
  (exists before first after,
      recipes = (before ++ first :: after)%list
      /\ In key (kept first)
      /\ (forall r, In r before -> ~ In key (kept r))
      /\ Entry.quantity e
         = Quantity.amount
             (calculateIngredientQuantity key
                (servingMultiplier options first)))
  /\ (forall r, In r recipes -> In key (kept r) ->
                In (recipeRef r) (Entry.recipes e))
  /\ List.length (Entry.recipes e)
     = list_sum (map (fun r => count_occ string_dec (kept r) key) recipes)
  /\ (forall r1 r2,
         recipes = [r1; r2] ->
         count_occ string_dec (kept r1) key = 1%nat ->
         count_occ string_dec (kept r2) key = 1%nat ->
         Entry.recipes e = [recipeRef r1; recipeRef r2]
         /\ List.length (Entry.recipes e) = 2%nat).
Proof.
  intros Hrun Hown recipes.
  destruct (entry_of_key _ _ _ _ Hrun Hown) as (first & Hintro & ->).
  fold recipes in Hintro |- *. simpl.
  split; [|split; [|split]].
  - destruct (introducer_first _ _ _ Hintro)
      as (before & after & Hsplit & Hin & Hbefore).
    exists before, first, after. auto.
  - intros r Hr Hkey. now apply contribution_In.
  - apply contribution_length.
  - intros r1 r2 -> H1 H2. simpl. unfold contribution.
    rewrite H1, H2. split; reflexivity.
Qed.

(** C3 (as amended).  The [recipes] list of an entry is made of the
    references of the recipes that list the ingredient (after exclusion),
    in the order the recipes were processed, one reference for each
    occurrence of the name in the recipe.  It is free of duplicates when
    no recipe lists the name twice and no two processed recipes have the
    same identifier and name. *)
Theorem contributing_recipes_in_order (recipeIds : RecipeIds)
    (groceryList : GroceryList.t) (key : string) (e : Entry.t) :
  generateGroceryList generateContent localeCompare recipeIds options
  = inr groceryList ->
  JS.own (GroceryList.ingredients groceryList) key = Some e ->
  let recipes := fetched (normalize recipeIds) in
  Entry.recipes e = flat_map (contribution key) recipes
  /\ (forall r, In r recipes -> In key (kept r) ->
                In (recipeRef r) (Entry.recipes e))
  /\ (forall ref, In ref (Entry.recipes e) ->
                  exists r,
                    In r recipes /\ In key (kept r) /\ ref = recipeRef r)
  /\ (NoDup (map recipeRef recipes) ->
      (forall r, In r recipes ->
                 (count_occ string_dec (kept r) key <= 1)%nat) ->
      NoDup (Entry.recipes e)).
Proof.
  intros Hrun Hown recipes.
  destruct (entry_of_key _ _ _ _ Hrun Hown) as (first & _ & ->).
  fold recipes. simpl.
  split; [reflexivity|]. split; [|split].
  - intros r Hr Hkey. now apply contribution_In.
  - intros ref Hin. now apply contribution_inv.
  - intros Hnd Hone. now apply contribution_NoDup.
Qed.

(** *** Failure *)

Lemma inner_loop_succeeds (recipe : Recipe.t) (o : JS.object Entry.t) :
  regular_recipe recipe ->
  exists o',
    for_of (Recipe.ingredients recipe) (addIngredient options recipe) o
    = inr o'.
Proof.
  intros Hreg. rewrite inner_loop_kept. unfold regular_recipe in Hreg.
  assert (Hkept : forall i, In i (kept recipe) -> not_excluded (i, recipe)).
  { intros i Hi. apply filter_In in Hi as [_ Hi]. unfold not_excluded.
    simpl. now apply negb_true_iff. }
  revert o. induction (kept recipe) as [|i l IH]; intros o.
  - exists o. reflexivity.
  - simpl. rewrite (record_cases o i recipe) by (apply Hkept; now left).
    rewrite (Hreg i) by now left.
    destruct (JS.own o i); simpl; apply IH;
      intros k Hk; try (apply Hreg; now right); apply Hkept; now right.
Qed.

Lemma outer_loop_succeeds (recipeIds : list Z) (gl : GroceryList.t) :
  (forall recipeId,
      In recipeId recipeIds ->
      exists recipe,
        generateContent recipeId = Some recipe /\ regular_recipe recipe) ->
  exists gl',
    for_of recipeIds (processRecipe generateContent options) gl = inr gl'.
Proof.
  revert gl; induction recipeIds as [|recipeId recipeIds IH]; intros gl Hok.
  - exists gl. reflexivity.
  - destruct (Hok recipeId) as (recipe & G & Hreg); [now left|].
    simpl. unfold processRecipe at 1, getRecipeById. rewrite G. simpl.
    destruct (inner_loop_succeeds recipe (GroceryList.ingredients gl) Hreg)
      as [o' Ho'].
    rewrite Ho'. simpl. apply IH. intros i Hi. apply Hok. now right.
Qed.

(** The call fails with the error of [getRecipeById] once the loop gets to an
    identifier that does not resolve. *)
Lemma lookup_failure_propagates (recipeIds : RecipeIds) (before after : list Z)
    (recipeId : Z) (gl : GroceryList.t) :
  normalize recipeIds = (before ++ recipeId :: after)%list ->
  for_of before (processRecipe generateContent options)
    (emptyGroceryList (normalize recipeIds)) = inr gl ->
  generateContent recipeId = None ->
  generateGroceryList generateContent localeCompare recipeIds options
  = inl (AppError ("Recipe with ID " ++ template_literal recipeId
                   ++ " not found") 404).
Proof.
  intros Hsplit Hgl Hnone.
  unfold generateGroceryList. rewrite Hsplit at 1. rewrite for_of_app, Hgl.
  simpl. unfold processRecipe at 1, getRecipeById. now rewrite Hnone.
Qed.

(** C7.  When some identifier of the input does not resolve, the call
    fails and returns no grocery list, whatever was aggregated before.
    [getRecipeById] throws "Recipe with ID ... not found" with status 404,
    and the call fails with this very error for the first identifier that
    does not resolve, as soon as the loop gets to it; it does whenever the
    recipes before it list no name inherited from [Object.prototype]. *)
Theorem unresolved_recipe_aborts (recipeIds : RecipeIds) :
  ((exists recipeId,
       In recipeId (normalize recipeIds)
       /\ generateContent recipeId = None) ->
   exists err,
     generateGroceryList generateContent localeCompare recipeIds options
     = inl err)
  /\ (forall recipeId,
         generateContent recipeId = None ->
         getRecipeById generateContent recipeId
         = inl (AppError ("Recipe with ID " ++ template_literal recipeId
                          ++ " not found") 404))
  /\ (forall before recipeId after gl,
         normalize recipeIds = (before ++ recipeId :: after)%list ->
         for_of before (processRecipe generateContent options)
           (emptyGroceryList (normalize recipeIds)) = inr gl ->
         generateContent recipeId = None ->
         generateGroceryList generateContent localeCompare recipeIds options
         = inl (AppError ("Recipe with ID " ++ template_literal recipeId
                          ++ " not found") 404))
  /\ (forall before recipeId after,
         normalize recipeIds = (before ++ recipeId :: after)%list ->
         (forall i, In i before ->
                    exists recipe,
                      generateContent i = Some recipe
                      /\ regular_recipe recipe) ->
         generateContent recipeId = None ->
         generateGroceryList generateContent localeCompare recipeIds options
         = inl (AppError ("Recipe with ID " ++ template_literal recipeId
                          ++ " not found") 404)).
Proof.
  split; [|split; [|split]].
  - intros (recipeId & Hin & Hnone).
    destruct (generateGroceryList generateContent localeCompare recipeIds
                options) as [err|gl] eqn:Hrun; [now exists err|].
    destruct (generateGroceryList_returns _ _ Hrun) as (Hall & _).
    rewrite Forall_forall in Hall. now destruct (Hall recipeId Hin).
  - intros recipeId Hnone. unfold getRecipeById. now rewrite Hnone.
  - intros before recipeId after gl.
    apply lookup_failure_propagates.
  - intros before recipeId after Hsplit Hok Hnone.
    destruct (outer_loop_succeeds before
                (emptyGroceryList (normalize recipeIds)) Hok) as [gl Hgl].
    exact (lookup_failure_propagates _ _ _ _ _ Hsplit Hgl Hnone).
Qed.

End Aggregation.

(** ** The sample collation is a consistent comparator *)

Lemma ascii_compare_refl (c : ascii) : Ascii.compare c c = Eq.
Proof. unfold Ascii.compare. apply N.compare_refl. Qed.

Lemma string_compare_trans (a b c : string) :
  String.compare a b <> Gt -> String.compare b c <> Gt ->
  String.compare a c <> Gt.
Proof.
  revert b c; induction a as [|x a IH]; intros [|y b] [|z c]; simpl;
    try congruence.
  destruct (Ascii.compare x y) eqn:Hxy; try congruence;
    destruct (Ascii.compare y z) eqn:Hyz; try congruence.
  - apply Ascii.compare_eq_iff in Hxy, Hyz. subst.
    rewrite ascii_compare_refl. apply IH.
  - apply Ascii.compare_eq_iff in Hxy. subst. rewrite Hyz. congruence.
  - apply Ascii.compare_eq_iff in Hyz. subst. rewrite Hxy. congruence.
  - assert (E : Ascii.compare x z = Lt).
    { unfold Ascii.compare in *. rewrite N.compare_lt_iff in *. lia. }
    rewrite E. congruence.
Qed.

Lemma string_compare_refl (s : string) : String.compare s s = Eq.
Proof.
  induction s as [|c s IH]; [reflexivity|]. simpl.
  now rewrite ascii_compare_refl.
Qed.

Lemma collation_consistent : consistent Collation.localeCompare.
Proof.
  assert (Hle : forall a b,
             Collation.localeCompare a b <= 0 <-> Collation.compare a b <> Gt).
  { intros a b. unfold Collation.localeCompare.
    destruct (Collation.compare a b); split; (lia || congruence). }
  split.
  - intros a b. rewrite !Hle. unfold Collation.compare.
    rewrite (String.compare_antisym (Collation.primaries b)
               (Collation.primaries a)).
    rewrite (String.compare_antisym (Collation.cases b) (Collation.cases a)).
    destruct (String.compare (Collation.primaries a) (Collation.primaries b));
      simpl; try (left; congruence); try (right; congruence).
    destruct (String.compare (Collation.cases a) (Collation.cases b));
      simpl; try (left; congruence); right; congruence.
  - intros a b c. rewrite !Hle. unfold Collation.compare. intros Hab Hbc.
    destruct (String.compare (Collation.primaries a) (Collation.primaries b))
      eqn:E1; [|clear Hab|congruence];
      destruct (String.compare (Collation.primaries b)
                  (Collation.primaries c)) eqn:E2; try congruence.
    + apply String.compare_eq_iff in E1. apply String.compare_eq_iff in E2.
      rewrite E1, E2.
      rewrite string_compare_refl.
      exact (string_compare_trans _ _ _ Hab Hbc).
    + apply String.compare_eq_iff in E1. rewrite E1, E2. congruence.
    + apply String.compare_eq_iff in E2. rewrite <- E2, E1. congruence.
    + assert (H : String.compare (Collation.primaries a)
                    (Collation.primaries c) <> Gt).
      { apply (string_compare_trans _ (Collation.primaries b));
          congruence. }
      destruct (String.compare (Collation.primaries a)
                  (Collation.primaries c)) eqn:E3; try congruence.
      apply String.compare_eq_iff in E3. rewrite E3 in E1.
      rewrite String.compare_antisym, E2 in E1. discriminate E1.
Qed.

Lemma sample_collation_consistent : consistent Scenario.localeCompare.
Proof.
  unfold Scenario.localeCompare. split.
  - intros a b.
    rewrite (String.compare_antisym (Str.toLowerCase b) (Str.toLowerCase a)).
    destruct (String.compare (Str.toLowerCase a) (Str.toLowerCase b));
      simpl; lia.
  - intros a b c Hab Hbc.
    assert (H : String.compare (Str.toLowerCase a) (Str.toLowerCase c) <> Gt).
    { apply (string_compare_trans _ (Str.toLowerCase b)).
      - destruct (String.compare (Str.toLowerCase a) (Str.toLowerCase b));
          [discriminate | discriminate | lia].
      - destruct (String.compare (Str.toLowerCase b) (Str.toLowerCase c));
          [discriminate | discriminate | lia]. }
    destruct (String.compare (Str.toLowerCase a) (Str.toLowerCase c));
      [lia | lia | congruence].
Qed.

Lemma sample_collation_refines (a b : string) :
  Scenario.localeCompare a b <= 0 ->
  String.leb (Str.toLowerCase a) (Str.toLowerCase b) = true.
Proof.
  unfold Scenario.localeCompare, String.leb.
  destruct (String.compare (Str.toLowerCase a) (Str.toLowerCase b));
    [reflexivity | reflexivity | lia].
Qed.

(** ** The scenario of the specification, evaluated *)

Example scenario_summary :
  Scenario.run [1; 2] Options.default = inr scenario_list
  /\ Summary.totalIngredients (GroceryList.summary scenario_list) = 4%nat
  /\ Summary.estimatedTime (GroceryList.summary scenario_list) = 15
  /\ List.length (Entry.recipes butter_entry) = 2%nat.
Proof. repeat split. Qed.

Lemma quantity_of_first_recipe_witness :
  Scenario.run [1; 2] Options.default = inr scenario_list
  /\ JS.own (GroceryList.ingredients scenario_list) "butter"
     = Some butter_entry
  /\ Entry.quantity butter_entry = Binary64.of_Z 100
  /\ Entry.recipes butter_entry
     = [RecipeRef.make 1 "Omelet"; RecipeRef.make 2 "Toast"].
Proof.
  pose proof (quantity_of_first_recipe Scenario.generateContent
                Scenario.localeCompare Options.default (Array [1; 2])
                scenario_list "butter" butter_entry eq_refl eq_refl)
    as (_ & _ & _ & Htwo).
  split; [reflexivity|]. split; [reflexivity|]. split; [reflexivity|].
  exact (proj1 (Htwo Scenario.omelet Scenario.toast eq_refl eq_refl eq_refl)).
Defined.

Lemma categorized_partitions_ingredients_witness :
  Scenario.run [1; 2] Options.default = inr scenario_list
  /\ Permutation
       (bucket_names (GroceryList.categorizedIngredients scenario_list))
       (JS.keys (GroceryList.ingredients scenario_list))
  /\ Summary.totalIngredients (GroceryList.summary scenario_list)
     = List.length (JS.keys (GroceryList.ingredients scenario_list)).
Proof.
  pose proof (categorized_partitions_ingredients Scenario.generateContent
                Scenario.localeCompare Options.default (Array [1; 2])
                scenario_list eq_refl)
    as (Hperm & _ & _ & _ & _ & Htotal).
  split; [reflexivity|]. split; [exact Hperm | exact Htotal].
Defined.

Lemma contributing_recipes_in_order_witness :
  Scenario.run [1; 2] Options.default = inr scenario_list
  /\ JS.own (GroceryList.ingredients scenario_list) "butter"
     = Some butter_entry
  /\ Entry.recipes butter_entry
     = flat_map (contribution Options.default "butter")
         [Scenario.omelet; Scenario.toast]
  /\ NoDup (Entry.recipes butter_entry).
Proof.
  pose proof (contributing_recipes_in_order Scenario.generateContent
                Scenario.localeCompare Options.default (Array [1; 2])
                scenario_list "butter" butter_entry eq_refl eq_refl)
    as (Heq & _ & _ & Hnd).
  split; [reflexivity|]. split; [reflexivity|]. split; [exact Heq|].
  apply Hnd.
  - simpl. constructor.
    + intros [H|[]]. discriminate H.
    + constructor; [intros [] | constructor].
  - intros r [<-|[<-|[]]]; vm_compute; lia.
Defined.

Lemma excluded_ingredient_omitted_witness :
  In (Str.toLowerCase "butter") (Options.excludeIngredients no_butter)
  /\ Scenario.run [1; 2] no_butter = inr no_butter_list
  /\ JS.own (GroceryList.ingredients no_butter_list) "butter" = None
  /\ Summary.totalIngredients (GroceryList.summary no_butter_list) = 3%nat.
Proof.
  assert (Hex : In (Str.toLowerCase "butter")
                  (Options.excludeIngredients no_butter))
    by (left; reflexivity).
  pose proof (proj2 (excluded_ingredient_omitted Scenario.generateContent
                       Scenario.localeCompare no_butter (Array [1; 2])
                       "butter" Hex) no_butter_list eq_refl)
    as (Hown & _ & _ & Htotal).
  split; [exact Hex|]. split; [reflexivity|].
  split; [exact Hown | exact Htotal].
Defined.

Lemma buckets_sorted_by_name_witness :
  (consistent Scenario.localeCompare
   /\ Scenario.run [1; 2] Options.default = inr scenario_list
   /\ exists bucket,
       In (dairy, bucket) (GroceryList.categorizedIngredients scenario_list)
       /\ map Entry.name bucket = ["butter"; "cheese"]
       /\ StronglySorted
            (fun a b =>
               String.leb (Str.toLowerCase (Entry.name a))
                 (Str.toLowerCase (Entry.name b)) = true) bucket)
  /\ (consistent Collation.localeCompare
      /\ generateGroceryList Underscore.generateContent
           Collation.localeCompare (Single 1) Options.default
         = inr Underscore.groceryList
      /\ exists bucket,
          In (dairy, bucket)
             (GroceryList.categorizedIngredients Underscore.groceryList)
          /\ map Entry.name bucket = ["butter_2"; "butter2"]
          /\ StronglySorted
               (fun a b =>
                  Collation.localeCompare (Entry.name a) (Entry.name b) <= 0)
               bucket).
Proof.
  split.
  - split; [exact sample_collation_consistent|]. split; [reflexivity|].
    eexists. split; [right; left; reflexivity|]. split; [reflexivity|].
    refine (proj2 (buckets_sorted_by_name Scenario.generateContent
                     Scenario.localeCompare Options.default (Array [1; 2])
                     scenario_list dairy _ sample_collation_consistent
                     eq_refl _) sample_collation_refines).
    right; left; reflexivity.
  - split; [exact collation_consistent|]. split; [reflexivity|].
    eexists. split; [left; reflexivity|]. split; [reflexivity|].
    refine (proj1 (buckets_sorted_by_name Underscore.generateContent
                     Collation.localeCompare Options.default (Single 1)
                     Underscore.groceryList dairy _ collation_consistent
                     eq_refl _)).
    left; reflexivity.
Defined.

(** C9 as the specification words it.  Under the host's collation the names
    "butter2" and "butter_2" of one recipe come out as "butter_2", "butter2":
    the bucket is sorted under [localeCompare] and is not in the order of
    the lower-cased names, in which the digit precedes the underscore. *)
Lemma case_insensitive_order_counterexample :
  generateGroceryList Underscore.generateContent Collation.localeCompare
    (Single 1) Options.default
  = inr Underscore.groceryList
  /\ exists bucket,
      In (dairy, bucket)
         (GroceryList.categorizedIngredients Underscore.groceryList)
      /\ map Entry.name bucket = ["butter_2"; "butter2"]
      /\ Collation.localeCompare "butter_2" "butter2" = -1
      /\ String.leb (Str.toLowerCase "butter_2") (Str.toLowerCase "butter2")
         = false
      /\ ~ StronglySorted
             (fun a b =>
                String.leb (Str.toLowerCase (Entry.name a))
                  (Str.toLowerCase (Entry.name b)) = true) bucket.
Proof.
  split; [reflexivity|].
  eexists. split; [left; reflexivity|]. split; [reflexivity|].
  split; [reflexivity|]. split; [reflexivity|].
  intros H. inversion H as [|a l _ Hhead]; subst.
  inversion Hhead as [|b l' Hab _]; subst.
  discriminate Hab.
Qed.

Lemma unresolved_recipe_aborts_witness :
  Scenario.generateContent 3 = None
  /\ Scenario.run [1; 3; 2] Options.default
     = inl (AppError "Recipe with ID 3 not found" 404).
Proof.
  split; [reflexivity|].
  refine (proj2 (proj2 (proj2 (unresolved_recipe_aborts
                                 Scenario.generateContent
                                 Scenario.localeCompare Options.default
                                 (Array [1; 3; 2]))))
            [1] 3 [2] eq_refl _ eq_refl).
  intros i [<-|[]]. exists Scenario.omelet. split; [reflexivity|].
  intros key Hkey. simpl in Hkey.
  repeat (destruct Hkey as [<-|Hkey]; [reflexivity|]). contradiction.
Defined.

(** A recipe that lists "toString": [groceryList.ingredients["toString"]]
    is the inherited function, no entry is created, and [.recipes.push]
    throws. *)
Example inherited_name_throws :
  generateGroceryList
    (fun _ => Some (Recipe.make 1 "Salad" 2 10 ["lettuce"; "toString"]))
    Scenario.localeCompare (Single 1) Options.default
  = inl TypeError.
Proof. reflexivity. Qed.

(** An omelet that lists "eggs" twice and a scramble that lists it once:
    the entry of "eggs" holds three references. *)
Lemma shared_ingredient_lists_two_counterexample :
  ~ shared_ingredient_lists_two.
Proof.
  intros H.
  destruct (Twice.run (Array [1; 2])) as [err|groceryList] eqn:Hrun;
    [discriminate Hrun|].
  destruct (JS.own (GroceryList.ingredients groceryList) "eggs") as [e|]
    eqn:Hown.
  - pose proof (H Twice.generateContent Scenario.localeCompare
                  Options.default (Array [1; 2]) groceryList
                  Twice.omelet Twice.scramble "eggs" e Hrun eq_refl
                  (or_introl eq_refl) (or_introl eq_refl) Hown) as Hlen.
    vm_compute in Hrun. injection Hrun as <-.
    vm_compute in Hown. injection Hown as <-.
    discriminate Hlen.
  - vm_compute in Hrun. injection Hrun as <-. discriminate Hown.
Qed.

(** One omelet that lists "eggs" twice: its reference is pushed twice. *)
Lemma contributing_recipes_duplicate_free_counterexample :
  ~ contributing_recipes_duplicate_free.
Proof.
  intros H.
  destruct (Twice.run (Single 1)) as [err|groceryList] eqn:Hrun;
    [discriminate Hrun|].
  destruct (JS.own (GroceryList.ingredients groceryList) "eggs") as [e|]
    eqn:Hown.
  - pose proof (H Twice.generateContent Scenario.localeCompare
                  Options.default (Single 1) groceryList "eggs" e Hrun Hown)
      as Hnd.
    vm_compute in Hrun. injection Hrun as <-.
    vm_compute in Hown. injection Hown as <-.
    inversion Hnd as [|? ? Hin _]. apply Hin. left. reflexivity.
  - vm_compute in Hrun. injection Hrun as <-. discriminate Hown.
Qed.

(** The entries of [excludeIngredients] are compared as they are: only the
    recipe's name is lower-cased.  An entry "Butter" excludes nothing. *)
Example exclusion_entries_verbatim :
  exists groceryList,
    Scenario.run [1; 2] (Options.make None ["Butter"]) = inr groceryList
    /\ JS.own (GroceryList.ingredients groceryList) "butter"
       = Some butter_entry.
Proof. eexists. split; reflexivity. Qed.

(** * Further properties *)

(** ** The summary and the list of recipes *)

Lemma fold_left_Zadd (l : list Z) (a : Z) :
  fold_left Z.add l a = a + fold_right Z.add 0 l.
Proof.
  revert a; induction l as [|x l IH]; intros a; simpl; [lia|].
  rewrite IH. lia.
Qed.

Section Summary.

Variable generateContent : Z -> option Recipe.t.
Variable localeCompare : string -> string -> Z.
Variable options : Options.t.

Lemma fetched_resolved (recipeIds : list Z) :
  Forall (resolves generateContent) recipeIds ->
  Forall2 (fun recipeId recipe => generateContent recipeId = Some recipe)
          recipeIds (fetched generateContent recipeIds).
Proof.
  induction 1 as [|recipeId recipeIds Hres _ IH]; [constructor|].
  unfold resolves in Hres. cbn [fetched flat_map].
  destruct (generateContent recipeId) as [recipe|] eqn:G; [|congruence].
  simpl. constructor; [exact G | exact IH].
Qed.

(** X1.  A successful call lists one record per identifier, in the order of
    the identifiers, with the identifier's recipe, its cooking time and the
    servings [options.servings || recipe.servings]; [totalRecipes] is their
    number and [estimatedTime] the sum of their cooking times, whatever the
    servings. *)
Theorem recipes_and_summary (recipeIds : RecipeIds)
    (groceryList : GroceryList.t) :
  generateGroceryList generateContent localeCompare recipeIds options
  = inr groceryList ->
  let summary := GroceryList.summary groceryList in
  Forall2 (fun recipeId l =>
             exists recipe,
               generateContent recipeId = Some recipe
               /\ l = Listed.make (Recipe.id recipe) (Recipe.name recipe)
                        (listedServings options recipe)
                        (Recipe.cookingTime recipe))
          (normalize recipeIds) (GroceryList.recipes groceryList)
  /\ Summary.totalRecipes summary
     = List.length (GroceryList.recipes groceryList)
  /\ Summary.estimatedTime summary
     = fold_right Z.add 0
         (map Listed.cookingTime (GroceryList.recipes groceryList)).
Proof.
  intros Hrun summary.
  destruct (generateGroceryList_returns _ _ _ _ _ Hrun)
    as (Hall & _ & _ & Hrec & Htot & _ & _ & Htime).
  pose proof (fetched_resolved _ Hall) as Hf.
  fold summary in Htot, Htime. rewrite Hrec.
  split; [|split].
  - clear -Hf. induction Hf as [|recipeId recipe ids rs G _ IH]; simpl;
      constructor; [|exact IH].
    exists recipe. split; [exact G | reflexivity].
  - rewrite Htot, length_map. apply (Forall2_length Hf).
  - rewrite Htime, fold_left_Zadd, map_map. simpl. reflexivity.
Qed.

End Summary.

Lemma recipes_and_summary_witness :
  Scenario.run [1; 2] Options.default = inr scenario_list
  /\ Summary.totalRecipes (GroceryList.summary scenario_list) = 2%nat
  /\ Summary.estimatedTime (GroceryList.summary scenario_list) = 10 + (5 + 0).
Proof.
  pose proof (recipes_and_summary Scenario.generateContent
                Scenario.localeCompare Options.default (Array [1; 2])
                scenario_list eq_refl) as (_ & Htot & Htime).
  split; [reflexivity|]. split; [exact Htot | exact Htime].
Defined.

(** ** When the call succeeds *)

Lemma own_Some_In {V} (o : JS.object V) (key : string) (v : V) :
  JS.own o key = Some v -> In key (map fst o).
Proof.
  intros H. apply own_In in H. apply in_map_iff. exists (key, v). auto.
Qed.

Section Success.

Variable generateContent : Z -> option Recipe.t.
Variable localeCompare : string -> string -> Z.
Variable options : Options.t.

Lemma record_error (o : JS.object Entry.t) (occ : string * Recipe.t)
    (e : Error) :
  not_excluded options occ ->
  record options o occ = inl e ->
  e = TypeError /\ JS.inherited (fst occ) = true.
Proof.
  destruct occ as [i r]. intros Hkept Hrun.
  rewrite (record_cases options o i r Hkept) in Hrun. simpl.
  destruct (JS.own o i); [discriminate|].
  destruct (JS.inherited i) eqn:Hi; [|discriminate].
  injection Hrun as <-. auto.
Qed.

Lemma record_regular (o o' : JS.object Entry.t) (occ : string * Recipe.t) :
  not_excluded options occ ->
  no_inherited_key o ->
  record options o occ = inr o' ->
  JS.inherited (fst occ) = false /\ no_inherited_key o'.
Proof.
  destruct occ as [i r]. intros Hkept Hinv Hrun.
  rewrite (record_cases options o i r Hkept) in Hrun. simpl.
  destruct (JS.own o i) as [e|] eqn:Ho.
  - injection Hrun as <-. split.
    + apply Hinv. exact (own_Some_In _ _ _ Ho).
    + intros k. rewrite keys_set, Ho. apply Hinv.
  - destruct (JS.inherited i) eqn:Hi; [discriminate|]. injection Hrun as <-.
    split; [reflexivity|].
    intros k. rewrite keys_set, own_set, String.eqb_refl, keys_set, Ho.
    rewrite in_app_iff. intros [Hk|[<-|[]]]; [now apply Hinv | exact Hi].
Qed.

Lemma records_regular (occs : list (string * Recipe.t))
    (o o' : JS.object Entry.t) :
  Forall (not_excluded options) occs ->
  no_inherited_key o ->
  for_of occs (record options) o = inr o' ->
  Forall (fun occ => JS.inherited (fst occ) = false) occs
  /\ no_inherited_key o'.
Proof.
  revert o; induction occs as [|occ occs IH]; intros o Hkept Hinv Hrun.
  - injection Hrun as <-. split; [constructor | exact Hinv].
  - inversion Hkept as [|? ? Hhead Htail]; subst. simpl in Hrun.
    destruct (record options o occ) as [err|o1] eqn:E; [discriminate|].
    simpl in Hrun.
    destruct (record_regular _ _ _ Hhead Hinv E) as [Hreg Hinv1].
    destruct (IH o1 Htail Hinv1 Hrun) as [Hregs Hinv'].
    split; [constructor; assumption | exact Hinv'].
Qed.

Lemma records_error (occs : list (string * Recipe.t))
    (o : JS.object Entry.t) (e : Error) :
  Forall (not_excluded options) occs ->
  for_of occs (record options) o = inl e ->
  e = TypeError.
Proof.
  revert o; induction occs as [|occ occs IH]; intros o Hkept Hrun;
    [discriminate|].
  inversion Hkept as [|? ? Hhead Htail]; subst. simpl in Hrun.
  destruct (record options o occ) as [err|o1] eqn:E.
  - injection Hrun as <-. exact (proj1 (record_error _ _ _ Hhead E)).
  - exact (IH o1 Htail Hrun).
Qed.

Lemma kept_not_excluded (recipe : Recipe.t) :
  Forall (not_excluded options) (map (fun i => (i, recipe)) (kept options recipe)).
Proof.
  apply Forall_forall. intros [i r] Hin.
  apply in_map_iff in Hin as (i' & [= -> ->] & Hin).
  apply filter_In in Hin as [_ Hin]. unfold not_excluded. simpl.
  now apply negb_true_iff.
Qed.

(** The loop over the identifiers fails with the error of the first lookup
    that fails, or with a [TypeError]. *)
Lemma outer_loop_error (recipeIds : list Z) (gl : GroceryList.t) (e : Error) :
  for_of recipeIds (processRecipe generateContent options) gl = inl e ->
  e = TypeError
  \/ exists recipeId,
      In recipeId recipeIds /\ generateContent recipeId = None
      /\ e = notFound recipeId.
Proof.
  revert gl; induction recipeIds as [|recipeId recipeIds IH]; intros gl Hrun;
    [discriminate|].
  simpl in Hrun. unfold processRecipe at 1, getRecipeById in Hrun.
  destruct (generateContent recipeId) as [recipe|] eqn:G.
  - simpl in Hrun. rewrite inner_loop_kept in Hrun.
    destruct (for_of (map (fun i => (i, recipe)) (kept options recipe))
                (record options) (GroceryList.ingredients gl))
      as [err|o1] eqn:Hinner.
    + injection Hrun as <-. left.
      exact (records_error _ _ _ (kept_not_excluded recipe) Hinner).
    + simpl in Hrun. destruct (IH _ Hrun) as [H|(i & Hi & Gi & He)];
        [left; exact H|].
      right. exists i. split; [right; exact Hi | split; assumption].
  - injection Hrun as <-. right. exists recipeId.
    split; [left; reflexivity | split; [exact G | reflexivity]].
Qed.

Lemma generateGroceryList_loop (recipeIds : RecipeIds) :
  match generateGroceryList generateContent localeCompare recipeIds options,
        for_of (normalize recipeIds)
          (processRecipe generateContent options)
          (emptyGroceryList (normalize recipeIds))
  with
  | inl e, inl e' => e = e'
  | inr _, inr _ => True
  | _, _ => False
  end.
Proof.
  unfold generateGroceryList.
  destruct (for_of (normalize recipeIds)
              (processRecipe generateContent options)
              (emptyGroceryList (normalize recipeIds))); simpl; auto.
Qed.

(** X2.  The call returns a grocery list exactly when every identifier
    resolves to a recipe whose kept ingredient names are not inherited from
    [Object.prototype].  It throws nothing but the "not found" error of an
    identifier that does not resolve, or a [TypeError]; the latter whenever
    all identifiers resolve and one recipe lists such a name. *)
Theorem generateGroceryList_succeeds_iff (recipeIds : RecipeIds) :
  ((exists groceryList,
       generateGroceryList generateContent localeCompare recipeIds options
       = inr groceryList)
   <-> forall recipeId,
        In recipeId (normalize recipeIds) ->
        exists recipe,
          generateContent recipeId = Some recipe
          /\ regular_recipe options recipe)
  /\ (forall e,
         generateGroceryList generateContent localeCompare recipeIds options
         = inl e ->
         e = TypeError
         \/ exists recipeId,
             In recipeId (normalize recipeIds)
             /\ generateContent recipeId = None
             /\ e = notFound recipeId)
  /\ ((forall recipeId,
          In recipeId (normalize recipeIds) ->
          generateContent recipeId <> None) ->
      (exists recipeId recipe,
          In recipeId (normalize recipeIds)
          /\ generateContent recipeId = Some recipe
          /\ ~ regular_recipe options recipe) ->
      generateGroceryList generateContent localeCompare recipeIds options
      = inl TypeError).
Proof.
  assert (Hiff : (exists groceryList,
                     generateGroceryList generateContent localeCompare
                       recipeIds options = inr groceryList)
                 <-> forall recipeId,
                      In recipeId (normalize recipeIds) ->
                      exists recipe,
                        generateContent recipeId = Some recipe
                        /\ regular_recipe options recipe).
  { split.
    - intros [gl Hrun] recipeId Hin.
      destruct (generateGroceryList_returns _ _ _ _ _ Hrun)
        as (Hall & Hings & _).
      assert (Hempty : no_inherited_key (@nil (string * Entry.t)))
        by (intros k []).
      destruct (records_regular _ _ _ (occurrences_not_excluded _ _)
                  Hempty Hings) as [Hreg _].
      rewrite Forall_forall in Hall. specialize (Hall recipeId Hin).
      unfold resolves in Hall.
      destruct (generateContent recipeId) as [recipe|] eqn:G; [|congruence].
      exists recipe. split; [reflexivity|].
      intros key Hkey. rewrite Forall_forall in Hreg.
      apply (Hreg (key, recipe)). unfold occurrences.
      apply in_flat_map. exists recipe. split.
      + unfold fetched. apply in_flat_map. exists recipeId.
        split; [exact Hin|]. rewrite G. left. reflexivity.
      + apply in_map_iff. exists key. auto.
    - intros Hok.
      destruct (outer_loop_succeeds generateContent options
                  (normalize recipeIds)
                  (emptyGroceryList (normalize recipeIds)) Hok) as [gl Hgl].
      pose proof (generateGroceryList_loop recipeIds) as H.
      rewrite Hgl in H.
      destruct (generateGroceryList generateContent localeCompare recipeIds
                  options) as [e|gl']; [contradiction | now exists gl']. }
  assert (Herr : forall e,
             generateGroceryList generateContent localeCompare recipeIds
               options = inl e ->
             e = TypeError
             \/ exists recipeId,
                 In recipeId (normalize recipeIds)
                 /\ generateContent recipeId = None
                 /\ e = notFound recipeId).
  { intros e Hrun. pose proof (generateGroceryList_loop recipeIds) as H.
    rewrite Hrun in H.
    destruct (for_of (normalize recipeIds)
                (processRecipe generateContent options)
                (emptyGroceryList (normalize recipeIds))) as [e'|] eqn:E;
      [|contradiction].
    subst e'. exact (outer_loop_error _ _ _ E). }
  split; [exact Hiff|]. split; [exact Herr|].
  intros Hres (recipeId & recipe & Hin & G & Hirr).
  destruct (generateGroceryList generateContent localeCompare recipeIds
              options) as [e|gl] eqn:Hrun.
  - destruct (Herr e eq_refl) as [->|(i & Hi & Gi & _)]; [reflexivity|].
    now destruct (Hres i Hi).
  - exfalso. apply Hirr.
    destruct (proj1 Hiff (ex_intro _ gl eq_refl) recipeId Hin)
      as (recipe' & G' & Hreg).
    congruence.
Qed.

End Success.

Lemma generateGroceryList_succeeds_iff_witness :
  generateGroceryList
    (fun _ => Some (Recipe.make 1 "Salad" 2 10 ["lettuce"; "toString"]))
    Scenario.localeCompare (Single 1) Options.default
  = inl TypeError.
Proof.
  refine (proj2 (proj2 (generateGroceryList_succeeds_iff
                          (fun _ => Some (Recipe.make 1 "Salad" 2 10
                                            ["lettuce"; "toString"]))
                          Scenario.localeCompare Options.default (Single 1)))
            _ _).
  - intros recipeId _. discriminate.
  - exists 1, (Recipe.make 1 "Salad" 2 10 ["lettuce"; "toString"]).
    split; [left; reflexivity|]. split; [reflexivity|].
    intros Hreg. specialize (Hreg "toString" (or_intror (or_introl eq_refl))).
    discriminate Hreg.
Defined.

(** ** The order and the contents of the entries *)

Lemma mem_keys {V} (o : JS.object V) (key : string) :
  Str.mem key (map fst o)
  = match JS.own o key with Some _ => true | None => false end.
Proof.
  destruct (JS.own o key) as [v|] eqn:E.
  - apply mem_iff. exact (own_Some_In _ _ _ E).
  - destruct (Str.mem key (map fst o)) eqn:M; [|reflexivity].
    apply mem_iff in M. now apply own_None in E.
Qed.

Lemma entries_no_index {V} (o : JS.object V) :
  (forall k, In k (map fst o) -> JS.is_index k = false) ->
  JS.entries o = o.
Proof.
  intros Hno. unfold JS.entries.
  assert (H1 : filter (fun kv => JS.is_index (fst kv)) o = []).
  { induction o as [|[k v] o IH]; [reflexivity|]. simpl.
    rewrite (Hno k) by (left; reflexivity).
    apply IH. intros k' Hk'. apply Hno. right. exact Hk'. }
  assert (H2 : filter (fun kv => negb (JS.is_index (fst kv))) o = o).
  { induction o as [|[k v] o IH]; [reflexivity|]. simpl.
    rewrite (Hno k) by (left; reflexivity). simpl. f_equal.
    apply IH.
    - intros k' Hk'. apply Hno. right. exact Hk'.
    - simpl in H1. rewrite (Hno k) in H1 by (left; reflexivity). exact H1. }
  rewrite H1, H2. reflexivity.
Qed.

Lemma count_occ_filter (f : string -> bool) (l : list string) (key : string) :
  f key = true ->
  count_occ string_dec (filter f l) key = count_occ string_dec l key.
Proof.
  intros Hf. induction l as [|x l IH]; [reflexivity|]. simpl.
  destruct (string_dec x key) as [->|Hne].
  - rewrite Hf. simpl. destruct (string_dec key key); congruence.
  - destruct (f x); simpl; [|exact IH].
    destruct (string_dec x key); congruence.
Qed.

Section Entries.

Variable generateContent : Z -> option Recipe.t.
Variable localeCompare : string -> string -> Z.

Lemma occurrences_names (options : Options.t) (recipes : list Recipe.t) :
  map fst (occurrences options recipes) = flat_map (kept options) recipes.
Proof.
  induction recipes as [|r rs IH]; [reflexivity|].
  simpl. rewrite map_app, IH, map_map. simpl. now rewrite map_id.
Qed.

Lemma record_keys (options : Options.t) (o o' : JS.object Entry.t)
    (occ : string * Recipe.t) :
  not_excluded options occ ->
  record options o occ = inr o' ->
  map fst o'
  = (map fst o
     ++ if Str.mem (fst occ) (map fst o) then [] else [fst occ])%list.
Proof.
  destruct occ as [i r]. intros Hkept Hrun.
  rewrite (record_cases options o i r Hkept) in Hrun. simpl.
  rewrite mem_keys. destruct (JS.own o i) as [e|] eqn:Ho.
  - injection Hrun as <-. now rewrite keys_set, Ho, app_nil_r.
  - destruct (JS.inherited i); [discriminate|]. injection Hrun as <-.
    now rewrite keys_set, own_set, String.eqb_refl, keys_set, Ho.
Qed.

Lemma records_keys (options : Options.t) (occs : list (string * Recipe.t))
    (o o' : JS.object Entry.t) :
  Forall (not_excluded options) occs ->
  for_of occs (record options) o = inr o' ->
  map fst o' = (map fst o ++ new_keys (map fst o) (map fst occs))%list.
Proof.
  revert o; induction occs as [|occ occs IH]; intros o Hkept Hrun.
  - injection Hrun as <-. simpl. now rewrite app_nil_r.
  - inversion Hkept as [|? ? Hhead Htail]; subst. simpl in Hrun.
    destruct (record options o occ) as [err|o1] eqn:E; [discriminate|].
    simpl in Hrun. rewrite (IH o1 Htail Hrun).
    rewrite (record_keys _ _ _ _ Hhead E). simpl.
    destruct (Str.mem (fst occ) (map fst o)).
    + now rewrite app_nil_r.
    + now rewrite <- app_assoc.
Qed.

(** X3.  The entries of [ingredients] are created in the order in which the
    kept ingredient names first appear, recipe after recipe; when none of
    these names is an array index, this is also the order of
    [Object.keys(ingredients)]. *)
Theorem ingredients_in_order_of_first_appearance (options : Options.t)
    (recipeIds : RecipeIds) (groceryList : GroceryList.t) :
  generateGroceryList generateContent localeCompare recipeIds options
  = inr groceryList ->
  let names :=
    flat_map (kept options) (fetched generateContent (normalize recipeIds)) in
  map fst (GroceryList.ingredients groceryList) = first_appearance names
  /\ ((forall name, In name names -> JS.is_index name = false) ->
      JS.keys (GroceryList.ingredients groceryList) = first_appearance names).
Proof.
  intros Hrun names.
  destruct (generateGroceryList_returns _ _ _ _ _ Hrun) as (_ & Hings & _).
  pose proof (records_keys _ _ _ _ (occurrences_not_excluded _ _) Hings)
    as Hkeys.
  simpl in Hkeys. rewrite occurrences_names in Hkeys. fold names in Hkeys.
  split; [exact Hkeys|].
  intros Hno. unfold JS.keys. rewrite entries_no_index; [exact Hkeys|].
  intros k Hk. rewrite Hkeys in Hk. apply Hno.
  clear -Hk. unfold first_appearance in Hk.
  revert Hk. generalize (@nil string).
  induction names as [|n names IH]; intros seen Hk; [contradiction|].
  simpl in Hk. destruct (Str.mem n seen).
  - right. exact (IH _ Hk).
  - destruct Hk as [<-|Hk]; [left; reflexivity | right; exact (IH _ Hk)].
Qed.

End Entries.

Lemma ingredients_in_order_of_first_appearance_witness :
  Scenario.run [1; 2] Options.default = inr scenario_list
  /\ JS.keys (GroceryList.ingredients scenario_list)
     = ["eggs"; "cheese"; "butter"; "bread"].
Proof.
  split; [reflexivity|].
  refine (proj2 (ingredients_in_order_of_first_appearance
                   Scenario.generateContent Scenario.localeCompare
                   Options.default (Array [1; 2]) scenario_list eq_refl) _).
  intros name Hin. simpl in Hin.
  repeat (destruct Hin as [<-|Hin]; [reflexivity|]). contradiction.
Defined.

Section EntryContents.

Variable generateContent : Z -> option Recipe.t.
Variable localeCompare : string -> string -> Z.

Lemma servingMultiplier_one (options : Options.t) (recipe : Recipe.t) :
  Options.servings options = None \/ Options.servings options = Some 0 ->
  servingMultiplier options recipe = Binary64.of_Z 1.
Proof.
  unfold servingMultiplier. intros [->| ->]; reflexivity.
Qed.

Lemma servingMultiplier_quotient (options : Options.t) (recipe : Recipe.t)
    (servings : Z) :
  Options.servings options = Some servings -> 1 <= servings ->
  servingMultiplier options recipe
  = Binary64.div (Binary64.of_Z servings)
      (Binary64.of_Z (Zpos (Recipe.servings recipe))).
Proof.
  intros Hs Hpos. unfold servingMultiplier. rewrite Hs.
  destruct (servings =? 0) eqn:E; [apply Z.eqb_eq in E; lia | reflexivity].
Qed.

(** X4.  In a successful result the entry under a key carries the key as its
    name and the category of the key.  When the lower-cased key is not
    inherited from [Object.prototype], its unit and notes are those of the
    key's row of [baseQuantities] (or of the default), never scaled, and its
    quantity is the base amount itself when [options.servings] is absent or
    0.  When [options.servings] and the servings of every recipe lie between
    1 and 100, its quantity is a positive integer: the exact
    [ceil(base * servings / r)] for the servings [r] of the first recipe
    that lists the key, or one more where that quotient is an integer. *)
Theorem entry_contents (options : Options.t) (recipeIds : RecipeIds)
    (groceryList : GroceryList.t) (key : string) (e : Entry.t) :
  generateGroceryList generateContent localeCompare recipeIds options
  = inr groceryList ->
  JS.own (GroceryList.ingredients groceryList) key = Some e ->
  Entry.name e = key
  /\ Entry.category e = categorizeIngredient key
  /\ (JS.inherited (Str.toLowerCase key) = false ->
      Entry.unit e = Some (Base.unit (base_of key))
      /\ Entry.notes e = Some (Base.notes (base_of key))
      /\ (Options.servings options = None
          \/ Options.servings options = Some 0 ->
          Entry.quantity e = Binary64.of_Z (Base.amount (base_of key)))
      /\ (forall servings,
             Options.servings options = Some servings ->
             1 <= servings <= 100 ->
             (forall recipe,
                 In recipe (fetched generateContent (normalize recipeIds)) ->
                 (Recipe.servings recipe <= 100)%positive) ->
             exists first z,
               introducer key
                 (occurrences options
                    (fetched generateContent (normalize recipeIds)))
               = Some first
               /\ Binary64.integer (Entry.quantity e) = Some z
               /\ 1 <= z
               /\ exact_amount (Base.amount (base_of key)) servings
                    (Zpos (Recipe.servings first)) <= z
                  <= exact_amount (Base.amount (base_of key)) servings
                       (Zpos (Recipe.servings first)) + 1
               /\ (z = exact_amount (Base.amount (base_of key)) servings
                         (Zpos (Recipe.servings first)) + 1 ->
                   (Base.amount (base_of key) * servings)
                     mod Zpos (Recipe.servings first) = 0))).
Proof.
  intros Hrun Hown.
  destruct (entry_of_key _ _ _ _ _ _ _ Hrun Hown) as (first & Hfirst & ->).
  unfold append_refs, fresh.
  cbn [Entry.name Entry.category Entry.unit Entry.notes Entry.quantity].
  split; [reflexivity|]. split; [reflexivity|].
  intros Hreg.
  rewrite (calculateIngredientQuantity_regular key _ Hreg).
  cbn [Quantity.amount Quantity.unit Quantity.notes].
  split; [reflexivity|]. split; [reflexivity|]. split.
  - intros Hnone. rewrite (servingMultiplier_one options first Hnone).
    pose proof (calculateIngredientQuantity_unscaled key Hreg) as H.
    rewrite (calculateIngredientQuantity_regular key _ Hreg) in H.
    exact H.
  - intros servings Hs Hbound Hrecipes.
    exists first.
    assert (Hin : In first (fetched generateContent (normalize recipeIds))).
    { destruct (introducer_first _ _ _ _ Hfirst)
        as (before & after & -> & _).
      apply in_or_app. right. left. reflexivity. }
    specialize (Hrecipes first Hin).
    destruct (scaled_amount_close (Base.amount (base_of key)) servings
                (Zpos (Recipe.servings first)) (base_amount_listed key)
                Hbound) as (z & Hz & Hrest); [lia|].
    exists z. split; [exact Hfirst|]. split; [|exact Hrest].
    rewrite (servingMultiplier_quotient options first servings Hs)
      by lia.
    exact Hz.
Qed.

End EntryContents.

Lemma entry_contents_witness :
  Scenario.run [1; 2] Options.default = inr scenario_list
  /\ JS.own (GroceryList.ingredients scenario_list) "butter"
     = Some butter_entry
  /\ Entry.unit butter_entry = Some "g"
  /\ Entry.quantity butter_entry = Binary64.of_Z 100
  /\ Scenario.run [1; 2] six_servings = inr six_servings_list
  /\ JS.own (GroceryList.ingredients six_servings_list) "butter"
     = Some six_servings_butter
  /\ exists z,
       Binary64.integer (Entry.quantity six_servings_butter) = Some z
       /\ 300 <= z <= 301.
Proof.
  pose proof (entry_contents Scenario.generateContent Scenario.localeCompare
                Options.default (Array [1; 2]) scenario_list "butter"
                butter_entry eq_refl eq_refl) as (_ & _ & H).
  destruct (H eq_refl) as (Hunit & _ & Hq & _).
  pose proof (entry_contents Scenario.generateContent Scenario.localeCompare
                six_servings (Array [1; 2]) six_servings_list "butter"
                six_servings_butter eq_refl eq_refl) as (_ & _ & H6).
  destruct (H6 eq_refl) as (_ & _ & _ & Hscaled).
  assert (Hrecipes : forall recipe,
             In recipe (fetched Scenario.generateContent
                          (normalize (Array [1; 2]))) ->
             (Recipe.servings recipe <= 100)%positive).
  { intros recipe [<-|[<-|[]]]; discriminate. }
  assert (Hsix : 1 <= 6 <= 100) by lia.
  destruct (Hscaled 6 eq_refl Hsix Hrecipes)
    as (first & z & Hfirst & Hz & _ & Hbounds & _).
  vm_compute in Hfirst. injection Hfirst as <-.
  vm_compute in Hbounds.
  split; [reflexivity|]. split; [reflexivity|]. split; [exact Hunit|].
  split; [exact (Hq (or_introl eq_refl))|].
  split; [reflexivity|]. split; [reflexivity|].
  exists z. split; [exact Hz | exact Hbounds].
Defined.

Section OtherEntries.

Variable generateContent : Z -> option Recipe.t.
Variable localeCompare : string -> string -> Z.

Lemma kept_passes (options : Options.t) (key : string) (recipe : Recipe.t) :
  Str.mem (Str.toLowerCase key) (Options.excludeIngredients options) = false ->
  (In key (kept options recipe) <-> In key (Recipe.ingredients recipe))
  /\ count_occ string_dec (kept options recipe) key
     = count_occ string_dec (Recipe.ingredients recipe) key.
Proof.
  intros Hpass. unfold kept. split.
  - rewrite filter_In, Hpass. simpl. tauto.
  - apply (count_occ_filter
             (fun i => negb (Str.mem (Str.toLowerCase i)
                               (Options.excludeIngredients options)))).
    now rewrite Hpass.
Qed.

Lemma introducer_find (options : Options.t) (key : string)
    (recipes : list Recipe.t) :
  Str.mem (Str.toLowerCase key) (Options.excludeIngredients options) = false ->
  introducer key (occurrences options recipes)
  = find (is_listed key) recipes.
Proof.
  intros Hpass. induction recipes as [|r rs IH]; [reflexivity|].
  simpl occurrences. rewrite introducer_app, introducer_recipe, IH. simpl.
  destruct (kept_passes options key r Hpass) as [Hin _].
  change (is_listed key r) with (Str.mem key (Recipe.ingredients r)).
  destruct (in_dec string_dec key (kept options r)) as [H|H];
    destruct (Str.mem key (Recipe.ingredients r)) eqn:M; try reflexivity.
  - apply Hin in H. apply mem_iff in H. congruence.
  - apply mem_iff in M. apply Hin in M. contradiction.
Qed.

Lemma contributions_pass (options : Options.t) (key : string)
    (recipes : list Recipe.t) :
  Str.mem (Str.toLowerCase key) (Options.excludeIngredients options) = false ->
  flat_map (contribution options key) recipes
  = flat_map (fun r => repeat (recipeRef r)
                         (count_occ string_dec (Recipe.ingredients r) key))
             recipes.
Proof.
  intros Hpass. induction recipes as [|r rs IH]; [reflexivity|].
  simpl. rewrite IH. unfold contribution.
  now rewrite (proj2 (kept_passes options key r Hpass)).
Qed.

Lemma fresh_servings (o1 o2 : Options.t) (key : string) (r : Recipe.t) :
  Options.servings o1 = Options.servings o2 ->
  fresh o1 key r = fresh o2 key r.
Proof.
  intros Hs. unfold fresh, servingMultiplier. now rewrite Hs.
Qed.

(** X5.  Two calls on the same identifiers that differ only in
    [excludeIngredients] give the same entry to every ingredient that both
    keep: excluding an ingredient changes nothing for the others. *)
Theorem other_entries_unchanged (o1 o2 : Options.t) (recipeIds : RecipeIds)
    (gl1 gl2 : GroceryList.t) (key : string) :
  Options.servings o1 = Options.servings o2 ->
  generateGroceryList generateContent localeCompare recipeIds o1 = inr gl1 ->
  generateGroceryList generateContent localeCompare recipeIds o2 = inr gl2 ->
  ~ In (Str.toLowerCase key) (Options.excludeIngredients o1) ->
  ~ In (Str.toLowerCase key) (Options.excludeIngredients o2) ->
  JS.own (GroceryList.ingredients gl1) key
  = JS.own (GroceryList.ingredients gl2) key.
Proof.
  intros Hs Hrun1 Hrun2 Hp1 Hp2.
  assert (M1 : Str.mem (Str.toLowerCase key) (Options.excludeIngredients o1)
               = false).
  { destruct (Str.mem (Str.toLowerCase key) (Options.excludeIngredients o1))
      eqn:M; [|reflexivity]. now apply mem_iff in M. }
  assert (M2 : Str.mem (Str.toLowerCase key) (Options.excludeIngredients o2)
               = false).
  { destruct (Str.mem (Str.toLowerCase key) (Options.excludeIngredients o2))
      eqn:M; [|reflexivity]. now apply mem_iff in M. }
  destruct (generateGroceryList_ingredients _ _ _ _ _ Hrun1) as [_ H1].
  destruct (generateGroceryList_ingredients _ _ _ _ _ Hrun2) as [_ H2].
  rewrite H1, H2. unfold history. simpl.
  rewrite !refs_of_occurrences, !introducer_find by assumption.
  rewrite !contributions_pass by assumption.
  destruct (find (is_listed key) _) as [r|]; [|reflexivity].
  now rewrite (fresh_servings o1 o2 key r Hs).
Qed.

End OtherEntries.

Lemma other_entries_unchanged_witness :
  Scenario.run [1; 2] Options.default = inr scenario_list
  /\ Scenario.run [1; 2] no_butter = inr no_butter_list
  /\ JS.own (GroceryList.ingredients scenario_list) "eggs"
     = JS.own (GroceryList.ingredients no_butter_list) "eggs".
Proof.
  split; [reflexivity|]. split; [reflexivity|].
  apply (other_entries_unchanged Scenario.generateContent
           Scenario.localeCompare Options.default no_butter (Array [1; 2])
           scenario_list no_butter_list "eggs" eq_refl eq_refl eq_refl).
  - intros [].
  - intros [H|[]]. discriminate H.
Defined.

(** ** The shopping-list formats *)

Lemma base_amount_bound (ingredient : string) :
  1 <= Base.amount (base_of ingredient) <= 500.
Proof.
  unfold base_of.
  destruct (JS.own baseQuantities (Str.toLowerCase ingredient)) as [b|] eqn:E.
  - apply own_In in E. simpl in E.
    repeat (destruct E as [E|E]; [inversion E; simpl; lia|]). contradiction.
  - simpl. lia.
Qed.

Lemma calculateIngredientQuantity_inherited (ingredient : string)
    (multiplier : Binary64.t) :
  JS.inherited (Str.toLowerCase ingredient) = true ->
  calculateIngredientQuantity ingredient multiplier
  = Quantity.make Binary64.NaN None None.
Proof.
  intros Hinh. unfold calculateIngredientQuantity, JS.get.
  rewrite Hinh.
  destruct (JS.own baseQuantities (Str.toLowerCase ingredient)) as [b|] eqn:E.
  - apply own_In in E. simpl in E.
    repeat (destruct E as [E|E];
            [injection E as E _; rewrite <- E in Hinh; discriminate Hinh|]).
    contradiction.
  - reflexivity.
Qed.

Lemma Object_values_own {V} (o : JS.object V) :
  NoDup (map fst o) ->
  Forall2 (fun key v => JS.own o key = Some v) (JS.keys o) (Object_values o).
Proof.
  intros Hnd. unfold JS.keys, Object_values.
  assert (Hin : forall kv, In kv (JS.entries o) -> In kv o).
  { intros kv H. now apply (Permutation_in _ (entries_perm o)). }
  induction (JS.entries o) as [|[k v] l IH]; simpl; constructor.
  - apply In_own; [exact Hnd|]. apply Hin. left. reflexivity.
  - apply IH. intros kv H. apply Hin. right. exact H.
Qed.

Lemma Forall2_map_r {A B C} (P : A -> C -> Prop) (f : B -> C)
    (l : list A) (l' : list B) :
  Forall2 (fun a b => P a (f b)) l l' -> Forall2 P l (map f l').
Proof.
  induction 1; simpl; constructor; assumption.
Qed.

Lemma Forall2_impl {A B} (P Q : A -> B -> Prop) (l : list A) (l' : list B) :
  (forall a b, P a b -> Q a b) -> Forall2 P l l' -> Forall2 Q l l'.
Proof.
  intros H. induction 1; constructor; auto.
Qed.

Lemma NoDup_map_injective {A B} (f : A -> B) (l : list A) :
  (forall x y, f x = f y -> x = y) -> NoDup l -> NoDup (map f l).
Proof.
  intros Hinj. induction 1 as [|x l Hx Hnd IH]; simpl; constructor.
  - intros Hin. apply in_map_iff in Hin as (y & Hy & Hin).
    apply Hinj in Hy. subst y. contradiction.
  - exact IH.
Qed.

Lemma capitalize_Category_name_injective (c1 c2 : Category) :
  capitalize (Category_name c1) = capitalize (Category_name c2) -> c1 = c2.
Proof.
  destruct c1, c2; intros H; (reflexivity || discriminate H).
Qed.

Lemma push_category_new (categorized : list (Category * list Entry.t))
    (c : Category) (e : Entry.t) :
  has_category categorized c = false ->
  push_category (categorized ++ [(c, [])])%list c e
  = (categorized ++ [(c, [e])])%list.
Proof.
  induction categorized as [|[c' b] rest IH]; simpl.
  - intros _. destruct (Category_eqb c c) eqn:E; [reflexivity|].
    destruct c; discriminate E.
  - intros H. apply orb_false_iff in H as [H1 H2]. rewrite H1.
    now rewrite IH.
Qed.

Lemma push_category_nonempty (categorized : list (Category * list Entry.t))
    (c : Category) (e : Entry.t) :
  Forall (fun cb => snd cb <> []) categorized ->
  Forall (fun cb => snd cb <> []) (push_category categorized c e).
Proof.
  induction 1 as [|[c' b] rest Hb Hrest IH]; simpl; [constructor|].
  destruct (Category_eqb c c').
  - constructor; [|exact Hrest]. simpl. now destruct b.
  - constructor; [exact Hb | exact IH].
Qed.

Lemma organize_nonempty (ingredients : JS.object Entry.t) :
  Forall (fun cb => snd cb <> []) (organize ingredients).
Proof.
  unfold organize.
  assert (H : Forall (fun cb : Category * list Entry.t => snd cb <> []) [])
    by constructor.
  revert H. generalize (@nil (Category * list Entry.t)).
  induction (JS.entries ingredients) as [|entry l IH]; intros categorized H;
    simpl; [exact H|].
  apply IH. unfold organizeEntry.
  destruct (has_category categorized (Entry.category (snd entry))) eqn:E.
  - now apply push_category_nonempty.
  - rewrite push_category_new by exact E.
    apply Forall_app. split; [exact H|]. constructor; [|constructor].
    discriminate.
Qed.

Section Formats.

Variable generateContent : Z -> option Recipe.t.
Variable localeCompare : string -> string -> Z.
Variable numberToString : Binary64.t -> string.

Lemma createSimpleList_entries (options : Options.t) (recipeIds : RecipeIds)
    (groceryList : GroceryList.t) :
  generateGroceryList generateContent localeCompare recipeIds options
  = inr groceryList ->
  Forall2 (fun key line =>
             exists e, JS.own (GroceryList.ingredients groceryList) key
                       = Some e
                       /\ line = ingredientLine numberToString e)
          (JS.keys (GroceryList.ingredients groceryList))
          (createSimpleList numberToString groceryList).
Proof.
  intros Hrun.
  destruct (generateGroceryList_ingredients _ _ _ _ _ Hrun) as [Hnd _].
  unfold createSimpleList. apply Forall2_map_r.
  eapply Forall2_impl; [|exact (Object_values_own _ Hnd)].
  intros key e Hown. exists e. split; [exact Hown | reflexivity].
Qed.

Lemma createSimpleList_length (options : Options.t) (recipeIds : RecipeIds)
    (groceryList : GroceryList.t) :
  generateGroceryList generateContent localeCompare recipeIds options
  = inr groceryList ->
  List.length (createSimpleList numberToString groceryList)
  = Summary.totalIngredients (GroceryList.summary groceryList).
Proof.
  intros Hrun.
  destruct (generateGroceryList_returns _ _ _ _ _ Hrun)
    as (_ & _ & _ & _ & _ & -> & _).
  symmetry. exact (Forall2_length (createSimpleList_entries _ _ _ Hrun)).
Qed.

Lemma createChecklist_names (options : Options.t) (recipeIds : RecipeIds)
    (groceryList : GroceryList.t) :
  generateGroceryList generateContent localeCompare recipeIds options
  = inr groceryList ->
  Permutation
    (map ChecklistItem.name
       (flat_map ChecklistGroup.items
          (createChecklist numberToString groceryList)))
    (createSimpleList numberToString groceryList).
Proof.
  intros Hrun.
  destruct (generateGroceryList_returns _ _ _ _ _ Hrun)
    as (_ & _ & Hcat & _).
  cbv zeta in Hcat.
  unfold createChecklist, createSimpleList, Object_values.
  rewrite Hcat. rewrite flat_map_concat_map, map_map. simpl.
  rewrite concat_map, map_map.
  rewrite (map_ext _ (fun cb => map (ingredientLine numberToString)
                                    (snd cb)))
    by (intros cb; rewrite map_map; reflexivity).
  rewrite <- map_map, <- concat_map, <- flat_map_concat_map.
  apply Permutation_map.
  rewrite sortCategories_perm.
  destruct (organize_spec (GroceryList.ingredients groceryList))
    as (_ & _ & Hperm).
  rewrite Hperm. symmetry. apply Permutation_map, entries_perm.
Qed.

Lemma template_number_amount (key : string) :
  template_number numberToString (Binary64.of_Z (Base.amount (base_of key)))
  = numberToString (Binary64.of_Z (Base.amount (base_of key))).
Proof.
  pose proof (base_amount_listed key) as Hin.
  unfold base_amounts in Hin. cbn [In] in Hin.
  repeat (destruct Hin as [<-|Hin]; [reflexivity|]). contradiction.
Qed.

(** X6.  The simple list has one line per key of [ingredients], in the order
    of [Object.keys].  The line of a key whose lower-cased form is inherited
    from [Object.prototype] reads "NaN undefined <key>"; the line of any
    other key, when [options.servings] is absent or 0, reads
    "<amount> <unit> <key>" with the amount and unit of the key's row of
    [baseQuantities] (or of the default). *)
Theorem createSimpleList_lines (options : Options.t) (recipeIds : RecipeIds)
    (groceryList : GroceryList.t) :
  generateGroceryList generateContent localeCompare recipeIds options
  = inr groceryList ->
  let lines := createSimpleList numberToString groceryList in
  List.length lines
  = Summary.totalIngredients (GroceryList.summary groceryList)
  /\ Forall2
       (fun key line =>
          (JS.inherited (Str.toLowerCase key) = true ->
           line = "NaN undefined " ++ key)
          /\ (JS.inherited (Str.toLowerCase key) = false ->
              Options.servings options = None
              \/ Options.servings options = Some 0 ->
              prints_integers numberToString ->
              line = template_literal (Base.amount (base_of key)) ++ " "
                     ++ Base.unit (base_of key) ++ " " ++ key))
       (JS.keys (GroceryList.ingredients groceryList)) lines.
Proof.
  intros Hrun lines. split.
  - exact (createSimpleList_length _ _ _ Hrun).
  - eapply Forall2_impl; [|exact (createSimpleList_entries _ _ _ Hrun)].
    intros key line (e & Hown & ->).
    destruct (entry_of_key _ _ _ _ _ _ _ Hrun Hown) as (first & _ & ->).
    unfold ingredientLine, append_refs, fresh.
    cbn [Entry.name Entry.category Entry.unit Entry.notes Entry.quantity].
    split.
    + intros Hinh.
      rewrite (calculateIngredientQuantity_inherited key _ Hinh).
      reflexivity.
    + intros Hreg Hnone Hprints.
      rewrite (servingMultiplier_one options first Hnone).
      rewrite (calculateIngredientQuantity_unscaled key Hreg).
      rewrite (calculateIngredientQuantity_regular key _ Hreg).
      cbn [Quantity.unit template_field].
      rewrite (template_number_amount key).
      rewrite Hprints; [reflexivity|].
      pose proof (base_amount_bound key). lia.
Qed.

Lemma createChecklist_buckets (groceryList : GroceryList.t) :
  Forall2
    (fun group bucket =>
       ChecklistGroup.category group
       = capitalize (Category_name (fst bucket))
       /\ Forall2
            (fun item ingredient =>
               ChecklistItem.name item
               = ingredientLine numberToString ingredient
               /\ ChecklistItem.checked item = false
               /\ ChecklistItem.notes item = Entry.notes ingredient)
            (ChecklistGroup.items group) (snd bucket))
    (createChecklist numberToString groceryList)
    (GroceryList.categorizedIngredients groceryList).
Proof.
  unfold createChecklist.
  induction (GroceryList.categorizedIngredients groceryList)
    as [|[c bucket] rest IH]; simpl; constructor; [|exact IH].
  split; [reflexivity|]. simpl.
  induction bucket as [|ingredient bucket IHb]; simpl; constructor;
    [|exact IHb].
  repeat split.
Qed.

(** X7.  The checklist has one group per bucket of
    [categorizedIngredients], in the order of the buckets: the group of a
    bucket is titled with the capitalised category of the bucket and has one
    unchecked item per entry of the bucket, in the order of the bucket, with
    the entry's line as its name and the entry's notes.  The titles are
    distinct, no group is empty, and the items' names are the lines of the
    simple list, each once. *)
Theorem createChecklist_groups (options : Options.t) (recipeIds : RecipeIds)
    (groceryList : GroceryList.t) :
  generateGroceryList generateContent localeCompare recipeIds options
  = inr groceryList ->
  let checklist := createChecklist numberToString groceryList in
  let items := flat_map ChecklistGroup.items checklist in
  Forall2
    (fun group bucket =>
       ChecklistGroup.category group
       = capitalize (Category_name (fst bucket))
       /\ Forall2
            (fun item ingredient =>
               ChecklistItem.name item
               = ingredientLine numberToString ingredient
               /\ ChecklistItem.checked item = false
               /\ ChecklistItem.notes item = Entry.notes ingredient)
            (ChecklistGroup.items group) (snd bucket))
    checklist (GroceryList.categorizedIngredients groceryList)
  /\ NoDup (map ChecklistGroup.category checklist)
  /\ Forall (fun group =>
               ChecklistGroup.items group <> []
               /\ In (ChecklistGroup.category group)
                    ["Produce"; "Dairy"; "Protein"; "Pantry"; "Bread";
                     "Condiments"; "Other"])
            checklist
  /\ Forall (fun item => ChecklistItem.checked item = false) items
  /\ Permutation (map ChecklistItem.name items)
                 (createSimpleList numberToString groceryList)
  /\ List.length items
     = Summary.totalIngredients (GroceryList.summary groceryList).
Proof.
  intros Hrun checklist items.
  destruct (generateGroceryList_returns _ _ _ _ _ Hrun)
    as (_ & _ & Hcat & _ & _ & Htotal & _).
  cbv zeta in Hcat, Htotal.
  pose proof (createChecklist_names _ _ _ Hrun) as Hnames.
  split; [exact (createChecklist_buckets groceryList)|].
  split; [|split; [|split; [|split]]].
  - unfold checklist, createChecklist. rewrite map_map. simpl.
    rewrite <- (map_map fst (fun c => capitalize (Category_name c))).
    apply NoDup_map_injective.
    + intros c1 c2. apply capitalize_Category_name_injective.
    + rewrite Hcat, sortCategories_keys. apply organize_spec.
  - unfold checklist, createChecklist. apply Forall_map.
    rewrite Hcat. unfold sortCategories. apply Forall_map.
    eapply Forall_impl;
      [|exact (organize_nonempty (GroceryList.ingredients groceryList))].
    intros [c b] Hb. simpl in *. split.
    + intros H. apply map_eq_nil in H.
      apply Hb. destruct b as [|x b]; [reflexivity|].
      pose proof (Permutation_length (sort_perm (byName localeCompare)
                                        (x :: b))) as Hlen.
      rewrite H in Hlen. discriminate Hlen.
    + destruct c; simpl; tauto.
  - unfold items, checklist, createChecklist. apply Forall_forall.
    intros item Hin. apply in_flat_map in Hin as (g & Hg & Hin).
    apply in_map_iff in Hg as (cb & <- & _). simpl in Hin.
    apply in_map_iff in Hin as (e & <- & _). reflexivity.
  - exact Hnames.
  - rewrite <- (createSimpleList_length _ _ _ Hrun).
    rewrite <- (Permutation_length Hnames). symmetry. apply length_map.
Qed.

(** X8.  [getShoppingListFormats] fails exactly as [generateGroceryList]
    does, with the same error.  Otherwise [detailed] is the list
    [generateGroceryList] returns, [categoryOrganized] is its
    [categorizedIngredients], and the simple list and the checklist are
    those of that list. *)
Theorem getShoppingListFormats_views (options : Options.t)
    (recipeIds : RecipeIds) :
  (forall e,
      getShoppingListFormats generateContent localeCompare numberToString
        recipeIds options = inl e
      <-> generateGroceryList generateContent localeCompare recipeIds options
          = inl e)
  /\ (forall formats,
         getShoppingListFormats generateContent localeCompare numberToString
           recipeIds options = inr formats ->
         generateGroceryList generateContent localeCompare recipeIds options
         = inr (Formats.detailed formats)
         /\ Formats.categoryOrganized formats
            = GroceryList.categorizedIngredients (Formats.detailed formats)
         /\ List.length (Formats.simple formats)
            = Summary.totalIngredients
                (GroceryList.summary (Formats.detailed formats))
         /\ Permutation
              (map ChecklistItem.name
                 (flat_map ChecklistGroup.items (Formats.checklist formats)))
              (Formats.simple formats)
         /\ map ChecklistGroup.category (Formats.checklist formats)
            = map (fun cb => capitalize (Category_name (fst cb)))
                  (Formats.categoryOrganized formats)).
Proof.
  unfold getShoppingListFormats, bind, ret.
  destruct (generateGroceryList generateContent localeCompare recipeIds
              options) as [err|groceryList] eqn:Hrun.
  - split; [|intros formats H; discriminate H].
    intros e; split; intros [= ->]; reflexivity.
  - split; [intros e; split; intros H; discriminate H|].
    intros formats [= <-]. cbn [Formats.detailed Formats.simple
      Formats.checklist Formats.categoryOrganized].
    split; [reflexivity|]. split; [reflexivity|].
    split; [exact (createSimpleList_length _ _ _ Hrun)|].
    split; [exact (createChecklist_names _ _ _ Hrun)|].
    unfold createChecklist. rewrite map_map. reflexivity.
Qed.

End Formats.

Lemma sample_prints_up_to_500 : sample_prints_up_to 500 = true.
Proof. vm_compute. reflexivity. Qed.

Lemma sample_prints_in (bound n : nat) :
  sample_prints_up_to bound = true -> In n (seq 1 bound) ->
  sample_numberToString (Binary64.of_Z (Z.of_nat n))
  = template_literal (Z.of_nat n).
Proof.
  intros H Hn. unfold sample_prints_up_to in H.
  rewrite forallb_forall in H. apply String.eqb_eq. exact (H n Hn).
Qed.

Lemma sample_prints_integers : prints_integers sample_numberToString.
Proof.
  intros z Hz. rewrite <- (Z2Nat.id z) by lia.
  apply (sample_prints_in 500); [exact sample_prints_up_to_500|].
  apply in_seq. lia.
Qed.

Lemma createSimpleList_lines_witness :
  generateGroceryList Odd.generateContent Scenario.localeCompare (Single 7)
    Options.default = inr Odd.groceryList
  /\ createSimpleList sample_numberToString Odd.groceryList
     = ["NaN undefined Constructor"; "6 pieces eggs"].
Proof.
  split; [reflexivity|].
  pose proof (createSimpleList_lines Odd.generateContent
                Scenario.localeCompare sample_numberToString Options.default
                (Single 7) Odd.groceryList eq_refl) as [_ Hall].
  change (JS.keys (GroceryList.ingredients Odd.groceryList))
    with ["Constructor"; "eggs"] in Hall.
  cbv zeta in Hall.
  remember (createSimpleList sample_numberToString Odd.groceryList) as lines
    eqn:E.
  clear E.
  inversion Hall as [|k1 l1 ks1 ls1 [H1 _] Hrest E1 E1']; subst.
  inversion Hrest as [|k2 l2 ks2 ls2 [_ H2] Hnil E2 E2']; subst.
  inversion Hnil; subst.
  rewrite (H1 eq_refl),
    (H2 eq_refl (or_introl eq_refl) sample_prints_integers).
  reflexivity.
Defined.

Lemma createChecklist_groups_witness :
  Scenario.run [1; 2] Options.default = inr scenario_list
  /\ NoDup (map ChecklistGroup.category
              (createChecklist sample_numberToString scenario_list))
  /\ List.length
       (flat_map ChecklistGroup.items
          (createChecklist sample_numberToString scenario_list))
     = 4%nat.
Proof.
  pose proof (createChecklist_groups Scenario.generateContent
                Scenario.localeCompare sample_numberToString Options.default
                (Array [1; 2]) scenario_list eq_refl)
    as (_ & Hnd & _ & _ & _ & Hlen).
  split; [reflexivity|]. split; [exact Hnd | exact Hlen].
Defined.

Lemma getShoppingListFormats_views_witness :
  getShoppingListFormats Scenario.generateContent Scenario.localeCompare
    sample_numberToString (Array [1; 2]) Options.default
  = inr scenario_formats
  /\ List.length (Formats.simple scenario_formats) = 4%nat.
Proof.
  assert (Hrun : getShoppingListFormats Scenario.generateContent
                   Scenario.localeCompare sample_numberToString
                   (Array [1; 2]) Options.default = inr scenario_formats)
    by (vm_compute; reflexivity).
  split; [exact Hrun|].
  pose proof (getShoppingListFormats_views Scenario.generateContent
                Scenario.localeCompare sample_numberToString Options.default
                (Array [1; 2])) as [_ H].
  destruct (H scenario_formats Hrun) as (_ & _ & Hlen & _).
  exact Hlen.
Defined.
(** * Properties of the recipe service *)

Lemma toLowerCase_idempotent (s : string) :
  Str.toLowerCase (Str.toLowerCase s) = Str.toLowerCase s.
Proof.
  induction s as [|c s IH]; simpl; [reflexivity|]. rewrite IH. f_equal.
  unfold Str.lower_ascii.
  destruct ((65 <=? nat_of_ascii c)%nat && (nat_of_ascii c <=? 90)%nat)
    eqn:E.
  - apply andb_true_iff in E as [E1 E2].
    apply Nat.leb_le in E1. apply Nat.leb_le in E2.
    rewrite nat_ascii_embedding by lia.
    replace ((65 <=? nat_of_ascii c + 32)%nat
             && (nat_of_ascii c + 32 <=? 90)%nat) with false; [reflexivity|].
    symmetry. apply andb_false_iff. right. apply Nat.leb_gt. lia.
  - now rewrite E.
Qed.

Lemma synonymous_sym (a b : string) : synonymous a b = synonymous b a.
Proof.
  unfold synonymous. induction (JS.entries synonyms) as [|e l IH];
    simpl; [reflexivity|].
  now rewrite IH, andb_comm.
Qed.

Lemma synonymous_trans (a b c : string) :
  synonymous a b = true -> synonymous b c = true -> synonymous a c = true.
Proof.
  unfold synonymous. rewrite !existsb_exists.
  intros (e1 & He1 & H1) (e2 & He2 & H2).
  apply andb_true_iff in H1 as [Ha Hb].
  apply andb_true_iff in H2 as [Hb' Hc].
  assert (E : e1 = e2).
  { change (JS.entries synonyms) with synonyms in He1, He2.
    unfold synonyms in He1, He2. apply mem_iff in Hb.
    cbn [In] in He1, He2.
    repeat (destruct He1 as [He1|He1]; [subst e1|]); try contradiction;
      cbn [snd In] in Hb;
      repeat (destruct Hb as [Hb|Hb]; [subst b|]); try contradiction;
      repeat (destruct He2 as [He2|He2]; [subst e2|]); try contradiction;
      try reflexivity; vm_compute in Hb'; discriminate Hb'. }
  subst e2. exists e1. split; [exact He1|]. now rewrite Ha, Hc.
Qed.

(** X9.  [isIngredientMatch] compares its arguments up to letter case and is
    an equivalence: every name matches itself, matching is symmetric, and
    two names that match a third match each other. *)
Theorem isIngredientMatch_equivalence :
  (forall a, isIngredientMatch a a = true)
  /\ (forall a b, isIngredientMatch a b = isIngredientMatch b a)
  /\ (forall a b c,
         isIngredientMatch a b = true -> isIngredientMatch b c = true ->
         isIngredientMatch a c = true)
  /\ (forall a b,
         isIngredientMatch (Str.toLowerCase a) b = isIngredientMatch a b
         /\ isIngredientMatch a (Str.toLowerCase b) = isIngredientMatch a b).
Proof.
  assert (Hspec : forall a b,
             isIngredientMatch a b = true
             <-> Str.toLowerCase a = Str.toLowerCase b
                 \/ synonymous (Str.toLowerCase a) (Str.toLowerCase b) = true).
  { intros a b. unfold isIngredientMatch; cbv zeta.
    fold (synonymous (Str.toLowerCase a) (Str.toLowerCase b)).
    destruct (String.eqb (Str.toLowerCase a) (Str.toLowerCase b)) eqn:E.
    - apply String.eqb_eq in E. tauto.
    - apply String.eqb_neq in E. tauto. }
  split; [|split; [|split]].
  - intros a. apply Hspec. left. reflexivity.
  - intros a b.
    destruct (isIngredientMatch a b) eqn:E1, (isIngredientMatch b a) eqn:E2;
      try reflexivity.
    + apply Hspec in E1. rewrite synonymous_sym in E1.
      assert (isIngredientMatch b a = true)
        by (apply Hspec; destruct E1; [left; congruence | right; assumption]).
      congruence.
    + apply Hspec in E2. rewrite synonymous_sym in E2.
      assert (isIngredientMatch a b = true)
        by (apply Hspec; destruct E2; [left; congruence | right; assumption]).
      congruence.
  - intros a b c Hab Hbc. apply Hspec in Hab. apply Hspec in Hbc.
    apply Hspec. destruct Hab as [Hab|Hab], Hbc as [Hbc|Hbc].
    + left. congruence.
    + right. now rewrite Hab.
    + right. now rewrite <- Hbc.
    + right. exact (synonymous_trans _ _ _ Hab Hbc).
  - intros a b. unfold isIngredientMatch.
    now rewrite !toLowerCase_idempotent.
Qed.

Lemma isIngredientMatch_equivalence_witness :
  isIngredientMatch "Cheddar" "mozzarella" = true
  /\ isIngredientMatch "Mozzarella" "PARMESAN" = true
  /\ isIngredientMatch "Cheddar" "PARMESAN" = true.
Proof.
  pose proof isIngredientMatch_equivalence as (_ & _ & Htrans & _).
  split; [reflexivity|]. split; [reflexivity|].
  exact (Htrans "Cheddar" "mozzarella" "PARMESAN" eq_refl eq_refl).
Defined.

Lemma filter_not_mem_filter (f : string -> bool) (l : list string) :
  filter (fun i => negb (Str.mem i (filter f l))) l
  = filter (fun i => negb (f i)) l.
Proof.
  apply filter_ext_in. intros i Hi. f_equal.
  destruct (f i) eqn:E.
  - apply mem_iff, filter_In. split; assumption.
  - destruct (Str.mem i (filter f l)) eqn:M; [|reflexivity].
    apply mem_iff, filter_In in M as [_ M]. congruence.
Qed.

Lemma filter_length_le {A} (f : A -> bool) (l : list A) :
  (List.length (filter f l) <= List.length l)%nat.
Proof.
  induction l as [|a l IH]; simpl; [lia|]. destruct (f a); simpl; lia.
Qed.

Lemma calculateMatchData_fields (recipe : RecipeData.t)
    (availableIngredients : list string) :
  let ingredients := ingredients_of recipe in
  let matched := filter (available_for availableIngredients) ingredients in
  calculateMatchData recipe availableIngredients
  = MatchData.make (List.length matched)
      (Double.percentage (List.length matched) (List.length ingredients))
      matched
      (filter (fun i => negb (available_for availableIngredients i))
              ingredients)
      (1 <=? List.length matched)%nat.
Proof.
  cbv zeta. unfold calculateMatchData; cbv zeta.
  fold (ingredients_of recipe).
  change (fun ingredient =>
            existsb (fun available => matches available ingredient)
                    availableIngredients)
    with (available_for availableIngredients).
  now rewrite filter_not_mem_filter.
Qed.

(** X10.  [calculateMatchData] splits the ingredients of the recipe into
    the matched ones (those some available ingredient matches) and the
    missing ones (those none matches), each list in the order of the
    recipe: [matchScore] and the number of missing ingredients add up to the
    number of ingredients, and [canMake] holds exactly when some ingredient
    is matched. *)
Theorem calculateMatchData_partition (recipe : RecipeData.t)
    (availableIngredients : list string) :
  let data := calculateMatchData recipe availableIngredients in
  let ingredients := ingredients_of recipe in
  MatchData.matchedIngredients data
  = filter (available_for availableIngredients) ingredients
  /\ MatchData.missingIngredients data
     = filter (fun i => negb (available_for availableIngredients i))
              ingredients
  /\ Permutation (MatchData.matchedIngredients data
                  ++ MatchData.missingIngredients data) ingredients
  /\ (MatchData.matchScore data
      + List.length (MatchData.missingIngredients data)
      = List.length ingredients)%nat
  /\ (forall i,
         In i (MatchData.matchedIngredients data)
         <-> In i ingredients
             /\ exists a, In a availableIngredients /\ matches a i = true)
  /\ (forall i,
         In i (MatchData.missingIngredients data)
         <-> In i ingredients
             /\ forall a, In a availableIngredients -> matches a i = false)
  /\ (MatchData.canMake data = true
      <-> exists i a, In i ingredients /\ In a availableIngredients
                      /\ matches a i = true).
Proof.
  cbv zeta. rewrite calculateMatchData_fields.
  cbn [MatchData.missingIngredients MatchData.matchedIngredients
       MatchData.matchScore MatchData.canMake].
  set (ingredients := ingredients_of recipe).
  set (P := available_for availableIngredients).
  assert (HP : forall i, P i = true
                         <-> exists a, In a availableIngredients
                                       /\ matches a i = true).
  { intros i. unfold P, available_for. apply existsb_exists. }
  assert (Hmatched : forall i,
             In i (filter P ingredients)
             <-> In i ingredients
                 /\ exists a, In a availableIngredients
                              /\ matches a i = true).
  { intros i. rewrite filter_In, HP. reflexivity. }
  split; [reflexivity|].
  split; [reflexivity|]. split; [apply filter_split_perm|].
  split; [|split; [exact Hmatched|split]].
  - rewrite <- length_app.
    apply Permutation_length, filter_split_perm.
  - intros i. rewrite filter_In. split; intros [Hi H]; (split; [exact Hi|]).
    + intros a Ha. destruct (matches a i) eqn:E; [|reflexivity].
      assert (P i = true) by (apply HP; eauto).
      rewrite H0 in H. discriminate H.
    + destruct (P i) eqn:E; [|reflexivity].
      apply HP in E as (a & Ha & E). rewrite (H a Ha) in E. discriminate E.
  - rewrite Nat.leb_le. split.
    + intros Hlen. destruct (filter P ingredients) as [|i l] eqn:E;
        [simpl in Hlen; lia|].
      assert (Hi : In i (i :: l)) by now left.
      apply Hmatched in Hi as (Hi & a & Ha & Hm). eauto.
    + intros (i & a & Hi & Ha & Hm).
      assert (Hin : In i (filter P ingredients)) by (apply Hmatched; eauto).
      destruct (filter P ingredients); [contradiction | simpl; lia].
Qed.

Lemma includes_empty (s : string) : Str.includes s "" = true.
Proof. destruct s; reflexivity. Qed.

(** X11.  Edge cases of [calculateMatchData].  With nothing available
    every ingredient is missing.  A recipe with no ingredients (or without
    the field) scores 0, cannot be made, and its [matchPercentage] is
    [NaN].  An empty string among the available ingredients matches every
    ingredient, and an empty ingredient of the recipe is matched by any
    available ingredient. *)
Theorem calculateMatchData_edge_cases (recipe : RecipeData.t)
    (availableIngredients : list string) :
  let data := calculateMatchData recipe availableIngredients in
  let ingredients := ingredients_of recipe in
  (availableIngredients = [] ->
   MatchData.matchedIngredients data = []
   /\ MatchData.missingIngredients data = ingredients
   /\ MatchData.canMake data = false)
  /\ (ingredients = [] ->
      MatchData.matchScore data = 0%nat
      /\ MatchData.matchPercentage data = None
      /\ MatchData.canMake data = false)
  /\ (In "" availableIngredients ->
      MatchData.matchedIngredients data = ingredients
      /\ MatchData.missingIngredients data = [])
  /\ (availableIngredients <> [] -> In "" ingredients ->
      In "" (MatchData.matchedIngredients data)
      /\ MatchData.canMake data = true).
Proof.
  cbv zeta. rewrite calculateMatchData_fields.
  cbn [MatchData.missingIngredients MatchData.matchedIngredients
       MatchData.matchScore MatchData.canMake MatchData.matchPercentage].
  set (ingredients := ingredients_of recipe).
  split; [|split; [|split]].
  - intros ->.
    assert (H : forall l, filter (available_for []) l = []).
    { induction l as [|i l IH]; [reflexivity | exact IH]. }
    assert (H' : forall l : list string,
               filter (fun i => negb (available_for [] i)) l = l).
    { induction l as [|i l IH]; [reflexivity|].
      change (filter (fun i0 => negb (available_for [] i0)) (i :: l))
        with (i :: filter (fun i0 => negb (available_for [] i0)) l).
      now rewrite IH. }
    rewrite H, H'. auto.
  - intros ->. simpl. auto.
  - intros Hin.
    assert (H : forall i, available_for availableIngredients i = true).
    { intros i. apply existsb_exists. exists "". split; [exact Hin|].
      unfold matches. simpl Str.toLowerCase.
      rewrite includes_empty, orb_true_r. reflexivity. }
    split.
    + clear -H. induction ingredients as [|i l IH]; [reflexivity|].
      simpl. now rewrite H, IH.
    + clear -H. induction ingredients as [|i l IH]; [reflexivity|].
      simpl. now rewrite H.
  - intros Hne Hin.
    assert (H : available_for availableIngredients "" = true).
    { destruct availableIngredients as [|a rest]; [congruence|].
      apply existsb_exists. exists a. split; [now left|].
      unfold matches. simpl Str.toLowerCase.
      now rewrite includes_empty. }
    assert (Hm : In "" (filter (available_for availableIngredients)
                               ingredients))
      by (apply filter_In; split; assumption).
    split; [exact Hm|].
    destruct (filter (available_for availableIngredients) ingredients);
      [contradiction | reflexivity].
Qed.

Lemma calculateMatchData_edge_cases_witness :
  let data := calculateMatchData Kitchen.mystery Kitchen.available in
  MatchData.matchScore data = 0%nat
  /\ MatchData.matchPercentage data = None
  /\ MatchData.canMake data = false.
Proof.
  pose proof (calculateMatchData_edge_cases Kitchen.mystery Kitchen.available)
    as (_ & H & _).
  exact (H eq_refl).
Defined.

Lemma percentage_exact_below_40 : percentage_exact_up_to 39 = true.
Proof. vm_compute. reflexivity. Qed.

Lemma percentage_exact_in (bound score total : nat) :
  percentage_exact_up_to bound = true ->
  In total (seq 1 bound) -> In score (seq 0 (S total)) ->
  Double.percentage score total = Some (exact_percentage score total).
Proof.
  intros H Htotal Hscore. unfold percentage_exact_up_to in H.
  rewrite forallb_forall in H. specialize (H total Htotal).
  unfold percentage_exact_at in H. rewrite forallb_forall in H.
  specialize (H score Hscore).
  destruct (Double.percentage score total) as [p|]; [|discriminate H].
  apply Z.eqb_eq in H. now subst p.
Qed.

Lemma percentage_exact (score total : nat) :
  (1 <= total <= 39)%nat -> (score <= total)%nat ->
  Double.percentage score total = Some (exact_percentage score total).
Proof.
  intros Htotal Hscore.
  apply (percentage_exact_in 39);
    [exact percentage_exact_below_40 | apply in_seq; lia | apply in_seq; lia].
Qed.

Lemma exact_percentage_bounds (score total : nat) :
  (1 <= total)%nat -> (score <= total)%nat ->
  0 <= exact_percentage score total <= 100
  /\ (score = 0%nat -> exact_percentage score total = 0)
  /\ ((total < 200)%nat ->
      (exact_percentage score total = 100 <-> score = total)).
Proof.
  intros Htotal Hscore. unfold exact_percentage.
  set (k := Z.of_nat score). set (n := Z.of_nat total).
  assert (Hn : 1 <= n) by (unfold n; lia).
  assert (Hk : 0 <= k <= n) by (unfold k, n; lia).
  assert (Hlo : 0 <= (200 * k + n) / (2 * n))
    by (apply Z.div_pos; lia).
  assert (Hhi : (200 * k + n) / (2 * n) < 101)
    by (apply Z.div_lt_upper_bound; lia).
  split; [lia|]. split.
  - intros Hz. assert (k = 0) by (unfold k; lia). subst k. rewrite H.
    apply Z.div_small. lia.
  - intros Hsmall. assert (Hn' : n < 200) by (unfold n; lia). split.
    + intros H100.
      assert (Hge : 100 * (2 * n) <= 200 * k + n).
      { rewrite <- H100. rewrite Z.mul_comm. apply Z.mul_div_le. lia. }
      unfold k, n in *. lia.
    + intros Heq. assert (Hkn : k = n) by (unfold k, n; lia).
      rewrite Hkn in *.
      apply Z.le_antisymm; [lia|].
      apply Z.div_le_lower_bound; lia.
Qed.

(** X12.  For a recipe with 1 to 39 ingredients [matchPercentage] is the
    exact percentage of matched ingredients rounded to the nearest integer,
    halves up: a number from 0 to 100, 0 when nothing matches and 100
    exactly when everything does.  The bound is sharp: 23 of 40 gives 57 in
    the arithmetic of the code, where the exact 57.5 rounds to 58. *)
Theorem matchPercentage_exact (recipe : RecipeData.t)
    (availableIngredients : list string) :
  let data := calculateMatchData recipe availableIngredients in
  let total := List.length (ingredients_of recipe) in
  ((1 <= total <= 39)%nat ->
   exists p,
     MatchData.matchPercentage data = Some p
     /\ p = exact_percentage (MatchData.matchScore data) total
     /\ 0 <= p <= 100
     /\ (MatchData.matchScore data = 0%nat -> p = 0)
     /\ (p = 100 <-> MatchData.matchScore data = total))
  /\ Double.percentage 23 40 = Some 57
  /\ exact_percentage 23 40 = 58.
Proof.
  cbv zeta. split; [|split; reflexivity].
  intros Htotal. rewrite calculateMatchData_fields.
  cbn [MatchData.matchScore MatchData.matchPercentage].
  set (score := List.length (filter (available_for availableIngredients)
                               (ingredients_of recipe))).
  assert (Hscore : (score <= List.length (ingredients_of recipe))%nat)
    by apply filter_length_le.
  eexists. split; [exact (percentage_exact _ _ Htotal Hscore)|].
  split; [reflexivity|].
  destruct (exact_percentage_bounds score _ (proj1 Htotal) Hscore)
    as (Hb & Hz & H100).
  split; [exact Hb|]. split; [exact Hz|]. apply H100. lia.
Qed.

Lemma matchPercentage_exact_witness :
  MatchData.matchPercentage (calculateMatchData Kitchen.salad Kitchen.available)
  = Some 33.
Proof.
  pose proof (matchPercentage_exact Kitchen.salad Kitchen.available)
    as [H _].
  cbv zeta in H.
  assert (Hlen : (1 <= List.length (ingredients_of Kitchen.salad) <= 39)%nat)
    by (simpl; lia).
  destruct (H Hlen) as (p & Hp & -> & _).
  exact Hp.
Defined.

Lemma StronglySorted_impl {A} (R R' : A -> A -> Prop) (l : list A) :
  (forall a b, R a b -> R' a b) -> StronglySorted R l -> StronglySorted R' l.
Proof.
  intros H. induction 1 as [|a l Hl IH Ha]; constructor; [exact IH|].
  eapply Forall_impl; [|exact Ha]. intros b. apply H.
Qed.

Lemma byMatchScore_consistent : consistent byMatchScore.
Proof.
  unfold consistent, byMatchScore. split; intros; lia.
Qed.

Lemma slice_from_0_singleton {A} (x : A) (end_ : option Z) :
  slice_from_0 [x] end_
  = match end_ with
    | Some e => if 1 <=? e then [x] else []
    | None => []
    end.
Proof.
  destruct end_ as [e|]; [|reflexivity]. unfold slice_from_0.
  destruct (e <? 0) eqn:Hneg, (1 <=? e) eqn:Hpos;
    try apply Z.ltb_lt in Hneg; try apply Z.ltb_ge in Hneg;
    try apply Z.leb_le in Hpos; try apply Z.leb_gt in Hpos; try lia.
  - replace (Z.to_nat (Z.of_nat (List.length [x]) + e)) with 0%nat
      by (simpl List.length; lia).
    reflexivity.
  - destruct (Z.to_nat e) as [|n] eqn:E; [lia|]. simpl. now rewrite firstn_nil.
  - replace (Z.to_nat e) with 0%nat by lia. reflexivity.
Qed.

Section SearchFacts.

Variable generateRecipes :
  list string -> option Z -> option (list RecipeData.t).
Variable encodeURIComponent : string -> string.

Lemma map_index_length {A B} (f : A -> nat -> B) (index : nat)
    (arr : list A) :
  List.length (map_index f index arr) = List.length arr.
Proof.
  revert index; induction arr as [|x arr IH]; intros index; simpl;
    [reflexivity|]. now rewrite IH.
Qed.

Lemma map_index_Forall {A B} (f : A -> nat -> B) (P : B -> Prop)
    (index : nat) (arr : list A) :
  (forall x i, P (f x i)) -> Forall P (map_index f index arr).
Proof.
  intros H. revert index; induction arr as [|x arr IH]; intros index; simpl;
    constructor; [apply H | apply IH].
Qed.

Lemma enhance_ids (availableIngredients : list string) (index : nat)
    (arr : list RecipeData.t) :
  map (fun found => RecipeData.id (Found.recipe found))
      (map_index (enhance encodeURIComponent availableIngredients) index arr)
  = map (fun i => Z.of_nat i + 1) (seq index (List.length arr)).
Proof.
  revert index; induction arr as [|x arr IH]; intros index; simpl;
    [reflexivity|]. now rewrite IH.
Qed.

Lemma enhance_names (availableIngredients : list string) (index : nat)
    (arr : list RecipeData.t) :
  map (fun found => RecipeData.name (Found.recipe found))
      (map_index (enhance encodeURIComponent availableIngredients) index arr)
  = map RecipeData.name arr.
Proof.
  revert index; induction arr as [|x arr IH]; intros index; simpl;
    [reflexivity|]. now rewrite IH.
Qed.

Lemma findRecipesByIngredients_sorted (availableIngredients : list string)
    (limit : option Z) :
  let result :=
    findRecipesByIngredients generateRecipes encodeURIComponent
      availableIngredients limit in
  SearchResult.searchedIngredients result = availableIngredients
  /\ StronglySorted
       (fun a b => (Found.matchScore b <= Found.matchScore a)%nat)
       (SearchResult.recipes result).
Proof.
  cbv zeta. unfold findRecipesByIngredients.
  destruct (generateRecipes availableIngredients limit) as [answer|].
  - split; [reflexivity|].
    cbn [SearchResult.recipes].
    eapply StronglySorted_impl;
      [|exact (sort_sorted byMatchScore _ byMatchScore_consistent)].
    intros a b. unfold before, byMatchScore. lia.
  - unfold getFallbackRecipes, fallbackRecipes.
    rewrite slice_from_0_singleton. split; [reflexivity|].
    destruct limit as [e|]; [destruct (1 <=? e)|]; simpl;
      repeat constructor.
Qed.

Lemma map_index_origin {A B} (f : A -> nat -> B) (index : nat)
    (arr : list A) (y : B) :
  In y (map_index f index arr) ->
  exists k x, nth_error arr k = Some x /\ y = f x (index + k)%nat.
Proof.
  revert index; induction arr as [|x arr IH]; intros index; simpl;
    [contradiction|].
  intros [<-|Hin].
  - exists 0%nat, x. split; [reflexivity|]. now rewrite Nat.add_0_r.
  - destruct (IH _ Hin) as (k & x' & Hk & ->).
    exists (S k), x'. split; [exact Hk|]. f_equal. lia.
Qed.

Lemma enhance_ids_above (availableIngredients : list string)
    (bound index : nat) (arr : list RecipeData.t) :
  (bound <= index)%nat ->
  Forall (fun found => Z.of_nat bound < RecipeData.id (Found.recipe found))
         (map_index (enhance encodeURIComponent availableIngredients) index
            arr).
Proof.
  revert index; induction arr as [|x arr IH]; intros index Hle; simpl;
    constructor.
  - simpl. lia.
  - apply IH. lia.
Qed.

Lemma insert_ranked (a : Found.t) (l : list Found.t) :
  StronglySorted ranked_before l ->
  Forall (fun c => RecipeData.id (Found.recipe a)
                   < RecipeData.id (Found.recipe c)) l ->
  StronglySorted ranked_before (JS.insert byMatchScore a l).
Proof.
  induction 1 as [|b l Hl IH Hb]; intros Hids; simpl.
  - repeat constructor.
  - inversion Hids as [|? ? Hab Hal]; subst.
    destruct (byMatchScore a b <=? 0) eqn:E.
    + apply Z.leb_le in E. constructor; [constructor; assumption|].
      constructor.
      * unfold ranked_before, byMatchScore in *. lia.
      * rewrite Forall_forall in *. intros c Hc.
        specialize (Hb c Hc). specialize (Hal c Hc).
        unfold ranked_before, byMatchScore in *. lia.
    + apply Z.leb_gt in E. constructor; [exact (IH Hal)|].
      rewrite Forall_forall in *. intros c Hc.
      apply (Permutation_in _ (insert_perm byMatchScore a l)) in Hc.
      destruct Hc as [<-|Hc]; [|exact (Hb c Hc)].
      unfold ranked_before, byMatchScore in *. lia.
Qed.

Lemma sort_enhanced_ranked (availableIngredients : list string)
    (index : nat) (arr : list RecipeData.t) :
  StronglySorted ranked_before
    (JS.sort byMatchScore
       (map_index (enhance encodeURIComponent availableIngredients) index
          arr)).
Proof.
  revert index; induction arr as [|x arr IH]; intros index; simpl;
    [constructor|].
  apply insert_ranked; [apply IH|].
  rewrite Forall_forall. intros c Hc.
  apply (Permutation_in _ (sort_perm byMatchScore _)) in Hc.
  pose proof (enhance_ids_above availableIngredients (S index) (S index) arr
                (le_n _)) as H.
  rewrite Forall_forall in H. specialize (H c Hc). simpl. lia.
Qed.

(** X13.  [findRecipesByIngredients] always returns a result: the searched
    ingredients as given, [totalFound] equal to the number of recipes,
    every recipe with the match data [calculateMatchData] computes for it,
    and the recipes in descending order of [matchScore].  When the model
    answers, every recipe of the answer is returned, whatever the limit,
    renumbered in the order of the answer: the recipe numbered [i] is the
    [i]-th recipe of the answer, with the placeholder image of its name and
    nothing else changed, and recipes of equal score stay in the order of
    the answer.  When the model fails, the result is the fallback. *)
Theorem findRecipesByIngredients_ranked (availableIngredients : list string)
    (limit : option Z) :
  let result :=
    findRecipesByIngredients generateRecipes encodeURIComponent
      availableIngredients limit in
  let recipes := SearchResult.recipes result in
  SearchResult.searchedIngredients result = availableIngredients
  /\ SearchResult.totalFound result = List.length recipes
  /\ StronglySorted
       (fun a b => (Found.matchScore b <= Found.matchScore a)%nat) recipes
  /\ Forall (fun found =>
               Found.matchData found
               = calculateMatchData (Found.recipe found)
                   availableIngredients)
            recipes
  /\ (forall answer,
         generateRecipes availableIngredients limit = Some answer ->
         SearchResult.totalFound result = List.length answer
         /\ Permutation
              (map (fun found => RecipeData.id (Found.recipe found)) recipes)
              (map (fun index => Z.of_nat index + 1)
                   (seq 0 (List.length answer)))
         /\ Permutation
              (map (fun found => RecipeData.name (Found.recipe found))
                   recipes)
              (map RecipeData.name answer)
         /\ Forall (fun found =>
                      RecipeData.image (Found.recipe found)
                      = "https://via.placeholder.com/300x200?text="
                        ++ encodeURIComponent
                             (RecipeData.name (Found.recipe found)))
                   recipes
         /\ Forall (fun found =>
                      exists original,
                        1 <= RecipeData.id (Found.recipe found)
                        /\ nth_error answer
                             (Z.to_nat
                                (RecipeData.id (Found.recipe found) - 1))
                           = Some original
                        /\ Found.recipe found
                           = RecipeData.with_id_image original
                               (RecipeData.id (Found.recipe found))
                               (RecipeData.image (Found.recipe found))
                        /\ Found.matchData found
                           = calculateMatchData original
                               availableIngredients)
                   recipes
         /\ StronglySorted ranked_before recipes)
  /\ (generateRecipes availableIngredients limit = None ->
      result = getFallbackRecipes availableIngredients limit).
Proof.
  cbv zeta. unfold findRecipesByIngredients.
  destruct (generateRecipes availableIngredients limit) as [answer|].
  - cbn [SearchResult.searchedIngredients SearchResult.totalFound
         SearchResult.recipes].
    set (enhanced := map_index (enhance encodeURIComponent
                                  availableIngredients) 0 answer).
    pose proof (sort_perm byMatchScore enhanced) as Hperm.
    split; [reflexivity|]. split; [|split; [|split; [|split]]].
    + symmetry. apply Permutation_length, Hperm.
    + eapply StronglySorted_impl;
        [|exact (sort_sorted byMatchScore enhanced byMatchScore_consistent)].
      intros a b. unfold before, byMatchScore. lia.
    + apply Forall_forall. intros found Hin.
      apply (Permutation_in _ Hperm) in Hin. revert found Hin.
      apply Forall_forall. apply map_index_Forall. reflexivity.
    + intros answer' [= <-]. split; [apply map_index_length|].
      split; [|split].
      * rewrite <- (enhance_ids availableIngredients).
        apply Permutation_map, Hperm.
      * rewrite <- (enhance_names availableIngredients 0).
        apply Permutation_map, Hperm.
      * split; [|split].
        -- apply Forall_forall. intros found Hin.
           apply (Permutation_in _ Hperm) in Hin. revert found Hin.
           apply Forall_forall. apply map_index_Forall. reflexivity.
        -- apply Forall_forall. intros found Hin.
           apply (Permutation_in _ Hperm) in Hin.
           apply map_index_origin in Hin as (k & original & Hk & ->).
           exists original. unfold enhance.
           cbn [Found.recipe Found.matchData RecipeData.id
                RecipeData.with_id_image RecipeData.image].
           split; [lia|]. split; [|split; reflexivity].
           replace (Z.to_nat (Z.of_nat (0 + k) + 1 - 1)) with k by lia.
           exact Hk.
        -- apply sort_enhanced_ranked.
    + discriminate.
  - unfold getFallbackRecipes, fallbackRecipes.
    rewrite slice_from_0_singleton.
    cbn [SearchResult.searchedIngredients SearchResult.totalFound
         SearchResult.recipes].
    split; [reflexivity|]. split; [reflexivity|].
    split; [|split; [|split]].
    + destruct limit as [e|]; [destruct (1 <=? e)|]; simpl;
        repeat constructor.
    + destruct limit as [e|]; [destruct (1 <=? e)|]; simpl;
        repeat constructor.
    + discriminate.
    + reflexivity.
Qed.

End SearchFacts.

Lemma findRecipesByIngredients_ranked_witness :
  map (fun found => (RecipeData.id (Found.recipe found),
                     Found.matchScore found))
      (SearchResult.recipes
         (findRecipesByIngredients Kitchen.generateRecipes
            Kitchen.encodeURIComponent Kitchen.available (Some 1)))
  = [(3, 3%nat); (1, 1%nat); (2, 0%nat)]
  /\ SearchResult.totalFound
       (findRecipesByIngredients Kitchen.generateRecipes
          Kitchen.encodeURIComponent Kitchen.available (Some 1))
     = 3%nat.
Proof.
  pose proof (findRecipesByIngredients_ranked Kitchen.generateRecipes
                Kitchen.encodeURIComponent Kitchen.available (Some 1))
    as (_ & _ & _ & _ & H & _).
  destruct (H _ eq_refl) as (Hlen & _).
  split; [reflexivity | exact Hlen].
Defined.

(** X14.  The fallback answers with at most one recipe, the scrambled eggs:
    with it when the limit is at least 1, with none when the limit is [NaN],
    0 or negative.  Its four ingredients make [matchPercentage] 25 times
    [matchScore]. *)
Theorem getFallbackRecipes_result (availableIngredients : list string)
    (limit : option Z) :
  let result := getFallbackRecipes availableIngredients limit in
  let recipes := SearchResult.recipes result in
  SearchResult.searchedIngredients result = availableIngredients
  /\ SearchResult.totalFound result = List.length recipes
  /\ map Found.recipe recipes
     = match limit with
       | Some l => if 1 <=? l then fallbackRecipes else []
       | None => []
       end
  /\ Forall (fun found =>
               (Found.matchScore found <= 4)%nat
               /\ MatchData.matchPercentage (Found.matchData found)
                  = Some (25 * Z.of_nat (Found.matchScore found))
               /\ (List.length (MatchData.missingIngredients
                                  (Found.matchData found))
                   = 4 - Found.matchScore found)%nat)
            recipes.
Proof.
  cbv zeta. unfold getFallbackRecipes, fallbackRecipes.
  rewrite slice_from_0_singleton.
  cbn [SearchResult.searchedIngredients SearchResult.totalFound
       SearchResult.recipes].
  split; [reflexivity|]. split; [reflexivity|]. split.
  - destruct limit as [e|]; [destruct (1 <=? e)|]; reflexivity.
  - destruct limit as [e|]; [destruct (1 <=? e)|]; simpl map;
      constructor; [|constructor].
    unfold Found.matchScore. cbn [Found.matchData].
    rewrite calculateMatchData_fields.
    cbn [MatchData.matchScore MatchData.matchPercentage
         MatchData.missingIngredients ingredients_of RecipeData.ingredients
         filter].
    destruct (available_for availableIngredients "eggs"),
             (available_for availableIngredients "salt"),
             (available_for availableIngredients "pepper"),
             (available_for availableIngredients "butter");
      cbn [negb List.length];
      (split; [lia | split; [vm_compute; reflexivity | reflexivity]]).
Qed.

(** * The grocery controller *)

Section ControllerFacts.

Variable generateContent : Z -> option Recipe.t.
Variable localeCompare : string -> string -> Z.
Variable parseInt : string -> option Z.
Variable now : string.

(** X15.  [getGroceryList] never scales a list.  For a valid recipe
    identifier: without a [servings] parameter the call of the service
    throws a [TypeError], which is handed to [next]; with a positive
    [servings] the reply is the one the default options give, whatever the
    number.  A list is therefore sent only when [servings] is given, and it
    is the list of the default options. *)
Theorem getGroceryList_ignores_servings (recipeId servings : option string) :
  let reply :=
    getGroceryList generateContent localeCompare parseInt now recipeId
      servings in
  (forall id,
      truthy recipeId = true -> parseInt_parameter parseInt recipeId = Some id ->
      (truthy servings = false -> reply = Next TypeError)
      /\ (forall n,
             truthy servings = true ->
             parseInt_parameter parseInt servings = Some n -> 0 < n ->
             reply
             = match generateGroceryList generateContent localeCompare
                       (Single id) Options.default with
               | inr groceryList =>
                   Sent 200 (Success groceryList
                               "Grocery list generated successfully")
               | inl error => Next error
               end))
  /\ (forall status data message,
         reply = Sent status (Success data message) ->
         truthy servings = true
         /\ exists id,
              parseInt_parameter parseInt recipeId = Some id
              /\ generateGroceryList generateContent localeCompare
                   (Single id) Options.default = inr data).
Proof.
  cbv zeta. unfold getGroceryList, GroceryService_generateGroceryList.
  split.
  - intros id Hid Hparse. rewrite Hid, Hparse. split.
    + intros ->. reflexivity.
    + intros n -> -> Hn. simpl.
      destruct (n <=? 0) eqn:E; [apply Z.leb_le in E; lia|].
      unfold bind. simpl.
      now destruct (generateGroceryList generateContent localeCompare
                      (Single id) Options.default).
  - intros status data message.
    destruct (truthy recipeId); [|discriminate].
    destruct (parseInt_parameter parseInt recipeId) as [id|]; [|discriminate].
    destruct (truthy servings); [|discriminate].
    simpl.
    destruct (parseInt_parameter parseInt servings) as [n|]; [|discriminate].
    destruct (n <=? 0); [discriminate|].
    unfold bind. simpl.
    destruct (generateGroceryList generateContent localeCompare (Single id)
                Options.default) as [e|gl] eqn:Hrun; [discriminate|].
    intros [= _ <- _]. split; [reflexivity|]. exists id. auto.
Qed.

End ControllerFacts.

Lemma getGroceryList_ignores_servings_witness :
  getGroceryList Scenario.generateContent Scenario.localeCompare
    sample_parseInt "2026-01-01T00:00:00.000Z" (Some "1") None
  = Next TypeError
  /\ getGroceryList Scenario.generateContent Scenario.localeCompare
       sample_parseInt "2026-01-01T00:00:00.000Z" (Some "1") (Some "4")
     = getGroceryList Scenario.generateContent Scenario.localeCompare
         sample_parseInt "2026-01-01T00:00:00.000Z" (Some "1") (Some "8").
Proof.
  pose proof (getGroceryList_ignores_servings Scenario.generateContent
                Scenario.localeCompare sample_parseInt
                "2026-01-01T00:00:00.000Z" (Some "1") None) as [H0 _].
  pose proof (getGroceryList_ignores_servings Scenario.generateContent
                Scenario.localeCompare sample_parseInt
                "2026-01-01T00:00:00.000Z" (Some "1") (Some "4")) as [H4 _].
  pose proof (getGroceryList_ignores_servings Scenario.generateContent
                Scenario.localeCompare sample_parseInt
                "2026-01-01T00:00:00.000Z" (Some "1") (Some "8")) as [H8 _].
  cbv zeta in H0, H4, H8.
  split.
  - exact (proj1 (H0 1 eq_refl eq_refl) eq_refl).
  - rewrite (proj2 (H4 1 eq_refl eq_refl) 4 eq_refl eq_refl eq_refl).
    rewrite (proj2 (H8 1 eq_refl eq_refl) 8 eq_refl eq_refl eq_refl).
    reflexivity.
Defined.

(** * The validators *)

Lemma split_comma_nonempty (s : string) : Text.split_comma s <> [].
Proof.
  destruct s as [|c s]; simpl; [discriminate|].
  destruct (Ascii.eqb c ","); [discriminate|].
  destruct (Text.split_comma s); discriminate.
Qed.

Lemma split_comma_parts (s : string) :
  Forall (fun part => comma_free part = true) (Text.split_comma s).
Proof.
  induction s as [|c s IH]; simpl.
  - repeat constructor.
  - destruct (Ascii.eqb c ",") eqn:E.
    + constructor; [reflexivity | exact IH].
    + destruct (Text.split_comma s) as [|part parts].
      * constructor; [|constructor]. simpl. now rewrite E.
      * inversion IH as [|? ? Hpart Hparts]; subst.
        constructor; [|exact Hparts]. simpl. now rewrite E.
Qed.

Lemma split_comma_free (s : string) :
  comma_free s = true -> Text.split_comma s = [s].
Proof.
  induction s as [|c s IH]; simpl; [reflexivity|].
  intros H. apply andb_true_iff in H as [Hc Hs].
  apply negb_true_iff in Hc. rewrite Hc, (IH Hs). reflexivity.
Qed.

Lemma split_comma_app (s rest : string) :
  comma_free s = true ->
  Text.split_comma (s ++ "," ++ rest) = s :: Text.split_comma rest.
Proof.
  induction s as [|c s IH]; simpl; [reflexivity|].
  intros H. apply andb_true_iff in H as [Hc Hs].
  apply negb_true_iff in Hc. rewrite Hc.
  change (String "," rest) with ("," ++ rest). now rewrite (IH Hs).
Qed.

Lemma split_comma_join (items : list string) :
  items <> [] ->
  Forall (fun item => comma_free item = true) items ->
  Text.split_comma (join_comma items) = items.
Proof.
  intros Hne Hall. induction Hall as [|x xs Hx Hxs IH]; [congruence|].
  destruct xs as [|y ys].
  - simpl. now apply split_comma_free.
  - change (join_comma (x :: y :: ys))
      with (x ++ "," ++ join_comma (y :: ys)).
    rewrite split_comma_app by exact Hx. f_equal. apply IH. discriminate.
Qed.

Lemma is_space_lower (c : ascii) :
  Text.is_space (Str.lower_ascii c) = Text.is_space c.
Proof.
  unfold Str.lower_ascii.
  destruct ((65 <=? nat_of_ascii c)%nat && (nat_of_ascii c <=? 90)%nat)
    eqn:E; [|reflexivity].
  apply andb_true_iff in E as [E1 E2].
  apply Nat.leb_le in E1. apply Nat.leb_le in E2.
  unfold Text.is_space. rewrite nat_ascii_embedding by lia.
  assert (H1 : (nat_of_ascii c + 32 <=? 13)%nat = false)
    by (apply Nat.leb_gt; lia).
  assert (H2 : (nat_of_ascii c + 32 =? 32)%nat = false)
    by (apply Nat.eqb_neq; lia).
  assert (H3 : (nat_of_ascii c <=? 13)%nat = false)
    by (apply Nat.leb_gt; lia).
  assert (H4 : (nat_of_ascii c =? 32)%nat = false)
    by (apply Nat.eqb_neq; lia).
  now rewrite H1, H2, H3, H4, !andb_false_r.
Qed.

Lemma comma_lower (c : ascii) :
  Ascii.eqb (Str.lower_ascii c) "," = Ascii.eqb c ",".
Proof.
  unfold Str.lower_ascii.
  destruct ((65 <=? nat_of_ascii c)%nat && (nat_of_ascii c <=? 90)%nat)
    eqn:E; [|reflexivity].
  apply andb_true_iff in E as [E1 E2].
  apply Nat.leb_le in E1. apply Nat.leb_le in E2.
  assert (Hc : Ascii.eqb c "," = false).
  { apply Ascii.eqb_neq. intros ->.
    change (nat_of_ascii ",") with 44%nat in E1. lia. }
  rewrite Hc. apply Ascii.eqb_neq. intros H.
  apply (f_equal nat_of_ascii) in H.
  rewrite nat_ascii_embedding in H by lia.
  change (nat_of_ascii ",") with 44%nat in H. lia.
Qed.

Lemma trimStart_lower (s : string) :
  Text.trimStart (Str.toLowerCase s) = Str.toLowerCase (Text.trimStart s).
Proof.
  induction s as [|c s IH]; simpl; [reflexivity|].
  rewrite is_space_lower. now destruct (Text.is_space c).
Qed.

Lemma trimEnd_lower (s : string) :
  Text.trimEnd (Str.toLowerCase s) = Str.toLowerCase (Text.trimEnd s).
Proof.
  induction s as [|c s IH]; simpl; [reflexivity|].
  rewrite IH, is_space_lower.
  destruct (Text.trimEnd s); simpl; [|reflexivity].
  now destruct (Text.is_space c).
Qed.

Lemma trimEnd_idempotent (s : string) :
  Text.trimEnd (Text.trimEnd s) = Text.trimEnd s.
Proof.
  induction s as [|c s IH]; simpl; [reflexivity|].
  destruct (Text.trimEnd s) as [|d kept] eqn:E.
  - destruct (Text.is_space c) eqn:Hc; simpl; [reflexivity|].
    now rewrite Hc.
  - simpl in *. now rewrite IH.
Qed.

Lemma trimStart_trimEnd (s : string) :
  Text.trimStart (Text.trimEnd (Text.trimStart s))
  = Text.trimEnd (Text.trimStart s).
Proof.
  induction s as [|c s IH]; simpl; [reflexivity|].
  destruct (Text.is_space c) eqn:Hc; [exact IH|].
  simpl. rewrite Hc. destruct (Text.trimEnd s); simpl; now rewrite Hc.
Qed.

Lemma trim_idempotent (s : string) : Text.trim (Text.trim s) = Text.trim s.
Proof.
  unfold Text.trim. now rewrite trimStart_trimEnd, trimEnd_idempotent.
Qed.

Lemma trim_lower (s : string) :
  Text.trim (Str.toLowerCase s) = Str.toLowerCase (Text.trim s).
Proof.
  unfold Text.trim. now rewrite trimStart_lower, trimEnd_lower.
Qed.

Lemma comma_free_lower (s : string) :
  comma_free (Str.toLowerCase s) = comma_free s.
Proof.
  induction s as [|c s IH]; simpl; [reflexivity|].
  now rewrite comma_lower, IH.
Qed.

Lemma comma_free_trimStart (s : string) :
  comma_free s = true -> comma_free (Text.trimStart s) = true.
Proof.
  induction s as [|c s IH]; simpl; [reflexivity|].
  intros H. destruct (Text.is_space c); [|exact H].
  apply andb_true_iff in H as [_ H]. now apply IH.
Qed.

Lemma comma_free_trimEnd (s : string) :
  comma_free s = true -> comma_free (Text.trimEnd s) = true.
Proof.
  induction s as [|c s IH]; simpl; [reflexivity|].
  intros H. apply andb_true_iff in H as [Hc Hs]. specialize (IH Hs).
  destruct (Text.trimEnd s) as [|d kept].
  - destruct (Text.is_space c); simpl; [reflexivity|]. now rewrite Hc.
  - simpl in *. now rewrite Hc, IH.
Qed.

Lemma join_comma_not_empty (x : string) (xs : list string) :
  x <> "" -> join_comma (x :: xs) <> "".
Proof.
  intros Hx. destruct x as [|c x]; [congruence|].
  destruct xs; discriminate.
Qed.

(** The items [validateIngredients] keeps. *)
Lemma cleaned_items (s : string) :
  Forall (fun item =>
            item <> ""
            /\ Str.toLowerCase item = item
            /\ Text.trim item = item
            /\ comma_free item = true)
         (filter (fun item => negb (String.length item =? 0)%nat)
                 (map (fun item => Str.toLowerCase (Text.trim item))
                      (Text.split_comma s))).
Proof.
  apply Forall_forall. intros item Hin.
  apply filter_In in Hin as [Hin Hlen].
  apply in_map_iff in Hin as (part & <- & Hpart).
  pose proof (split_comma_parts s) as Hfree.
  rewrite Forall_forall in Hfree. specialize (Hfree part Hpart).
  split; [|split; [|split]].
  - intros E. rewrite E in Hlen. discriminate Hlen.
  - apply toLowerCase_idempotent.
  - now rewrite trim_lower, trim_idempotent.
  - rewrite comma_free_lower. unfold Text.trim.
    now apply comma_free_trimEnd, comma_free_trimStart.
Qed.

Lemma cleaned_items_fixed (items : list string) :
  Forall (fun item =>
            item <> ""
            /\ Str.toLowerCase item = item
            /\ Text.trim item = item
            /\ comma_free item = true) items ->
  filter (fun item => negb (String.length item =? 0)%nat)
         (map (fun item => Str.toLowerCase (Text.trim item)) items)
  = items.
Proof.
  induction 1 as [|x xs (Hne & Hlow & Htrim & _) _ IH]; [reflexivity|].
  simpl. rewrite Htrim, Hlow, IH.
  destruct x; [congruence | reflexivity].
Qed.

(** X16.  When [validateIngredients] returns, it returns between 1 and 20
    items, each of them non-empty, in lower case, trimmed and free of
    commas; joining them with commas and validating again gives the same
    items.  Otherwise it throws one of its three messages. *)
Theorem validateIngredients_result (ingredientsString : option string) :
  match validateIngredients ingredientsString with
  | inr ingredients =>
      (1 <= List.length ingredients <= 20)%nat
      /\ Forall (fun item =>
                   item <> ""
                   /\ Str.toLowerCase item = item
                   /\ Text.trim item = item
                   /\ comma_free item = true)
                ingredients
      /\ validateIngredients (Some (join_comma ingredients))
         = inr ingredients
  | inl message =>
      In message
         ["Ingredients must be provided as a comma-separated string";
          "At least one ingredient must be provided";
          "Maximum 20 ingredients allowed"]
  end.
Proof.
  unfold validateIngredients at 1.
  destruct ingredientsString as [s|]; [|simpl; auto].
  destruct (String.eqb s ""); [simpl; auto|]. cbv zeta.
  pose proof (cleaned_items s) as Hclean.
  set (ingredients :=
         filter (fun item => negb (String.length item =? 0)%nat)
                (map (fun item => Str.toLowerCase (Text.trim item))
                     (Text.split_comma s))) in *.
  destruct (List.length ingredients =? 0)%nat eqn:E0; [simpl; auto|].
  destruct (20 <? List.length ingredients)%nat eqn:E20; [simpl; auto|].
  apply Nat.eqb_neq in E0. apply Nat.ltb_ge in E20.
  split; [lia|]. split; [exact Hclean|].
  unfold validateIngredients.
  destruct ingredients as [|x xs] eqn:E; [simpl in E0; lia|].
  assert (Hx : x <> "") by (inversion Hclean; tauto).
  destruct (String.eqb (join_comma (x :: xs)) "") eqn:Hj.
  { apply String.eqb_eq in Hj. now apply join_comma_not_empty in Hj. }
  cbv zeta. rewrite split_comma_join.
  - rewrite (cleaned_items_fixed _ Hclean).
    apply Nat.eqb_neq in E0. apply Nat.ltb_ge in E20.
    now rewrite E0, E20.
  - discriminate.
  - eapply Forall_impl; [|exact Hclean]. intros item H.
    exact (proj2 (proj2 (proj2 H))).
Qed.

(** * The recipe controller *)

Lemma validateIngredients_returns (ingredientsString : option string)
    (ingredients : list string) :
  validateIngredients ingredientsString = inr ingredients ->
  (1 <= List.length ingredients <= 20)%nat.
Proof.
  unfold validateIngredients.
  destruct ingredientsString as [s|]; [|discriminate].
  destruct (String.eqb s ""); [discriminate|]. cbv zeta.
  destruct (List.length _ =? 0)%nat eqn:E0; [discriminate|].
  destruct (20 <? List.length _)%nat eqn:E20; [discriminate|].
  intros [= <-].
  apply Nat.eqb_neq in E0. apply Nat.ltb_ge in E20. lia.
Qed.

Lemma validateIngredients_throws (s : string) (message : string) :
  s <> "" ->
  validateIngredients (Some s) = inl message ->
  In message ["At least one ingredient must be provided";
              "Maximum 20 ingredients allowed"].
Proof.
  intros Hs. unfold validateIngredients.
  apply String.eqb_neq in Hs. rewrite Hs. cbv zeta.
  destruct (List.length _ =? 0)%nat; [intros [= <-]; simpl; auto|].
  destruct (20 <? List.length _)%nat; [intros [= <-]; simpl; auto|].
  discriminate.
Qed.

Lemma StronglySorted_filter {A} (R : A -> A -> Prop) (f : A -> bool)
    (l : list A) :
  StronglySorted R l -> StronglySorted R (filter f l).
Proof.
  induction 1 as [|a l Hl IH Ha]; simpl; [constructor|].
  destruct (f a); [|exact IH]. constructor; [exact IH|].
  rewrite Forall_forall in *. intros b Hb. apply Ha.
  apply filter_In in Hb. tauto.
Qed.

Lemma filterBy_sorted (R : Found.t -> Found.t -> Prop)
    (field : RecipeData.t -> string) (parameter : option string)
    (recipes : list Found.t) :
  StronglySorted R recipes -> StronglySorted R (filterBy field parameter recipes).
Proof.
  intros H. unfold filterBy. destruct parameter as [value|]; [|exact H].
  destruct (selective (Some value)); [|exact H].
  now apply StronglySorted_filter.
Qed.

Lemma filterBy_selected (field : RecipeData.t -> string) (value : string)
    (recipes : list Found.t) :
  selective (Some value) = true ->
  Forall (fun found =>
            Str.toLowerCase (field (Found.recipe found))
            = Str.toLowerCase value)
         (filterBy field (Some value) recipes).
Proof.
  intros Hsel. unfold filterBy. rewrite Hsel. apply Forall_forall.
  intros found Hin. apply filter_In in Hin as [_ H].
  now apply String.eqb_eq in H.
Qed.

Lemma filterBy_incl (field : RecipeData.t -> string)
    (parameter : option string) (recipes : list Found.t) (found : Found.t) :
  In found (filterBy field parameter recipes) -> In found recipes.
Proof.
  unfold filterBy. destruct parameter as [value|]; [|auto].
  destruct (selective (Some value)); [|auto].
  intros H. apply filter_In in H. tauto.
Qed.

Section RecipeControllerFacts.

Variable generateRecipes :
  list string -> option Z -> option (list RecipeData.t).
Variable encodeURIComponent : string -> string.
Variable parseInt : string -> option Z.
Variable now : string.

(** X17.  [getRecipesByIngredients] rejects a request only for a missing
    [items] parameter: its reply "Valid ingredients are required" is never
    sent, because [validateIngredients] throws where it would apply, and
    the thrown error goes to [next].  A success reply carries the validated
    ingredients, between 1 and 20, the recipes still in descending order of
    [matchScore], their number as [totalFound], and only recipes of the
    cuisine and difficulty asked for. *)
Theorem getRecipesByIngredients_replies
    (items limit cuisine difficulty : option string) :
  let reply :=
    getRecipesByIngredients generateRecipes encodeURIComponent parseInt now
      items limit cuisine difficulty in
  (forall status error,
      reply = Rejected status error ->
      truthy items = false
      /\ status = 400
      /\ ErrorResponse.message error = "Items parameter is required")
  /\ (forall message,
         reply = Failed message ->
         In message ["At least one ingredient must be provided";
                     "Maximum 20 ingredients allowed"])
  /\ (forall ingredients result message,
         reply = Recipes ingredients result message ->
         validateIngredients items = inr ingredients
         /\ (1 <= List.length ingredients <= 20)%nat
         /\ SearchResult.searchedIngredients result = ingredients
         /\ SearchResult.totalFound result
            = List.length (SearchResult.recipes result)
         /\ StronglySorted
              (fun a b => (Found.matchScore b <= Found.matchScore a)%nat)
              (SearchResult.recipes result)
         /\ (forall value,
                cuisine = Some value -> selective cuisine = true ->
                Forall (fun found =>
                          Str.toLowerCase
                            (RecipeData.cuisine (Found.recipe found))
                          = Str.toLowerCase value)
                       (SearchResult.recipes result))
         /\ (forall value,
                difficulty = Some value -> selective difficulty = true ->
                Forall (fun found =>
                          Str.toLowerCase
                            (RecipeData.difficulty (Found.recipe found))
                          = Str.toLowerCase value)
                       (SearchResult.recipes result))).
Proof.
  cbv zeta. unfold getRecipesByIngredients.
  destruct (truthy items) eqn:Hitems; simpl negb; cbv iota.
  2:{ split; [|split]; [|discriminate|discriminate].
      intros status error [= <- <-]. auto. }
  destruct (validateIngredients items) as [thrown|ingredients] eqn:Hvalid.
  - split; [discriminate|]. split; [|discriminate].
    intros message [= <-].
    destruct items as [s|]; [|discriminate Hitems].
    apply (validateIngredients_throws s); [|exact Hvalid].
    intros ->. discriminate Hitems.
  - pose proof (validateIngredients_returns _ _ Hvalid) as Hlen.
    destruct (List.length ingredients =? 0)%nat eqn:E0;
      [apply Nat.eqb_eq in E0; lia|].
    split; [discriminate|]. split; [discriminate|].
    intros ingredients' result message [= <- <- _].
    cbn [SearchResult.searchedIngredients SearchResult.totalFound
         SearchResult.recipes].
    set (limit' := match limit with Some s => parseInt s | None => Some 10
                   end).
    destruct (findRecipesByIngredients_sorted generateRecipes
                encodeURIComponent ingredients limit') as [Hsearched Hsorted].
    cbv zeta in Hsearched, Hsorted.
    split; [reflexivity|]. split; [exact Hlen|].
    split; [exact Hsearched|]. split; [reflexivity|].
    split; [now apply filterBy_sorted, filterBy_sorted|]. split.
    + intros value -> Hsel. apply Forall_forall. intros found Hin.
      apply filterBy_incl in Hin.
      pose proof (filterBy_selected RecipeData.cuisine value
                    (SearchResult.recipes
                       (findRecipesByIngredients generateRecipes
                          encodeURIComponent ingredients limit')) Hsel) as H.
      rewrite Forall_forall in H. now apply H.
    + intros value -> Hsel. now apply filterBy_selected.
Qed.

End RecipeControllerFacts.

Lemma getRecipesByIngredients_replies_witness :
  exists result message,
    getRecipesByIngredients Kitchen.generateRecipes
      Kitchen.encodeURIComponent sample_parseInt "2026-01-01T00:00:00.000Z"
      (Some "Tomato, cheddar ,oil") (Some "5") (Some "italian") None
    = Recipes Kitchen.available result message
    /\ SearchResult.totalFound result
       = List.length (SearchResult.recipes result).
Proof.
  eexists. eexists. 
  assert (Hrun :
    getRecipesByIngredients Kitchen.generateRecipes
      Kitchen.encodeURIComponent sample_parseInt "2026-01-01T00:00:00.000Z"
      (Some "Tomato, cheddar ,oil") (Some "5") (Some "italian") None
    = Recipes Kitchen.available
        (SearchResult.make Kitchen.available 1
           (filterBy RecipeData.cuisine (Some "italian")
              (SearchResult.recipes
                 (findRecipesByIngredients Kitchen.generateRecipes
                    Kitchen.encodeURIComponent Kitchen.available (Some 5)))))
        "Found 1 recipes matching your ingredients")
    by (vm_compute; reflexivity).
  split; [exact Hrun|].
  pose proof (getRecipesByIngredients_replies Kitchen.generateRecipes
                Kitchen.encodeURIComponent sample_parseInt
                "2026-01-01T00:00:00.000Z"
                (Some "Tomato, cheddar ,oil") (Some "5") (Some "italian")
                None) as (_ & _ & H).
  destruct (H _ _ _ Hrun) as (_ & _ & _ & Htotal & _).
  exact Htotal.
Defined.

(** X18.  [calculateHealthScore] lies between 40 and 100: the lower clamp
    at 0 never applies.  One more tag never lowers the score, six healthy
    tags give 100 whatever the calories, tags count whatever their letter
    case, and calories that do not parse count like calories below 200. *)
Theorem calculateHealthScore_range (calories : option Z)
    (tags : list string) :
  40 <= calculateHealthScore calories tags <= 100
  /\ (forall tag,
         calculateHealthScore calories tags
         <= calculateHealthScore calories (tag :: tags))
  /\ ((6 <= List.length
              (filter (fun tag => Str.mem (Str.toLowerCase tag) healthyTags)
                      tags))%nat ->
      calculateHealthScore calories tags = 100)
  /\ calculateHealthScore calories (map Str.toLowerCase tags)
     = calculateHealthScore calories tags
  /\ (forall c, c < 200 ->
         calculateHealthScore None tags = calculateHealthScore (Some c) tags).
Proof.
  unfold calculateHealthScore; cbv zeta.
  set (healthy := fun tag => Str.mem (Str.toLowerCase tag) healthyTags).
  assert (Hbase :
    40 <= match calories with
          | Some c =>
              if (200 <=? c) && (c <=? 600) then 50 + 20
              else if 600 <? c then 50 - 10 else 50
          | None => 50
          end <= 70).
  { destruct calories as [c|]; [|lia].
    destruct ((200 <=? c) && (c <=? 600)); [lia|].
    destruct (600 <? c); lia. }
  set (base := match calories with
               | Some c =>
                   if (200 <=? c) && (c <=? 600) then 50 + 20
                   else if 600 <? c then 50 - 10 else 50
               | None => 50
               end) in *.
  split; [lia|]. split; [|split; [|split]].
  - intros tag. simpl filter. destruct (healthy tag); simpl List.length; lia.
  - intros H6. lia.
  - assert (E : forall ts,
               List.length (filter healthy (map Str.toLowerCase ts))
               = List.length (filter healthy ts)).
    { induction ts as [|t ts IH]; [reflexivity|]. cbn [map filter].
      assert (Hh : healthy (Str.toLowerCase t) = healthy t)
        by (unfold healthy; now rewrite toLowerCase_idempotent).
      rewrite Hh. destruct (healthy t); cbn [List.length]; now rewrite IH. }
    now rewrite E.
  - intros c Hc.
    assert (E1 : (200 <=? c) = false) by (apply Z.leb_gt; lia).
    assert (E2 : (600 <? c) = false) by (apply Z.ltb_ge; lia).
    now rewrite E1, E2.
Qed.

Lemma calculateHealthScore_range_witness :
  calculateHealthScore (Some 700)
    ["Vegan"; "vegetarian"; "HEALTHY"; "low-fat"; "high-protein"; "vegan"]
  = 100.
Proof.
  pose proof (calculateHealthScore_range (Some 700)
    ["Vegan"; "vegetarian"; "HEALTHY"; "low-fat"; "high-protein"; "vegan"])
    as (_ & _ & H & _).
  apply H. vm_compute. lia.
Defined.

(** * The cost estimate *)

Lemma map_fst_filter {V} (f : string -> bool) (o : JS.object V) :
  map fst (filter (fun kv => f (fst kv)) o) = filter f (map fst o).
Proof.
  induction o as [|[k v] o IH]; [reflexivity|]. simpl.
  destruct (f k); simpl; now rewrite IH.
Qed.

Lemma map_fst_insert {V} (g : string -> string -> Z) (kv : string * V)
    (l : list (string * V)) :
  map fst (JS.insert (fun a b => g (fst a) (fst b)) kv l)
  = JS.insert g (fst kv) (map fst l).
Proof.
  induction l as [|b l IH]; [reflexivity|]. simpl.
  destruct (g (fst kv) (fst b) <=? 0); simpl; [reflexivity|]. now rewrite IH.
Qed.

Lemma map_fst_sort {V} (g : string -> string -> Z) (l : list (string * V)) :
  map fst (JS.sort (fun a b => g (fst a) (fst b)) l) = JS.sort g (map fst l).
Proof.
  induction l as [|a l IH]; [reflexivity|]. simpl.
  now rewrite map_fst_insert, IH.
Qed.

(** [Object.keys] depends on the names of the own properties only. *)
Lemma keys_of_names {V W} (o : JS.object V) (o' : JS.object W) :
  map fst o = map fst o' -> JS.keys o = JS.keys o'.
Proof.
  intros H. unfold JS.keys, JS.entries. rewrite !map_app.
  rewrite (map_fst_sort (fun a b => JS.index_of a - JS.index_of b)).
  rewrite (map_fst_sort (fun a b => JS.index_of a - JS.index_of b)).
  rewrite (map_fst_filter JS.is_index o), (map_fst_filter JS.is_index o').
  rewrite (map_fst_filter (fun k => negb (JS.is_index k)) o).
  rewrite (map_fst_filter (fun k => negb (JS.is_index k)) o').
  now rewrite H.
Qed.

Lemma price_bounds (ingredient : string) :
  (1 <= price ingredient)%Q /\ (price ingredient <= 6)%Q.
Proof.
  unfold price.
  destruct (JS.own averagePrices (Str.toLowerCase ingredient)) as [p|] eqn:E.
  - apply own_In in E. simpl in E.
    repeat (destruct E as [E|E];
            [injection E as _ <-; split; discriminate|]).
    contradiction.
  - split; discriminate.
Qed.

Lemma total_bounds (names : list string) :
  (inject_Z (Z.of_nat (List.length names)) <= total names)%Q
  /\ (total names <= 6 * inject_Z (Z.of_nat (List.length names)))%Q.
Proof.
  induction names as [|n names [IHlo IHhi]].
  - split; discriminate.
  - destruct (price_bounds n) as [Hlo Hhi].
    assert (E : (inject_Z (Z.of_nat (List.length (n :: names)))
                 == 1 + inject_Z (Z.of_nat (List.length names)))%Q).
    { simpl List.length. rewrite Nat2Z.inj_succ. unfold Z.succ.
      rewrite inject_Z_plus. apply Qplus_comm. }
    simpl total. rewrite E. split.
    + apply Qplus_le_compat; assumption.
    + rewrite Qmult_plus_distr_r. apply Qplus_le_compat; assumption.
Qed.

Section Cost.

Variable generateContent : Z -> option Recipe.t.
Variable localeCompare : string -> string -> Z.

Lemma generateGroceryList_names_created (options : Options.t)
    (recipeIds : RecipeIds) (groceryList : GroceryList.t) :
  generateGroceryList generateContent localeCompare recipeIds options
  = inr groceryList ->
  map fst (GroceryList.ingredients groceryList)
  = first_appearance
      (flat_map (kept options)
                (fetched generateContent (normalize recipeIds))).
Proof.
  intros Hrun.
  destruct (generateGroceryList_returns _ _ _ _ _ Hrun) as (_ & Hings & _).
  pose proof (records_keys _ _ _ _ (occurrences_not_excluded _ _) Hings)
    as Hkeys.
  simpl in Hkeys. now rewrite occurrences_names in Hkeys.
Qed.

(** X19.  The cost estimate looks at the names only: two calls on the same
    identifiers with the same exclusions list the same keys and give the
    same [estimatedCost] and [totalIngredients], whatever their
    [servings]. *)
Theorem estimatedCost_ignores_servings (o1 o2 : Options.t)
    (recipeIds : RecipeIds) (gl1 gl2 : GroceryList.t) :
  Options.excludeIngredients o1 = Options.excludeIngredients o2 ->
  generateGroceryList generateContent localeCompare recipeIds o1 = inr gl1 ->
  generateGroceryList generateContent localeCompare recipeIds o2 = inr gl2 ->
  JS.keys (GroceryList.ingredients gl1) = JS.keys (GroceryList.ingredients gl2)
  /\ Summary.estimatedCost (GroceryList.summary gl1)
     = Summary.estimatedCost (GroceryList.summary gl2)
  /\ Summary.totalIngredients (GroceryList.summary gl1)
     = Summary.totalIngredients (GroceryList.summary gl2).
Proof.
  intros Hex Hrun1 Hrun2.
  assert (Hkeys : JS.keys (GroceryList.ingredients gl1)
                  = JS.keys (GroceryList.ingredients gl2)).
  { apply keys_of_names.
    rewrite (generateGroceryList_names_created _ _ _ Hrun1).
    rewrite (generateGroceryList_names_created _ _ _ Hrun2).
    f_equal. apply flat_map_ext. intros r. unfold kept. now rewrite Hex. }
  destruct (generateGroceryList_returns _ _ _ _ _ Hrun1)
    as (_ & _ & _ & _ & _ & Hn1 & Hc1 & _).
  destruct (generateGroceryList_returns _ _ _ _ _ Hrun2)
    as (_ & _ & _ & _ & _ & Hn2 & Hc2 & _).
  cbv zeta in Hn1, Hc1, Hn2, Hc2.
  split; [exact Hkeys|]. split.
  - rewrite Hc1, Hc2. unfold estimateTotalCost. now rewrite Hkeys.
  - now rewrite Hn1, Hn2, Hkeys.
Qed.

(** X20.  When no key lower-cases to a name inherited from
    [Object.prototype], [estimatedCost] is the sum of the prices of the
    keys, 2.50 for a key without a row: each key is priced once, however
    many recipes list it and whatever its quantity, so the estimate lies
    between 1 and 6 times [totalIngredients]. *)
Theorem estimatedCost_bounds (options : Options.t) (recipeIds : RecipeIds)
    (groceryList : GroceryList.t) :
  generateGroceryList generateContent localeCompare recipeIds options
  = inr groceryList ->
  (forall key, In key (JS.keys (GroceryList.ingredients groceryList)) ->
               JS.inherited (Str.toLowerCase key) = false) ->
  let summary := GroceryList.summary groceryList in
  let n := inject_Z (Z.of_nat (Summary.totalIngredients summary)) in
  exists cost,
    Summary.estimatedCost summary = JS.Num cost
    /\ (cost == total (JS.keys (GroceryList.ingredients groceryList)))%Q
    /\ (n <= cost)%Q /\ (cost <= 6 * n)%Q.
Proof.
  intros Hrun Hreg. cbv zeta.
  destruct (generateGroceryList_returns _ _ _ _ _ Hrun)
    as (_ & _ & _ & _ & _ & Hn & Hc & _).
  cbv zeta in Hn, Hc.
  destruct (estimateTotalCost_regular (GroceryList.ingredients groceryList)
              Hreg) as (cost & Hcost & _ & Htotal).
  exists cost. rewrite Hc, Hn.
  split; [exact Hcost|]. split; [exact Htotal|].
  destruct (total_bounds (JS.keys (GroceryList.ingredients groceryList)))
    as [Hlo Hhi].
  rewrite Htotal. split; assumption.
Qed.

End Cost.

Lemma estimatedCost_ignores_servings_witness :
  Summary.estimatedCost (GroceryList.summary scenario_list)
  = Summary.estimatedCost (GroceryList.summary six_servings_list).
Proof.
  exact (proj1 (proj2 (estimatedCost_ignores_servings
                         Scenario.generateContent Scenario.localeCompare
                         Options.default six_servings (Array [1; 2])
                         scenario_list six_servings_list
                         eq_refl eq_refl eq_refl))).
Defined.

Lemma estimatedCost_bounds_witness :
  exists cost,
    Summary.estimatedCost (GroceryList.summary scenario_list) = JS.Num cost
    /\ (4 <= cost)%Q /\ (cost <= 24)%Q.
Proof.
  destruct (estimatedCost_bounds Scenario.generateContent
              Scenario.localeCompare Options.default (Array [1; 2])
              scenario_list eq_refl) as (cost & Hcost & _ & Hlo & Hhi).
  - intros key Hin. simpl in Hin.
    repeat (destruct Hin as [<-|Hin]; [reflexivity|]). contradiction.
  - exists cost. split; [exact Hcost|]. split; [exact Hlo | exact Hhi].
Defined.
